(** * is-an-ai.dev: validation and reconciliation of subdomain definitions

    A shallow embedding of the two scripts of the repository:

    - the validator, which checks the changed definition files under
      [domains/];
    - [scripts/sync-dns.js], which converges the remote DNS zone and the
      shared redirect ruleset to the definitions.

    Modelling conventions.
    - JavaScript strings are modelled as [string] (8-bit characters); case
      conversion acts on the ASCII letters.
    - JSON numbers are modelled as integers ([Z]).
    - A JavaScript object is an association list in property enumeration
      order with pairwise distinct keys.
    - File contents are taken after [JSON.parse]: a file is missing,
      unparsable, or holds a value.
    - The remote API is an explicit in-memory zone; the ids it hands out
      are numbers, and every call a script issues is appended to a trace.
    - Three primitives are exact on a range only: upper and lower case
      and the white space of [\s] are those of the 7-bit characters
      (JavaScript also maps U+017F to S and counts U+00A0 as white
      space); [String(n)] is the digit string of a safe integer
      (JavaScript writes an exponent from 1e21 on); and [String(v)] of
      an object that holds an own [toString] property raises a
      [TypeError], where [String_] has no exception. The predicates
      [plain_char], [exact_text] and [readable_type] name these ranges.

    The definitions come first: the two scripts, then the properties and
    sample data the statements use. The theorems follow. *)

From Stdlib Require Import Ascii String ZArith Lia Bool Permutation.
From stdpp Require Import base list strings gmap.

Set Warnings "-register-all".

Local Open Scope string_scope.
Local Open Scope list_scope.

(** ** JavaScript string primitives *)
Module JsString.

Fixpoint startsWith (s p : string) : bool :=
  match p, s with
  | EmptyString, _ => true
  | String b p', String a s' => if Ascii.eqb a b then startsWith s' p' else false
  | String _ _, EmptyString => false
  end.

Fixpoint endsWith (s p : string) : bool :=
  if String.eqb s p then true
  else match s with
       | EmptyString => false
       | String _ s' => endsWith s' p
       end.

Fixpoint includes (s p : string) : bool :=
  if startsWith s p then true
  else match s with
       | EmptyString => false
       | String _ s' => includes s' p
       end.

(** [s.split(c)] for a one-character separator [c]. *)
Fixpoint split (c : ascii) (s : string) : list string :=
  match s with
  | EmptyString => [EmptyString]
  | String a s' =>
      if Ascii.eqb a c then EmptyString :: split c s'
      else match split c s' with
           | h :: t => String a h :: t
           | [] => [String a EmptyString]
           end
  end.

Fixpoint join (sep : string) (l : list string) : string :=
  match l with
  | [] => EmptyString
  | [x] => x
  | x :: rest => x +:+ sep +:+ join sep rest
  end.

Definition is_upper (a : ascii) : bool :=
  let n := nat_of_ascii a in (65 <=? n)%nat && (n <=? 90)%nat.
Definition is_lower (a : ascii) : bool :=
  let n := nat_of_ascii a in (97 <=? n)%nat && (n <=? 122)%nat.

Definition upper_char (a : ascii) : ascii :=
  if is_lower a then ascii_of_nat (nat_of_ascii a - 32) else a.
Definition lower_char (a : ascii) : ascii :=
  if is_upper a then ascii_of_nat (nat_of_ascii a + 32) else a.

(** [s.toUpperCase()] and [s.toLowerCase()], as they act on 7-bit
    characters; other characters are left as they are. *)
Fixpoint toUpperCase (s : string) : string :=
  match s with
  | EmptyString => EmptyString
  | String a s' => String (upper_char a) (toUpperCase s')
  end.

Fixpoint toLowerCase (s : string) : string :=
  match s with
  | EmptyString => EmptyString
  | String a s' => String (lower_char a) (toLowerCase s')
  end.

Fixpoint slice_from (n : nat) (s : string) : string :=
  match n, s with
  | O, _ => s
  | S n', String _ s' => slice_from n' s'
  | S _, EmptyString => EmptyString
  end.

(** [s.replace(pat, rep)] with a string pattern: first occurrence only. *)
Fixpoint replace (s pat rep : string) : string :=
  if startsWith s pat then rep +:+ slice_from (String.length pat) s
  else match s with
       | EmptyString => EmptyString
       | String a s' => String a (replace s' pat rep)
       end.

(** Decimal rendering of an integer, as [String(n)] gives it for a safe
    integer. *)
Definition digit_char (d : nat) : ascii := ascii_of_nat (48 + d).

Fixpoint nat_digits (fuel n : nat) (acc : string) : string :=
  match fuel with
  | O => acc
  | S fuel' =>
      let acc' := String (digit_char (n mod 10)) acc in
      if (n <? 10)%nat then acc' else nat_digits fuel' (n / 10) acc'
  end.

Definition of_nat (n : nat) : string := nat_digits (S n) n EmptyString.

Definition of_Z (z : Z) : string :=
  if (z <? 0)%Z then String "-"%char (of_nat (Z.to_nat (- z)))
  else of_nat (Z.to_nat z).

(** Every character of [s] satisfies [P]. *)
Fixpoint chars_in (P : ascii -> bool) (s : string) : bool :=
  match s with
  | EmptyString => true
  | String a s' => P a && chars_in P s'
  end.

End JsString.

(** ** JavaScript values

  The values [JSON.parse] yields, plus [undefined] for absent properties. *)
Inductive value : Type :=
| VUndefined
| VNull
| VBool (b : bool)
| VNum (n : Z)
| VStr (s : string)
| VArr (elems : list value)
| VObj (props : list (string * value)).

Definition obj : Type := list (string * value).

Module Js.
Import JsString.

Fixpoint assoc (k : string) (o : obj) : option value :=
  match o with
  | [] => None
  | (k', v) :: rest => if String.eqb k' k then Some v else assoc k rest
  end.

(** [o[k]] *)
Definition get (o : obj) (k : string) : value :=
  match assoc k o with Some v => v | None => VUndefined end.

(** [k in o] *)
Definition has (o : obj) (k : string) : bool :=
  match assoc k o with Some _ => true | None => false end.

(** [o[k] = v]: overwrite in place, or append as the last property. *)
Fixpoint set (o : obj) (k : string) (v : value) : obj :=
  match o with
  | [] => [(k, v)]
  | (k', v') :: rest =>
      if String.eqb k' k then (k', v) :: rest else (k', v') :: set rest k v
  end.

(** [Object.keys(o)] *)
Definition keys (o : obj) : list string := map fst o.

(** [l.includes(s)] on an array of strings. *)
Fixpoint str_includes (l : list string) (s : string) : bool :=
  match l with
  | [] => false
  | x :: rest => if String.eqb x s then true else str_includes rest s
  end.

(** [a === b]. Two arrays or two objects obtained from different parses
    are different references, hence never strictly equal. *)
Definition strict_eq (a b : value) : bool :=
  match a, b with
  | VUndefined, VUndefined => true
  | VNull, VNull => true
  | VBool x, VBool y => Bool.eqb x y
  | VNum x, VNum y => (x =? y)%Z
  | VStr x, VStr y => String.eqb x y
  | _, _ => false
  end.

(** [typeof v] *)
Definition typeof (v : value) : string :=
  match v with
  | VUndefined => "undefined"
  | VNull => "object"
  | VBool _ => "boolean"
  | VNum _ => "number"
  | VStr _ => "string"
  | VArr _ => "object"
  | VObj _ => "object"
  end.

(** [String(v)], for a [v] on which it raises no exception. *)
Fixpoint String_ (v : value) : string :=
  match v with
  | VUndefined => "undefined"
  | VNull => "null"
  | VBool true => "true"
  | VBool false => "false"
  | VNum n => of_Z n
  | VStr s => s
  | VArr l =>
      join ","
        (map (fun e => match e with
                       | VUndefined | VNull => EmptyString
                       | _ => String_ e
                       end) l)
  | VObj _ => "[object Object]"
  end.

(** Truthiness, as in [if (v)] and [!v]. *)
Definition truthy (v : value) : bool :=
  match v with
  | VUndefined | VNull => false
  | VBool b => b
  | VNum n => negb (n =? 0)%Z
  | VStr s => negb (String.eqb s EmptyString)
  | VArr _ | VObj _ => true
  end.

End Js.

(** ** Regular expressions

  The three anchored patterns of the validator are written as terms of
  [regex] and run by a derivative matcher; [test r s] is [/^r$/.test(s)]. *)
Module Regex.

Inductive regex : Type :=
| Void
| Eps
| Chr (p : ascii -> bool)
| Cat (r1 r2 : regex)
| Alt (r1 r2 : regex)
| Star (r : regex).

Fixpoint nullable (r : regex) : bool :=
  match r with
  | Void => false
  | Eps => true
  | Chr _ => false
  | Cat r1 r2 => nullable r1 && nullable r2
  | Alt r1 r2 => nullable r1 || nullable r2
  | Star _ => true
  end.

Fixpoint deriv (a : ascii) (r : regex) : regex :=
  match r with
  | Void => Void
  | Eps => Void
  | Chr p => if p a then Eps else Void
  | Cat r1 r2 =>
      if nullable r1 then Alt (Cat (deriv a r1) r2) (deriv a r2)
      else Cat (deriv a r1) r2
  | Alt r1 r2 => Alt (deriv a r1) (deriv a r2)
  | Star r1 => Cat (deriv a r1) (Star r1)
  end.

Fixpoint test (r : regex) (s : string) : bool :=
  match s with
  | EmptyString => nullable r
  | String a s' => test (deriv a r) s'
  end.

(** Derived forms: [r+], [r?], [r{n}], [r{lo,hi}], a literal, [[a-b]]. *)
Definition Plus (r : regex) : regex := Cat r (Star r).
Definition Opt (r : regex) : regex := Alt Eps r.

Fixpoint Rep (n : nat) (r : regex) : regex :=
  match n with
  | O => Eps
  | S n' => Cat r (Rep n' r)
  end.

Fixpoint UpTo (n : nat) (r : regex) : regex :=
  match n with
  | O => Eps
  | S n' => Opt (Cat r (UpTo n' r))
  end.

Definition RepRange (lo hi : nat) (r : regex) : regex :=
  Cat (Rep lo r) (UpTo (hi - lo) r).

Definition Is (c : ascii) : regex := Chr (Ascii.eqb c).

Fixpoint Lit (s : string) : regex :=
  match s with
  | EmptyString => Eps
  | String a s' => Cat (Is a) (Lit s')
  end.

Definition in_range (lo hi : ascii) (a : ascii) : bool :=
  (nat_of_ascii lo <=? nat_of_ascii a)%nat && (nat_of_ascii a <=? nat_of_ascii hi)%nat.

Definition Range (lo hi : ascii) : regex := Chr (in_range lo hi).

(** [\d] *)
Definition digit : regex := Range "0" "9".

(** The language of a regular expression. *)
Inductive Lang : regex -> string -> Prop :=
| LEps : Lang Eps EmptyString
| LChr p a : p a = true -> Lang (Chr p) (String a EmptyString)
| LCat r1 r2 s1 s2 : Lang r1 s1 -> Lang r2 s2 -> Lang (Cat r1 r2) (s1 +:+ s2)
| LAltL r1 r2 s : Lang r1 s -> Lang (Alt r1 r2) s
| LAltR r1 r2 s : Lang r2 s -> Lang (Alt r1 r2) s
| LStar0 r : Lang (Star r) EmptyString
| LStarS r s1 s2 : Lang r s1 -> Lang (Star r) s2 -> Lang (Star r) (s1 +:+ s2).

End Regex.

(** ** The validator *)
Module Validator.
Import JsString Js Regex.

Definition ALLOWED_TYPES : list string :=
  ["A"; "AAAA"; "CNAME"; "TXT"; "URL"; "MX"; "SRV"; "CAA"; "NS"; "DS"; "TLSA"].

Definition REQUIRED_TOP_KEYS : list string := ["user"; "subdomain"; "records"].
Definition ALLOWED_TOP_KEYS : list string :=
  ["user"; "description"; "subdomain"; "records"].
Definition REQUIRED_USER_KEYS : list string := ["username"].

Definition ALLOWED_RECORD_KEYS : list string :=
  ["type"; "name"; "value"; "proxied";
   "priority"; "target";
   "weight"; "port";
   "flags"; "tag";
   "key_tag"; "algorithm"; "digest_type"; "digest";
   "usage"; "selector"; "matching_type"; "certificate"].

(** [(25[0-5]|2[0-4]\d|1?\d?\d)] *)
Definition octet : regex :=
  Alt (Cat (Lit "25") (Range "0" "5"))
    (Alt (Cat (Is "2") (Cat (Range "0" "4") digit))
       (Cat (Opt (Is "1")) (Cat (Opt digit) digit))).

(** [/^(25[0-5]|2[0-4]\d|1?\d?\d)(\.(25[0-5]|2[0-4]\d|1?\d?\d)){3}$/] *)
Definition IPV4_REGEX : regex := Cat octet (Rep 3 (Cat (Is ".") octet)).

(** [[0-9a-fA-F]] *)
Definition hex : regex :=
  Alt (Range "0" "9") (Alt (Range "a" "f") (Range "A" "F")).

(** [[0-9a-fA-F]{1,4}] and [([0-9a-fA-F]{1,4}:)] *)
Definition h14 : regex := RepRange 1 4 hex.
Definition grp : regex := Cat h14 (Is ":").

(** The five alternatives of the IPv6 pattern, in source order. *)
Definition IPV6_REGEX : regex :=
  Alt (Cat (Rep 7 grp) h14)
    (Alt (Lit "::")
       (Alt (Cat (RepRange 1 7 grp) (Is ":"))
          (Alt (Cat (Is ":") (RepRange 1 7 grp))
             (Cat (RepRange 1 6 grp) (Cat (Is ":") h14))))).

(** [/^[a-z0-9-]+$/] *)
Definition subdomain_char (a : ascii) : bool :=
  in_range "a" "z" a || in_range "0" "9" a || Ascii.eqb "-" a.
Definition SUBDOMAIN_REGEX : regex := Plus (Chr subdomain_char).

Definition MAX_RECORDS : nat := 0.

(** *** The reserved-name source *)

(** What [fs.readFileSync] followed by [JSON.parse] meets at a path. *)
Inductive file_content : Type :=
| Missing
| Unparsable
| Parsed (v : value).

(** [Object.values(v)]; [None] is the [TypeError] on [null]. *)
Definition object_values (v : value) : option (list value) :=
  match v with
  | VUndefined | VNull => None
  | VBool _ | VNum _ => Some []
  | VStr s => Some (map (fun a => VStr (String a EmptyString)) (list_ascii_of_string s))
  | VArr l => Some l
  | VObj o => Some (map snd o)
  end.

Definition is_array (v : value) : bool :=
  match v with VArr _ => true | _ => false end.

(** [l.flat()] (depth 1). *)
Definition flat (l : list value) : list value :=
  flat_map (fun v => match v with VArr es => es | _ => [v] end) l.

Record reserved_load : Type := {
  RESERVED_SUBDOMAINS : list value;
  warned : bool
}.

(** The [try]/[catch] around the load: any exception leaves the list
    empty and prints the warning. *)
Definition load_reserved (src : file_content) : reserved_load :=
  match src with
  | Missing | Unparsable =>
      {| RESERVED_SUBDOMAINS := []; warned := true |}
  | Parsed reservedData =>
      match object_values reservedData with
      | None => {| RESERVED_SUBDOMAINS := []; warned := true |}
      | Some vals =>
          {| RESERVED_SUBDOMAINS := flat (List.filter (fun val => is_array val) vals);
             warned := false |}
      end
  end.

(** [RESERVED_SUBDOMAINS.includes(s)] *)
Definition reserved_includes (reserved : list value) (s : string) : bool :=
  existsb (fun v => strict_eq v (VStr s)) reserved.

(** *** Verdicts *)
Inductive reason : Type :=
| InvalidJSON
| ExtraTopLevelKey (key : string)
| MissingRequiredKey (key : string)
| UserMustBeObject
| UserKeyRequired (key : string)
| InvalidSubdomainFormat
| ReservedSubdomain (subdomain : string)
| FilenameMismatch (expectedFile : string)
| RecordsMustBeArray
| NoRecords
| TooManyRecords
| RecordMustBeObject
| ProxiedMustBeBoolean
| ProxiedOnlyForAddress
| MustBeOnSubdomain (type : string)
| InvalidRecordKey (key : string)
| UnsupportedRecordType (type : value)
| NameMustBeString
| WildcardNotAllowed
| OutsideSubdomain
| RequiresString (type field : string)
| InvalidIPv4
| InvalidIPv6
| RequiresNonNegative (type field : string)
| RequiresPositive (type field : string)
| RequiresNumeric (type field : string)
| DsWithoutNs
| UnreachableType (type : string).

(** Exit of the checks of one file: [Ok], [fail(msg)], or an uncaught
    [TypeError]. *)
Inductive outcome (A : Type) : Type :=
| Ok (a : A)
| Fail (why : reason)
| Throws.
Arguments Ok {A} a.
Arguments Fail {A} why.
Arguments Throws {A}.

#[global] Instance outcome_ret : MRet outcome := fun A a => Ok a.
#[global] Instance outcome_bind : MBind outcome := fun A B k m =>
  match m with
  | Ok a => k a
  | Fail why => Fail why
  | Throws => Throws
  end.

(** [if (c) fail(why)] *)
Definition fail_if (c : bool) (why : reason) : outcome unit :=
  if c then Fail why else Ok tt.

(** [for (const x of l) body(x)] *)
Fixpoint for_each {A : Type} (l : list A) (body : A -> outcome unit) : outcome unit :=
  match l with
  | [] => Ok tt
  | x :: rest => body x ;; for_each rest body
  end.

(** *** Property access on arbitrary parsed values *)

Fixpoint index_keys (from n : nat) : list string :=
  match n with
  | O => []
  | S n' => of_nat from :: index_keys (S from) n'
  end.

(** [Object.keys(v)]; [None] is the [TypeError] on [null]. *)
Definition own_keys (v : value) : option (list string) :=
  match v with
  | VUndefined | VNull => None
  | VBool _ | VNum _ => Some []
  | VStr s => Some (index_keys 0 (String.length s))
  | VArr l => Some (index_keys 0 (length l))
  | VObj o => Some (keys o)
  end.

(** [k in v] for a property name [k] that is neither an index nor
    inherited; [None] is the [TypeError] on a primitive. *)
Definition has_key (v : value) (k : string) : option bool :=
  match v with
  | VObj o => Some (has o k)
  | VArr _ => Some false
  | _ => None
  end.

(** [v[k]] on a value already known to be an object or an array. *)
Definition prop (v : value) (k : string) : value :=
  match v with
  | VObj o => get o k
  | _ => VUndefined
  end.

Definition is_string (v : value) : bool :=
  match v with VStr _ => true | _ => false end.
Definition is_number (v : value) : bool :=
  match v with VNum _ => true | _ => false end.
Definition is_boolean (v : value) : bool :=
  match v with VBool _ => true | _ => false end.
(** [typeof v !== "object" || v === null] *)
Definition not_object (v : value) : bool :=
  match v with VObj _ | VArr _ => false | _ => true end.

(** [typeof v !== "number" || v < 0] and [typeof v !== "number" || v <= 0] *)
Definition not_number_or_negative (v : value) : bool :=
  match v with VNum n => (n <? 0)%Z | _ => true end.
Definition not_number_or_nonpositive (v : value) : bool :=
  match v with VNum n => (n <=? 0)%Z | _ => true end.

End Validator.

Module ValidatorRun.
Import JsString Js Regex Validator.

Definition keys_of (v : value) : outcome (list string) :=
  match own_keys v with Some ks => Ok ks | None => Throws end.

Definition in_ (k : string) (v : value) : outcome bool :=
  match has_key v k with Some b => Ok b | None => Throws end.

(** [hasNS] and [hasDS], threaded through the record loop. *)
Record flags : Type := { hasNS : bool; hasDS : bool }.

(** The arm of the [if]/[else if] chain a normalised type selects. *)
Inductive branch : Type :=
| BrA | BrAAAA | BrCNAME | BrTXT | BrURL | BrMX | BrSRV | BrCAA
| BrNS | BrDS | BrTLSA | BrFallback.

Definition type_branch (type : string) : branch :=
  if String.eqb type "A" then BrA
  else if String.eqb type "AAAA" then BrAAAA
  else if String.eqb type "CNAME" then BrCNAME
  else if String.eqb type "TXT" then BrTXT
  else if String.eqb type "URL" then BrURL
  else if String.eqb type "MX" then BrMX
  else if String.eqb type "SRV" then BrSRV
  else if String.eqb type "CAA" then BrCAA
  else if String.eqb type "NS" then BrNS
  else if String.eqb type "DS" then BrDS
  else if String.eqb type "TLSA" then BrTLSA
  else BrFallback.

(** The body of each arm. *)
Definition check_branch (b : branch) (type : string) (r : value) (st : flags)
  : outcome flags :=
  match b with
  | BrA =>
      fail_if (negb (is_string (prop r "value"))) (RequiresString "A" "value");;
      fail_if (negb (test IPV4_REGEX (String_ (prop r "value")))) InvalidIPv4;;
      Ok st
  | BrAAAA =>
      fail_if (negb (is_string (prop r "value"))) (RequiresString "AAAA" "value");;
      fail_if (negb (test IPV6_REGEX (String_ (prop r "value")))) InvalidIPv6;;
      Ok st
  | BrCNAME =>
      fail_if (negb (is_string (prop r "value"))) (RequiresString "CNAME" "value");;
      Ok st
  | BrTXT =>
      fail_if (negb (is_string (prop r "value"))) (RequiresString "TXT" "value");;
      Ok st
  | BrURL =>
      fail_if (negb (is_string (prop r "value"))) (RequiresString "URL" "value");;
      Ok st
  | BrMX =>
      fail_if (negb (is_string (prop r "target"))) (RequiresString "MX" "target");;
      fail_if (not_number_or_negative (prop r "priority"))
        (RequiresNonNegative "MX" "priority");;
      Ok st
  | BrSRV =>
      fail_if (not_number_or_negative (prop r "priority"))
        (RequiresNonNegative "SRV" "priority");;
      fail_if (not_number_or_negative (prop r "weight"))
        (RequiresNonNegative "SRV" "weight");;
      fail_if (not_number_or_nonpositive (prop r "port"))
        (RequiresPositive "SRV" "port");;
      fail_if (negb (is_string (prop r "target"))) (RequiresString "SRV" "target");;
      Ok st
  | BrCAA =>
      fail_if (negb (is_number (prop r "flags"))) (RequiresNumeric "CAA" "flags");;
      fail_if (negb (is_string (prop r "tag"))) (RequiresString "CAA" "tag");;
      fail_if (negb (is_string (prop r "value"))) (RequiresString "CAA" "value");;
      Ok st
  | BrNS =>
      fail_if (negb (is_string (prop r "value"))) (RequiresString "NS" "value");;
      Ok {| hasNS := true; hasDS := hasDS st |}
  | BrDS =>
      fail_if (negb (is_number (prop r "key_tag"))) (RequiresNumeric "DS" "key_tag");;
      fail_if (negb (is_number (prop r "algorithm")))
        (RequiresNumeric "DS" "algorithm");;
      fail_if (negb (is_number (prop r "digest_type")))
        (RequiresNumeric "DS" "digest_type");;
      fail_if (negb (is_string (prop r "digest"))) (RequiresString "DS" "digest");;
      Ok {| hasNS := hasNS st; hasDS := true |}
  | BrTLSA =>
      fail_if (negb (is_number (prop r "usage"))) (RequiresNumeric "TLSA" "usage");;
      fail_if (negb (is_number (prop r "selector")))
        (RequiresNumeric "TLSA" "selector");;
      fail_if (negb (is_number (prop r "matching_type")))
        (RequiresNumeric "TLSA" "matching_type");;
      fail_if (negb (is_string (prop r "certificate")))
        (RequiresString "TLSA" "certificate");;
      Ok st
  | BrFallback => Fail (UnreachableType type)
  end.

(** [String(r.type).toUpperCase()] *)
Definition normalized_type (r : value) : string :=
  toUpperCase (String_ (prop r "type")).

(** The "Verify proxy" block. *)
Definition check_proxied (type : string) (r : value) : outcome unit :=
  has_proxied ← in_ "proxied" r;
  if has_proxied : bool then
    fail_if (negb (is_boolean (prop r "proxied"))) ProxiedMustBeBoolean;;
    fail_if (negb (str_includes ["A"; "AAAA"; "CNAME"] type)) ProxiedOnlyForAddress
  else Ok tt.

(** The "NS and DS specific checks" block. *)
Definition check_ns_ds_name (subdomain type : string) (r : value) : outcome unit :=
  if String.eqb type "NS" || String.eqb type "DS" then
    fail_if (negb (strict_eq (prop r "name") (VStr subdomain))) (MustBeOnSubdomain type)
  else Ok tt.

(** The "validate record keys" loop. *)
Definition check_record_keys (r : value) : outcome unit :=
  ks ← keys_of r;
  for_each ks (fun key =>
    fail_if (negb (str_includes ALLOWED_RECORD_KEYS key)) (InvalidRecordKey key)).

(** The body of [for (const r of data.records)]. *)
Definition validate_record (subdomain : string) (r : value) (st : flags)
  : outcome flags :=
  fail_if (not_object r) RecordMustBeObject;;
  let type := normalized_type r in
  check_proxied type r;;
  check_ns_ds_name subdomain type r;;
  check_record_keys r;;
  fail_if (negb (str_includes ALLOWED_TYPES type)) (UnsupportedRecordType (prop r "type"));;
  match prop r "name" with
  | VStr name =>
      fail_if (includes name "*") WildcardNotAllowed;;
      fail_if (negb (String.eqb name subdomain)
               && negb (endsWith name ("." +:+ subdomain))) OutsideSubdomain;;
      check_branch (type_branch type) type r st
  | _ => Fail NameMustBeString
  end.

Fixpoint validate_records (subdomain : string) (records : list value) (st : flags)
  : outcome flags :=
  match records with
  | [] => Ok st
  | r :: rest =>
      st' ← validate_record subdomain r st;
      validate_records subdomain rest st'
  end.

(** The body of [for (const file of files)]; a file that no longer exists
    is skipped. *)
Definition validate_file (reserved : list value) (file : string)
  (content : file_content) : outcome unit :=
  match content with
  | Missing => Ok tt
  | Unparsable => Fail InvalidJSON
  | Parsed data =>
      ks ← keys_of data;
      for_each ks (fun key =>
        fail_if (negb (str_includes ALLOWED_TOP_KEYS key)) (ExtraTopLevelKey key));;
      for_each REQUIRED_TOP_KEYS (fun key =>
        present ← in_ key data;
        fail_if (negb present) (MissingRequiredKey key));;
      let user := prop data "user" in
      fail_if (not_object user) UserMustBeObject;;
      for_each REQUIRED_USER_KEYS (fun key =>
        fail_if (negb (truthy (prop user key))) (UserKeyRequired key));;
      fail_if (negb (test SUBDOMAIN_REGEX (String_ (prop data "subdomain"))))
        InvalidSubdomainFormat;;
      match prop data "subdomain" with
      | VStr subdomain =>
          fail_if (reserved_includes reserved (toLowerCase subdomain))
            (ReservedSubdomain subdomain);;
          let expectedFile := "domains/" +:+ subdomain +:+ ".json" in
          fail_if (negb (String.eqb file expectedFile)) (FilenameMismatch expectedFile);;
          match prop data "records" with
          | VArr records =>
              fail_if (length records =? 0)%nat NoRecords;;
              fail_if (negb (MAX_RECORDS =? 0)%nat && (MAX_RECORDS <? length records)%nat)
                TooManyRecords;;
              st ← validate_records subdomain records {| hasNS := false; hasDS := false |};
              fail_if (hasDS st && negb (hasNS st)) DsWithoutNs
          | _ => Fail RecordsMustBeArray
          end
      | _ => Throws
      end
  end.

Definition newline : ascii := ascii_of_nat 10.

(** [files]: the lines of [changes.txt] the validator keeps. *)
Definition files (changes_txt : string) : list string :=
  List.filter (fun f => startsWith f "domains/" && endsWith f ".json")
    (split newline changes_txt).

(** The whole script: the reserved list as loaded, then every kept file
    in order; the first failure ends the run. *)
Definition validate_all (reserved : list value) (fs : string -> file_content)
  (changes_txt : string) : outcome unit :=
  for_each (files changes_txt) (fun file => validate_file reserved file (fs file)).

Definition main (reserved_src : file_content) (fs : string -> file_content)
  (changes_txt : string) : bool * outcome unit :=
  let loaded := load_reserved reserved_src in
  (warned loaded, validate_all (RESERVED_SUBDOMAINS loaded) fs changes_txt).

End ValidatorRun.

(** ** [JSON.stringify] *)
Module Json.
Import JsString.

Definition quote_char : ascii := ascii_of_nat 34.
Definition dq : string := String quote_char EmptyString.
Definition backslash : string := String (ascii_of_nat 92) EmptyString.

Definition hex_digit (n : nat) : ascii :=
  if (n <? 10)%nat then ascii_of_nat (48 + n) else ascii_of_nat (87 + n).

Definition escape_char (a : ascii) : string :=
  let n := nat_of_ascii a in
  if (n =? 34)%nat then backslash +:+ dq
  else if (n =? 92)%nat then backslash +:+ backslash
  else if (n =? 8)%nat then backslash +:+ "b"
  else if (n =? 9)%nat then backslash +:+ "t"
  else if (n =? 10)%nat then backslash +:+ "n"
  else if (n =? 12)%nat then backslash +:+ "f"
  else if (n =? 13)%nat then backslash +:+ "r"
  else if (n <? 32)%nat then
    backslash +:+ "u00" +:+ String (hex_digit (n / 16)) (String (hex_digit (n mod 16)) EmptyString)
  else String a EmptyString.

Fixpoint escape (s : string) : string :=
  match s with
  | EmptyString => EmptyString
  | String a s' => escape_char a +:+ escape s'
  end.

Definition quote (s : string) : string := dq +:+ escape s +:+ dq.

(** [JSON.stringify(v)]; [None] is the result [undefined]. *)
Fixpoint stringify (v : value) : option string :=
  match v with
  | VUndefined => None
  | VNull => Some "null"
  | VBool true => Some "true"
  | VBool false => Some "false"
  | VNum n => Some (of_Z n)
  | VStr s => Some (quote s)
  | VArr l =>
      Some ("[" +:+ join ","
              (map (fun e => match stringify e with
                             | Some s => s
                             | None => "null"
                             end) l) +:+ "]")
  | VObj o =>
      Some ("{" +:+ join ","
              (flat_map (fun kv => match stringify (snd kv) with
                                   | Some s => [quote (fst kv) +:+ ":" +:+ s]
                                   | None => []
                                   end) o) +:+ "}")
  end.

Definition option_string_eqb (a b : option string) : bool :=
  match a, b with
  | None, None => true
  | Some x, Some y => String.eqb x y
  | _, _ => false
  end.

End Json.

(** ** The remote API

    The provider is not part of the repository: this module is the
    environment [cf] talks to. The zone's DNS records and rulesets are an
    in-memory state; every call is logged before it is served; a call the
    API rejects ([success: false]) makes [cf] throw. The API is taken to
    store a record as it was sent, to reject a body without a string
    [type] and [name], and to reject an id it does not know. *)
Module Remote.
Import JsString Js.

(** A DNS record as the API returns it: [{id, type, name, ...}]. The
    provider's opaque ids are modelled as numbers. *)
Record RemoteRecord : Type := {
  rec_id : nat;
  rec_type : string;
  rec_name : string;
  rec_fields : obj
}.

(** [existing[key]] *)
Definition rec_get (e : RemoteRecord) (key : string) : value :=
  if String.eqb key "id" then VNum (Z.of_nat (rec_id e))
  else if String.eqb key "type" then VStr (rec_type e)
  else if String.eqb key "name" then VStr (rec_name e)
  else get (rec_fields e) key.

(** A redirect rule: its [expression] and its remaining properties. *)
Record Rule : Type := {
  expression : string;
  rule_fields : obj
}.

(** A ruleset; [rules] may be absent from the API's answer. *)
Record Ruleset : Type := {
  rs_id : nat;
  phase : string;
  kind : string;
  rules : option (list Rule)
}.

Record zone : Type := {
  zone_records : list RemoteRecord;
  zone_rulesets : list Ruleset
}.

Inductive call : Type :=
| ListRecords (page : nat)
| UpdateRecord (id : nat) (payload : obj)
| CreateRecord (payload : obj)
| DeleteRecord (id : nat)
| ListRulesets
| CreateRuleset
| GetRuleset (id : nat)
| PutRuleset (id : nat) (rules : list Rule).

Record world : Type := { remote : zone; trace : list call }.

(** A script run ends normally, by an exception, or (for the model of
    the pagination loop only) out of fuel. *)
Inductive result (A : Type) : Type :=
| Done (a : A) (w : world)
| Thrown (w : world)
| Stuck (w : world).
Arguments Done {A} a w.
Arguments Thrown {A} w.
Arguments Stuck {A} w.

Definition M (A : Type) : Type := world -> result A.

#[global] Instance M_ret : MRet M := fun A a w => Done a w.
#[global] Instance M_bind : MBind M := fun A B k m w =>
  match m w with
  | Done a w' => k a w'
  | Thrown w' => Thrown w'
  | Stuck w' => Stuck w'
  end.

Definition throw {A : Type} : M A := fun w => Thrown w.
Definition stuck {A : Type} : M A := fun w => Stuck w.
Definition log (c : call) : M unit :=
  fun w => Done tt {| remote := remote w; trace := trace w ++ [c] |}.
Definition get_zone : M zone := fun w => Done (remote w) w.
Definition put_zone (z : zone) : M unit :=
  fun w => Done tt {| remote := z; trace := trace w |}.

Definition final_world {A : Type} (r : result A) : world :=
  match r with Done _ w | Thrown w | Stuck w => w end.

Definition has_id (id : nat) (e : RemoteRecord) : bool := (rec_id e =? id)%nat.
Definition is_ruleset (id : nat) (s : Ruleset) : bool := (rs_id s =? id)%nat.

(** An id the provider has not handed out in this zone. *)
Definition fresh_record_id (z : zone) : nat :=
  S (list_max (map rec_id (zone_records z))).
Definition fresh_ruleset_id (z : zone) : nat :=
  S (list_max (map rs_id (zone_rulesets z))).

(** The record the API stores for a request body: properties whose value
    is [undefined] are not serialised. *)
Definition record_of_payload (id : nat) (payload : obj) : option RemoteRecord :=
  match get payload "type", get payload "name" with
  | VStr t, VStr n =>
      Some {| rec_id := id; rec_type := t; rec_name := n;
              rec_fields :=
                List.filter (fun kv =>
                  negb (String.eqb (fst kv) "type") && negb (String.eqb (fst kv) "name")
                  && match snd kv with VUndefined => false | _ => true end) payload |}
  | _, _ => None
  end.

Definition PAGE_SIZE : nat := 500.

(** [GET /zones/:zone/dns_records?per_page=500&page=:page] *)
Definition cf_list_records (page : nat) : M (list RemoteRecord) :=
  log (ListRecords page);;
  z ← get_zone;
  mret (take PAGE_SIZE (drop (PAGE_SIZE * (page - 1)) (zone_records z))).

(** [PUT /zones/:zone/dns_records/:id] *)
Definition cf_update_record (id : nat) (payload : obj) : M unit :=
  log (UpdateRecord id payload);;
  z ← get_zone;
  match record_of_payload id payload with
  | Some e' =>
      if existsb (has_id id) (zone_records z) then
        put_zone {| zone_records :=
                      map (fun e => if has_id id e then e' else e) (zone_records z);
                    zone_rulesets := zone_rulesets z |}
      else throw
  | None => throw
  end.

(** [POST /zones/:zone/dns_records] *)
Definition cf_create_record (payload : obj) : M unit :=
  log (CreateRecord payload);;
  z ← get_zone;
  match record_of_payload (fresh_record_id z) payload with
  | Some e' =>
      put_zone {| zone_records := zone_records z ++ [e'];
                  zone_rulesets := zone_rulesets z |}
  | None => throw
  end.

(** [DELETE /zones/:zone/dns_records/:id] *)
Definition cf_delete_record (id : nat) : M unit :=
  log (DeleteRecord id);;
  z ← get_zone;
  if existsb (has_id id) (zone_records z) then
    put_zone {| zone_records := List.filter (fun e => negb (has_id id e)) (zone_records z);
                zone_rulesets := zone_rulesets z |}
  else throw.

(** [GET /zones/:zone/rulesets] *)
Definition cf_list_rulesets : M (list Ruleset) :=
  log ListRulesets;;
  z ← get_zone;
  mret (zone_rulesets z).

(** [POST /zones/:zone/rulesets] with the body the script sends. *)
Definition cf_create_ruleset : M Ruleset :=
  log CreateRuleset;;
  z ← get_zone;
  let rs := {| rs_id := fresh_ruleset_id z;
               phase := "http_request_dynamic_redirect";
               kind := "zone";
               rules := Some [] |} in
  put_zone {| zone_records := zone_records z;
              zone_rulesets := zone_rulesets z ++ [rs] |};;
  mret rs.

(** [GET /zones/:zone/rulesets/:id] *)
Definition cf_get_ruleset (id : nat) : M Ruleset :=
  log (GetRuleset id);;
  z ← get_zone;
  match List.find (is_ruleset id) (zone_rulesets z) with
  | Some rs => mret rs
  | None => throw
  end.

(** [PUT /zones/:zone/rulesets/:id] with body [{rules}] *)
Definition cf_put_ruleset (id : nat) (new_rules : list Rule) : M unit :=
  log (PutRuleset id new_rules);;
  z ← get_zone;
  if existsb (is_ruleset id) (zone_rulesets z) then
    put_zone {| zone_records := zone_records z;
                zone_rulesets :=
                  map (fun s => if is_ruleset id s
                                then {| rs_id := rs_id s; phase := phase s;
                                        kind := kind s; rules := Some new_rules |}
                                else s) (zone_rulesets z) |}
  else throw.

End Remote.

(** ** [scripts/sync-dns.js] *)
Module Sync.
Import JsString Js Json Remote.

(** A definition file that passed validation: a string [subdomain] and
    an array of record objects. *)
Record definition : Type := {
  subdomain : string;
  records : list obj
}.

(** [[...].includes(type)] for an array of strings. *)
Definition includes_value (l : list string) (v : value) : bool :=
  match v with VStr s => str_includes l s | _ => false end.

(** [a ?? b] *)
Definition nullish (a b : value) : value :=
  match a with VUndefined | VNull => b | _ => a end.

(** [parts[i]] *)
Definition at_index (parts : list string) (i : nat) : value :=
  match parts !! i with Some s => VStr s | None => VUndefined end.

(** [buildPayload(r)]; [None] is the [TypeError] of [r.name.split] on a
    name that is not a string. *)
Definition buildPayload (r : obj) : option obj :=
  let type := get r "type" in
  if strict_eq type (VStr "URL") then
    Some [("type", VStr "AAAA"); ("name", get r "name"); ("content", VStr "100::");
          ("ttl", VNum 1); ("proxied", VBool true)]
  else
    let payload := [("type", type); ("name", get r "name"); ("ttl", VNum 1)] in
    let payload :=
      if includes_value ["A"; "AAAA"; "CNAME"] type
      then set payload "proxied" (nullish (get r "proxied") (VBool false))
      else payload in
    let payload :=
      if includes_value ["A"; "AAAA"; "CNAME"; "TXT"; "URL"; "NS"] type
      then set payload "content" (get r "value")
      else payload in
    let payload :=
      if strict_eq type (VStr "MX")
      then set (set payload "content" (get r "target")) "priority" (get r "priority")
      else payload in
    payload ←
      (if strict_eq type (VStr "SRV") then
         match get r "name" with
         | VStr name =>
             let parts := split "." name in
             Some (set payload "data"
                     (VObj [("service", at_index parts 0);
                            ("proto", at_index parts 1);
                            ("name", VStr (join "." (drop 2 parts)));
                            ("priority", get r "priority");
                            ("weight", get r "weight");
                            ("port", get r "port");
                            ("target", get r "target")]))
         | _ => None
         end
       else Some payload);
    let payload :=
      if strict_eq type (VStr "CAA")
      then set payload "data"
             (VObj [("flags", get r "flags"); ("tag", get r "tag");
                    ("value", get r "value")])
      else payload in
    let payload :=
      if strict_eq type (VStr "DS")
      then set payload "data"
             (VObj [("key_tag", get r "key_tag"); ("algorithm", get r "algorithm");
                    ("digest_type", get r "digest_type"); ("digest", get r "digest")])
      else payload in
    let payload :=
      if strict_eq type (VStr "TLSA")
      then set payload "data"
             (VObj [("usage", get r "usage"); ("selector", get r "selector");
                    ("matching_type", get r "matching_type");
                    ("certificate", get r "certificate")])
      else payload in
    Some payload.

(** [sameRecord(existing, payload)] *)
Definition sameRecord (existing : RemoteRecord) (payload : obj) : bool :=
  forallb (fun key =>
    if String.eqb key "data"
    then option_string_eqb (stringify (rec_get existing "data"))
           (stringify (get payload "data"))
    else strict_eq (rec_get existing key) (get payload key))
    (keys payload).

(** [recordsForSubdomain(sub, all, domain)] *)
Definition recordsForSubdomain (sub : string) (all : list RemoteRecord)
  (domain : string) : list RemoteRecord :=
  let suffix := sub +:+ "." +:+ domain in
  List.filter (fun r => String.eqb (rec_name r) suffix
                        || endsWith (rec_name r) ("." +:+ suffix)) all.

(** The [while (true)] loop of [listAllRecords], with the loop counter
    [page] and the accumulator [records]. *)
Fixpoint listAllRecords_loop (fuel page : nat) (records : list RemoteRecord)
  : M (list RemoteRecord) :=
  match fuel with
  | O => stuck
  | S fuel' =>
      batch ← cf_list_records page;
      let records := records ++ batch in
      if (length batch <? PAGE_SIZE)%nat then mret records
      else listAllRecords_loop fuel' (S page) records
  end.

(** [listAllRecords()]: one more page than the zone has full ones. *)
Definition listAllRecords : M (list RemoteRecord) :=
  z ← get_zone;
  listAllRecords_loop (S (length (zone_records z) / PAGE_SIZE)) 1 [].

Definition REDIRECT_PHASE : string := "http_request_dynamic_redirect".

(** The ownership test of [syncRedirects]: the rule's expression
    contains the hostname between double quotes. *)
Definition owned_by (hostname : string) (r : Rule) : bool :=
  includes (expression r) (dq +:+ hostname +:+ dq).

(** The rule built for one URL record. *)
Definition new_rule (hostname : string) (r : obj) : Rule :=
  {| expression := "(http.host eq " +:+ dq +:+ hostname +:+ dq +:+ ")";
     rule_fields :=
       [("description", VStr ("Redirect: " +:+ hostname));
        ("action", VStr "redirect");
        ("action_parameters",
          VObj [("from_value",
                  VObj [("target_url", VObj [("value", get r "value")]);
                        ("status_code", VNum 301);
                        ("preserve_query_string", VBool true)])])] |}.

(** "Get or Create the Redirect Ruleset", then fetch its current rules:
    the handle [ruleset] and [currentRules]. *)
Definition fetch_current_rules : M (Ruleset * list Rule) :=
  sets ← cf_list_rulesets;
  ruleset ←
    match List.find (fun s => String.eqb (phase s) REDIRECT_PHASE
                              && String.eqb (kind s) "zone") sets with
    | Some s => mret s
    | None => cf_create_ruleset
    end;
  fetched ← cf_get_ruleset (rs_id ruleset);
  mret (ruleset, match rules fetched with Some l => l | None => [] end).

(** [syncRedirects(sub, urlRecords, domain)] *)
Definition syncRedirects (sub : string) (urlRecords : list obj) (domain : string)
  : M unit :=
  let hostname := sub +:+ "." +:+ domain in
  '(ruleset, currentRules) ← fetch_current_rules;
  let otherRules := List.filter (fun r => negb (owned_by hostname r)) currentRules in
  let newRules := map (new_rule hostname) urlRecords in
  if negb (length otherRules + length newRules =? length currentRules)%nat
     || (0 <? length newRules)%nat
  then cf_put_ruleset (rs_id ruleset) (otherRules ++ newRules)
  else mret tt.

(** [e.type === payload.type && e.name === payload.name] *)
Definition same_key (payload : obj) (e : RemoteRecord) : bool :=
  strict_eq (VStr (rec_type e)) (get payload "type")
  && strict_eq (VStr (rec_name e)) (get payload "name").

(** [existing.find(e => e.type === payload.type && e.name === payload.name)] *)
Definition find_match (existing : list RemoteRecord) (payload : obj)
  : option RemoteRecord :=
  List.find (same_key payload) existing.

(** The loop [for (const r of data.records)] of [applyFile]; [keep] is
    the set of matched ids. *)
Fixpoint sync_records (existing : list RemoteRecord) (rs : list obj)
  (keep : gset nat) : M (gset nat) :=
  match rs with
  | [] => mret keep
  | r :: rest =>
      match buildPayload r with
      | None => throw
      | Some payload =>
          match find_match existing payload with
          | Some m =>
              let keep := {[rec_id m]} ∪ keep in
              (if negb (sameRecord m payload)
               then cf_update_record (rec_id m) payload
               else mret tt);;
              sync_records existing rest keep
          | None =>
              cf_create_record payload;;
              sync_records existing rest keep
          end
      end
  end.

(** The "Cleanup" loop of [applyFile]. *)
Fixpoint cleanup (existing : list RemoteRecord) (keep : gset nat) : M unit :=
  match existing with
  | [] => mret tt
  | r :: rest =>
      (if bool_decide (rec_id r ∈ keep) then mret tt
       else cf_delete_record (rec_id r));;
      cleanup rest keep
  end.

Definition is_url (r : obj) : bool := strict_eq (get r "type") (VStr "URL").

(** [applyFile(file, domain)] on the parsed content [data] of [file]. *)
Definition applyData (data : definition) (domain : string) : M unit :=
  let sub := subdomain data in
  all ← listAllRecords;
  let existing := recordsForSubdomain sub all domain in
  keep ← sync_records existing (records data) ∅;
  let urlRecords := List.filter is_url (records data) in
  (if (0 <? length urlRecords)%nat
   then syncRedirects sub urlRecords domain
   else mret tt);;
  cleanup existing keep.

(** [applyFile(file, domain)]; reading or parsing a missing file throws. *)
Definition applyFile (fs : string -> option definition) (file domain : string)
  : M unit :=
  match fs file with
  | Some data => applyData data domain
  | None => throw
  end.

(** *** The main loop *)

(** The 7-bit characters [\s] matches. *)
Definition is_space (a : ascii) : bool :=
  let n := nat_of_ascii a in
  (n =? 32)%nat || ((9 <=? n)%nat && (n <=? 13)%nat).

(** [line.split(/\s+/)]; [in_sep] tells that the previous character was
    part of a separator. *)
Fixpoint split_ws_from (in_sep : bool) (s : string) : list string :=
  match s with
  | EmptyString => [EmptyString]
  | String a s' =>
      if is_space a then
        if in_sep then split_ws_from true s'
        else EmptyString :: split_ws_from true s'
      else match split_ws_from false s' with
           | h :: t => String a h :: t
           | [] => [String a EmptyString]
           end
  end.

Definition split_ws (s : string) : list string := split_ws_from false s.

Record change : Type := { status : string; file : string }.

Definition newline : ascii := ascii_of_nat 10.

Definition nonempty (s : string) : bool := negb (String.eqb s EmptyString).

(** One line of [changes.txt]; [None] when the line has no second field,
    on which [c.file.startsWith] throws. *)
Definition parse_line (line : string) : option change :=
  match split_ws line with
  | st :: f :: _ => Some {| status := st; file := f |}
  | _ => None
  end.

Fixpoint parse_lines (lines : list string) : option (list change) :=
  match lines with
  | [] => Some []
  | line :: rest =>
      c ← parse_line line;
      cs ← parse_lines rest;
      Some (c :: cs)
  end.

(** [changes] *)
Definition changes (changes_txt : string) : option (list change) :=
  cs ← parse_lines (List.filter nonempty (split newline changes_txt));
  Some (List.filter (fun c => startsWith (file c) "domains/"
                              && endsWith (file c) ".json") cs).

Fixpoint delete_all (rs : list RemoteRecord) : M unit :=
  match rs with
  | [] => mret tt
  | r :: rest => cf_delete_record (rec_id r);; delete_all rest
  end.

(** The body of [for (const c of changes)]. *)
Definition process_change (fs : string -> option definition) (domain : string)
  (c : change) : M unit :=
  let sub := replace (replace (file c) "domains/" "") ".json" "" in
  if String.eqb (status c) "D" then
    all ← listAllRecords;
    delete_all (recordsForSubdomain sub all domain);;
    syncRedirects sub [] domain
  else applyFile fs (file c) domain.

Fixpoint process_changes (fs : string -> option definition) (domain : string)
  (cs : list change) : M unit :=
  match cs with
  | [] => mret tt
  | c :: rest => process_change fs domain c;; process_changes fs domain rest
  end.

Definition main (fs : string -> option definition) (changes_txt domain : string)
  : M unit :=
  match changes changes_txt with
  | Some cs => process_changes fs domain cs
  | None => throw
  end.

(** *** Reading a trace *)

Definition is_dns_write (c : call) : bool :=
  match c with
  | UpdateRecord _ _ | CreateRecord _ | DeleteRecord _ => true
  | _ => false
  end.

Definition is_ruleset_call (c : call) : bool :=
  match c with
  | ListRulesets | CreateRuleset | GetRuleset _ | PutRuleset _ _ => true
  | _ => false
  end.

Definition is_ruleset_write (c : call) : bool :=
  match c with
  | CreateRuleset | PutRuleset _ _ => true
  | _ => false
  end.

Definition is_write (c : call) : bool := is_dns_write c || is_ruleset_write c.

(** The calls one run adds to the trace, started on a fresh log. *)
Definition calls_of {A : Type} (m : M A) (z : zone) : list call :=
  trace (final_world (m {| remote := z; trace := [] |})).

End Sync.

(** ** Properties of verdicts, and sample records *)
Module ValidatorSpec.
Import JsString Js Regex Validator ValidatorRun.

(** [fails_with bad o]: the verdict [o] is a failure for a reason of
    the class [bad]. *)
Definition fails_with {A : Type} (bad : reason -> bool) (o : outcome A) : bool :=
  match o with
  | Fail why => bad why
  | _ => false
  end.

Definition is_unreachable (why : reason) : bool :=
  match why with UnreachableType _ => true | _ => false end.

(** [key] is not one of [ALLOWED_RECORD_KEYS]. *)
Definition unknown_key (key : string) : bool :=
  negb (str_includes ALLOWED_RECORD_KEYS key).

Definition sample_flags : flags := {| hasNS := false; hasDS := false |}.

(** Sample records: an unknown key next to, in turn, a non-boolean
    [proxied], a [proxied] on a TXT record, and an NS record on a child
    label. *)
Definition unknown_key_and_bad_proxied : value :=
  VObj [("type", VStr "A"); ("name", VStr "blog"); ("value", VStr "203.0.113.5");
        ("proxied", VStr "yes"); ("colour", VStr "red")].
Definition unknown_key_and_misplaced_proxied : value :=
  VObj [("type", VStr "TXT"); ("name", VStr "blog"); ("value", VStr "hello");
        ("proxied", VBool true); ("colour", VStr "red")].
Definition unknown_key_and_child_ns : value :=
  VObj [("type", VStr "NS"); ("name", VStr "a.blog"); ("value", VStr "ns1.example.net");
        ("colour", VStr "red")].

(** The first key of [r] outside [ALLOWED_RECORD_KEYS], if any. *)
Definition first_unknown_key (r : value) : option string :=
  ks ← own_keys r; List.find unknown_key ks.

(** ["proxied" in r] for an object or an array. *)
Definition has_proxied (r : value) : bool :=
  match r with VObj o => has o "proxied" | _ => false end.

(** The reason a record whose first unknown key is [key] is turned down
    for: that of the first check, in the order non-boolean [proxied],
    misplaced [proxied], NS or DS off the subdomain, that the record
    does not pass, and the unknown key when it passes the three. *)
Definition key_failure (subdomain : string) (r : value) (key : string) : reason :=
  let type := normalized_type r in
  if has_proxied r && negb (is_boolean (prop r "proxied")) then ProxiedMustBeBoolean
  else if has_proxied r && negb (str_includes ["A"; "AAAA"; "CNAME"] type)
  then ProxiedOnlyForAddress
  else if (String.eqb type "NS" || String.eqb type "DS")
          && negb (strict_eq (prop r "name") (VStr subdomain))
  then MustBeOnSubdomain type
  else InvalidRecordKey key.

End ValidatorSpec.

(** ** The reserved-name source: shapes and samples *)
Module ReservedSpec.
Import JsString Js Regex Validator ValidatorRun ValidatorSpec.

(** A reserved-name source with one category holding ["WWW"], and the
    same with the entry in lower case. *)
Definition reserved_upper : file_content :=
  Parsed (VObj [("web", VArr [VStr "WWW"])]).
Definition reserved_lower : file_content :=
  Parsed (VObj [("web", VArr [VStr "www"])]).

(** [{user: {username: "a"}, subdomain: "www", records: [A www 203.0.113.5]}] *)
Definition www_definition : value :=
  VObj [("user", VObj [("username", VStr "a")]);
        ("subdomain", VStr "www");
        ("records", VArr [VObj [("type", VStr "A"); ("name", VStr "www");
                                ("value", VStr "203.0.113.5")]])].

(** The shape the reserved-name source is meant to have: an object whose
    members are all arrays. *)
Definition is_category_mapping (v : value) : bool :=
  match v with
  | VObj o => forallb (fun kv => is_array (snd kv)) o
  | _ => false
  end.





End ReservedSpec.

(** ** The change feed *)
Module FeedSpec.
Import JsString Js.

(** The change feed as the specification describes it. *)
Inductive feed_status : Type := Added | Modified | Deleted.

Definition status_letter (st : feed_status) : string :=
  match st with Added => "A" | Modified => "M" | Deleted => "D" end.

(** ["<status> <path>"] *)
Definition feed_line (e : feed_status * string) : string :=
  status_letter (fst e) +:+ " " +:+ snd e.

(** The text of [changes.txt] for the given lines. *)
Definition render (lines : list string) : string :=
  join (String ValidatorRun.newline EmptyString) lines.

(** Under the definitions directory and with the [.json] extension. *)
Definition in_scope (path : string) : bool :=
  startsWith path "domains/" && endsWith path ".json".

Definition no_newline (s : string) : bool :=
  chars_in (fun a => negb (Ascii.eqb a ValidatorRun.newline)) s.

Definition no_space (s : string) : bool :=
  chars_in (fun a => negb (Sync.is_space a)) s.

(** The entry as [sync-dns.js] holds it. *)
Definition to_change (e : feed_status * string) : Sync.change :=
  {| Sync.status := status_letter (fst e); Sync.file := snd e |}.

End FeedSpec.

(** ** Properties of zones and traces, and sample zones *)
Module SyncSpec.
Import JsString Js Json Remote Sync.

(** The rule list a [GET] of ruleset [id] answers with, after [|| []]. *)
Definition stored_rules (id : nat) (z : zone) : list Rule :=
  match List.find (is_ruleset id) (zone_rulesets z) with
  | Some s => match rules s with Some l => l | None => [] end
  | None => []
  end.

(** The world after [cs] more calls have been logged. *)
Definition logged (w : world) (cs : list call) : world :=
  {| remote := remote w; trace := trace w ++ cs |}.

(** [s => s.phase === "http_request_dynamic_redirect" && s.kind === "zone"] *)
Definition is_redirect_ruleset (s : Ruleset) : bool :=
  String.eqb (phase s) REDIRECT_PHASE && String.eqb (kind s) "zone".

(** The ruleset [POST /rulesets] creates in zone [z]. *)
Definition created_ruleset (z : zone) : Ruleset :=
  {| rs_id := fresh_ruleset_id z; phase := REDIRECT_PHASE; kind := "zone";
     rules := Some [] |}.

Definition with_ruleset (z : zone) (rs : Ruleset) : zone :=
  {| zone_records := zone_records z; zone_rulesets := zone_rulesets z ++ [rs] |}.

(** Two remote records with the same [(type, name)]. *)
Definition key_eqb (a b : RemoteRecord) : bool :=
  String.eqb (rec_type a) (rec_type b) && String.eqb (rec_name a) (rec_name b).

Fixpoint unique_keys (l : list RemoteRecord) : bool :=
  match l with
  | [] => true
  | e :: rest => negb (existsb (key_eqb e) rest) && unique_keys rest
  end.

(** A scoped remote record carries the desired record [r]: same
    [(type, name)] as its payload and equal on the payload's keys. *)
Definition realised_by (existing : list RemoteRecord) (r : obj) : bool :=
  match buildPayload r with
  | Some payload => existsb (fun e => same_key payload e && sameRecord e payload) existing
  | None => false
  end.

(** The remote record [e] has the [(type, name)] of a desired record. *)
Definition wanted_by (rs : list obj) (e : RemoteRecord) : bool :=
  existsb (fun r => match buildPayload r with
                    | Some payload => same_key payload e
                    | None => false
                    end) rs.

(** The zone's records in the hostname's scope are, one for one, the
    desired records. *)
Definition dns_converged (data : definition) (domain : string) (z : zone) : bool :=
  let existing := recordsForSubdomain (subdomain data) (zone_records z) domain in
  forallb (realised_by existing) (records data)
  && forallb (wanted_by (records data)) existing
  && unique_keys existing.

(** The redirect ruleset's rules for the hostname are the rules of the
    desired URL records. *)
Definition redirects_converged (data : definition) (domain : string) (z : zone) : Prop :=
  let hostname := subdomain data +:+ "." +:+ domain in
  let urlRecords := List.filter is_url (records data) in
  match List.find is_redirect_ruleset (zone_rulesets z) with
  | Some s =>
      List.filter (owned_by hostname) (stored_rules (rs_id s) z)
      = map (new_rule hostname) urlRecords
  | None => urlRecords = []
  end.

Definition converged (data : definition) (domain : string) (z : zone) : Prop :=
  dns_converged data domain z = true /\ redirects_converged data domain z.

(** The file content of a definition, for a contributor [username]. *)
Definition definition_value (username : string) (data : definition) : value :=
  VObj [("user", VObj [("username", VStr username)]);
        ("subdomain", VStr (subdomain data));
        ("records", VArr (map VObj (records data)))].

(** The subdomain [dev] of [is-an-ai.dev] with one URL record, and a
    zone converged to it. *)
Definition dev_link : definition :=
  {| subdomain := "dev";
     records := [[("type", VStr "URL"); ("name", VStr "dev.is-an-ai.dev");
                  ("value", VStr "https://example.org/")]] |}.

Definition dev_link_zone : zone :=
  {| zone_records :=
       [{| rec_id := 7; rec_type := "AAAA"; rec_name := "dev.is-an-ai.dev";
           rec_fields := [("content", VStr "100::"); ("ttl", VNum 1);
                          ("proxied", VBool true)] |}];
     zone_rulesets :=
       [{| rs_id := 3; phase := REDIRECT_PHASE; kind := "zone";
           rules := Some [new_rule "dev.is-an-ai.dev"
                            [("type", VStr "URL"); ("name", VStr "dev.is-an-ai.dev");
                             ("value", VStr "https://example.org/")]] |}] |}.

(** The same subdomain with one A record, and a zone converged to it. *)
Definition dev_site : definition :=
  {| subdomain := "dev";
     records := [[("type", VStr "A"); ("name", VStr "dev.is-an-ai.dev");
                  ("value", VStr "203.0.113.5")]] |}.

Definition dev_site_zone : zone :=
  {| zone_records :=
       [{| rec_id := 4; rec_type := "A"; rec_name := "dev.is-an-ai.dev";
           rec_fields := [("content", VStr "203.0.113.5"); ("ttl", VNum 1);
                          ("proxied", VBool false)] |}];
     zone_rulesets := [] |}.

(** The first scenario of the specification: [blog] on [example.com],
    record name [blog], nothing in the zone yet. *)
Definition blog_definition : definition :=
  {| subdomain := "blog";
     records := [[("type", VStr "A"); ("name", VStr "blog");
                  ("value", VStr "203.0.113.5")]] |}.

Definition empty_zone : zone := {| zone_records := []; zone_rulesets := [] |}.

Definition blog_payload : obj :=
  [("type", VStr "A"); ("name", VStr "blog"); ("ttl", VNum 1);
   ("proxied", VBool false); ("content", VStr "203.0.113.5")].

Definition blog_files (file : string) : option definition :=
  if String.eqb file "domains/blog.json" then Some blog_definition else None.

(** The zone after the first run of that scenario, with the record
    under the name the create call gave it, and the same zone when the
    provider stores the record under its full name. *)
Definition blog_zone : zone :=
  {| zone_records :=
       [{| rec_id := 1; rec_type := "A"; rec_name := "blog";
           rec_fields := [("ttl", VNum 1); ("proxied", VBool false);
                          ("content", VStr "203.0.113.5")] |}];
     zone_rulesets := [] |}.

Definition blog_zone_full_name : zone :=
  {| zone_records :=
       [{| rec_id := 1; rec_type := "A"; rec_name := "blog.example.com";
           rec_fields := [("ttl", VNum 1); ("proxied", VBool false);
                          ("content", VStr "203.0.113.5")] |}];
     zone_rulesets := [] |}.

(** The URL scenario of the specification: [go] on [example.com]. *)
Definition go_definition : definition :=
  {| subdomain := "go";
     records := [[("type", VStr "URL"); ("name", VStr "go");
                  ("value", VStr "https://example.org/")]] |}.

(** A zone that holds, in the scope of [go.example.com], one record the
    definition no longer has, and an empty redirect ruleset. *)
Definition stale_zone : zone :=
  {| zone_records :=
       [{| rec_id := 9; rec_type := "TXT"; rec_name := "go.example.com";
           rec_fields := [("content", VStr "stale"); ("ttl", VNum 1)] |}];
     zone_rulesets :=
       [{| rs_id := 3; phase := REDIRECT_PHASE; kind := "zone"; rules := Some [] |}] |}.

Definition go_files (file : string) : option definition :=
  if String.eqb file "domains/go.json" then Some go_definition else None.

(** An address record whose type is written in lower case, and the same
    record with the type in upper case. *)
Definition lowercase_record : obj :=
  [("type", VStr "a"); ("name", VStr "blog"); ("value", VStr "203.0.113.5");
   ("proxied", VBool true)].
Definition uppercase_record : obj :=
  [("type", VStr "A"); ("name", VStr "blog"); ("value", VStr "203.0.113.5");
   ("proxied", VBool true)].

Definition is_list (c : call) : bool :=
  match c with ListRecords _ => true | _ => false end.
Definition is_upsert (c : call) : bool :=
  match c with UpdateRecord _ _ | CreateRecord _ => true | _ => false end.
Definition is_delete (c : call) : bool :=
  match c with DeleteRecord _ => true | _ => false end.

(** However [m] ends, the calls it adds to the trace all satisfy [P]. *)
Definition emits {A : Type} (P : call -> bool) (m : M A) : Prop :=
  forall w, exists cs,
    trace (final_world (m w)) = trace w ++ cs /\ forallb P cs = true.

End SyncSpec.

(** ** Reading addresses, verdicts and payloads *)
Module ExtraSpec.
Import JsString Js Regex Json Validator ValidatorRun Remote Sync SyncSpec.

(** The number a string of decimal digits denotes. *)
Definition digit_value (a : ascii) : nat := nat_of_ascii a - 48.

Fixpoint decimal_from (acc : nat) (s : string) : nat :=
  match s with
  | EmptyString => acc
  | String a s' => decimal_from (10 * acc + digit_value a) s'
  end.

Definition decimal (s : string) : nat := decimal_from 0 s.

Definition is_digit (a : ascii) : bool := in_range "0" "9" a.

(** One part of a dotted quad: one to three digits, at most 255, and no
    leading zero on a three-digit part. *)
Definition octet_ok (o : string) : bool :=
  chars_in is_digit o
  && (1 <=? String.length o)%nat && (String.length o <=? 3)%nat
  && (decimal o <=? 255)%nat
  && match o with
     | String a (String _ (String _ EmptyString)) => negb (Ascii.eqb a "0")
     | _ => true
     end.

(** One group of an IPv6 address: one to four hexadecimal digits. *)
Definition is_hex (a : ascii) : bool :=
  in_range "0" "9" a || in_range "a" "f" a || in_range "A" "F" a.

Definition group_ok (g : string) : bool :=
  chars_in is_hex g && (1 <=? String.length g)%nat && (String.length g <=? 4)%nat.

(** Groups written one after the other, each followed by a colon. *)
Fixpoint groups (gs : list string) : string :=
  match gs with
  | [] => EmptyString
  | g :: rest => g +:+ ":" +:+ groups rest
  end.

(** [a.b.c.d] *)
Definition dotted (a b c d : string) : string :=
  a +:+ "." +:+ b +:+ "." +:+ c +:+ "." +:+ d.

(** A record the record loop lets through, for some state of the flags. *)
Definition accepted_record (subdomain : string) (r : value) : Prop :=
  exists st st', validate_record subdomain r st = Ok st'.

Definition is_ns (r : value) : bool := String.eqb (normalized_type r) "NS".
Definition is_ds (r : value) : bool := String.eqb (normalized_type r) "DS".

(** Two record objects with the same keys, in the same order, and the
    same value under every key but [type]. *)
Definition same_but_type (o1 o2 : obj) : Prop :=
  keys o1 = keys o2 /\ forall k, k <> "type" -> get o1 k = get o2 k.

(** A 7-bit character. *)
Definition plain_char (a : ascii) : bool := (nat_of_ascii a <? 128)%nat.

Definition no_dot (a : ascii) : bool := negb (Ascii.eqb a ".").

(** What stands in front of a label: nothing, or something ending in a dot. *)
Definition label_prefix (x : string) : Prop :=
  x = EmptyString \/ exists y, x = y +:+ ".".

(** The scope test of [recordsForSubdomain]. *)
Definition in_scope_of (sub domain : string) (r : RemoteRecord) : bool :=
  String.eqb (rec_name r) (sub +:+ "." +:+ domain)
  || endsWith (rec_name r) ("." +:+ (sub +:+ "." +:+ domain)).

(** The scope test on a name. *)
Definition name_in_scope (sub domain name : string) : bool :=
  String.eqb name (sub +:+ "." +:+ domain)
  || endsWith name ("." +:+ (sub +:+ "." +:+ domain)).

(** The calls a run adds to the trace it started with. *)
Definition added_calls {A : Type} (m : M A) (w : world) : list call :=
  drop (length (trace w)) (trace (final_world (m w))).

(** The definition of a subdomain whose file was deleted. *)
Definition removed (sub : string) : definition := {| subdomain := sub; records := [] |}.

(** The change entry of a deleted definition file. *)
Definition deletion_of (sub : string) : change :=
  {| status := "D"; file := "domains/" +:+ sub +:+ ".json" |}.

(** A record whose id is not the id of any record of [existing]. *)
Definition untouched_by (existing : list RemoteRecord) (e : RemoteRecord) : bool :=
  negb (existsb (has_id (rec_id e)) existing).

(** The records outside [existing] are still there, unchanged and in
    order, possibly followed by new ones. *)
Definition frame (existing before after : list RemoteRecord) : Prop :=
  exists extra,
    List.filter (untouched_by existing) after
    = List.filter (untouched_by existing) before ++ extra.

(** However [m] ends, it keeps the frame of [existing]. *)
Definition frames {A : Type} (existing : list RemoteRecord) (m : M A) : Prop :=
  forall w, frame existing (zone_records (remote w))
              (zone_records (remote (final_world (m w)))).

(** However [m] ends, it leaves the rulesets as they are. *)
Definition keeps_rulesets {A : Type} (m : M A) : Prop :=
  forall w, zone_rulesets (remote (final_world (m w))) = zone_rulesets (remote w).

(** Two TXT records of one name. *)
Definition two_txt : definition :=
  {| subdomain := "dev";
     records := [[("type", VStr "TXT"); ("name", VStr "dev.is-an-ai.dev");
                  ("value", VStr "v=spf1 -all")];
                 [("type", VStr "TXT"); ("name", VStr "dev.is-an-ai.dev");
                  ("value", VStr "site-verification=1")]] |}.

(** A definition with an address, a mail and a URL record, and a zone
    that holds an outdated address and a record the definition does not
    have. *)
Definition dev_mixed : definition :=
  {| subdomain := "dev";
     records := [[("type", VStr "A"); ("name", VStr "dev.is-an-ai.dev");
                  ("value", VStr "203.0.113.5")];
                 [("type", VStr "MX"); ("name", VStr "dev.is-an-ai.dev");
                  ("target", VStr "mx.example.net"); ("priority", VNum 10)];
                 [("type", VStr "URL"); ("name", VStr "go.dev.is-an-ai.dev");
                  ("value", VStr "https://example.org/")]] |}.

Definition dev_old_zone : zone :=
  {| zone_records :=
       [{| rec_id := 4; rec_type := "A"; rec_name := "dev.is-an-ai.dev";
           rec_fields := [("content", VStr "198.51.100.7"); ("ttl", VNum 1);
                          ("proxied", VBool false)] |};
        {| rec_id := 5; rec_type := "TXT"; rec_name := "old.dev.is-an-ai.dev";
           rec_fields := [("content", VStr "stale"); ("ttl", VNum 1)] |};
        {| rec_id := 6; rec_type := "A"; rec_name := "www.is-an-ai.dev";
           rec_fields := [("content", VStr "192.0.2.1"); ("ttl", VNum 1);
                          ("proxied", VBool true)] |}];
     zone_rulesets := [] |}.

(** The request bodies of the desired records, in order; [None] when
    [buildPayload] throws on one of them. *)
Fixpoint payloads_of (rs : list obj) : option (list obj) :=
  match rs with
  | [] => Some []
  | r :: rest =>
      payload ← buildPayload r;
      payloads ← payloads_of rest;
      Some (payload :: payloads)
  end.

(** A value that [===] compares by content. *)
Definition primitive (v : value) : bool :=
  match v with VArr _ | VObj _ => false | _ => true end.

(** A request body the API stores, and that compares equal to what was
    stored for it: string [type] and [name], no property twice, no [id],
    and nothing but [data] that holds an array or an object. *)
Definition storable (payload : obj) : bool :=
  is_string (get payload "type") && is_string (get payload "name")
  && bool_decide (NoDup (keys payload))
  && forallb (fun k => negb (String.eqb k "id")
                       && (String.eqb k "data" || primitive (get payload k)))
       (keys payload).

Definition named_in_scope (sub domain : string) (payload : obj) : bool :=
  match get payload "name" with
  | VStr name => name_in_scope sub domain name
  | _ => false
  end.

(** Two request bodies with the same [(type, name)]. *)
Definition pkey_eqb (p q : obj) : bool :=
  strict_eq (get p "type") (get q "type") && strict_eq (get p "name") (get q "name").

Fixpoint distinct_payloads (ps : list obj) : bool :=
  match ps with
  | [] => true
  | p :: rest => negb (existsb (pkey_eqb p) rest) && distinct_payloads rest
  end.

(** A record that is in the scope and that the cleanup will leave: it was
    matched, or it is not one of the records listed at the start. *)
Definition survivor (existing : list RemoteRecord) (sub domain : string)
  (keep : gset nat) (e : RemoteRecord) : bool :=
  in_scope_of sub domain e
  && (bool_decide (rec_id e ∈ keep) || untouched_by existing e).

(** The state of the zone while the record loop runs: [done] are the
    request bodies handled so far. *)
Definition settling (existing : list RemoteRecord) (sub domain : string)
  (done : list obj) (keep : gset nat) (recs : list RemoteRecord) : Prop :=
  List.NoDup (map rec_id recs)
  /\ (forall e, In e existing -> rec_id e ∉ keep -> In e recs)
  /\ (forall e, In e existing ->
        exists e', In e' recs /\ rec_id e' = rec_id e /\ key_eqb e' e = true)
  /\ (forall e, In e recs -> survivor existing sub domain keep e = true ->
        exists p, In p done /\ same_key p e = true /\ sameRecord e p = true)
  /\ (forall p, In p done ->
        exists e, In e recs /\ survivor existing sub domain keep e = true
                  /\ same_key p e = true /\ sameRecord e p = true)
  /\ (forall e1 e2, In e1 recs -> In e2 recs ->
        survivor existing sub domain keep e1 = true ->
        survivor existing sub domain keep e2 = true ->
        key_eqb e1 e2 = true -> e1 = e2)
  /\ (forall id, id ∈ keep -> existsb (has_id id) existing = true).

Definition allowed_top_key (key : string) : bool := str_includes ALLOWED_TOP_KEYS key.
Definition allowed_record_key (key : string) : bool :=
  str_includes ALLOWED_RECORD_KEYS key.

End ExtraSpec.

(** ** The values on which the string primitives are modelled exactly *)
Module RangeSpec.
Import JsString Js Validator ValidatorRun ExtraSpec.

(** [String_ v] is [String(v)]: [v] holds no number outside the safe
    integers, whose digits [of_Z] gives, and no object with an own
    [toString] property, which [JSON.parse] can only set to a value
    that is not callable, so that [String(v)] raises a [TypeError]. *)
Fixpoint exact_text (v : value) : bool :=
  match v with
  | VNum n => (Z.abs n <=? 9007199254740991)%Z
  | VArr l => forallb exact_text l
  | VObj o => negb (has o "toString")
  | _ => true
  end.

(** [normalized_type r] is [String(r.type).toUpperCase()]: the text of
    the type is exact and made of 7-bit characters, on which
    [toUpperCase] is JavaScript's. *)
Definition readable_type (r : value) : bool :=
  exact_text (prop r "type") && chars_in plain_char (String_ (prop r "type")).

(** Every record of the definition has such a type. *)
Definition readable_types (data : value) : bool :=
  match prop data "records" with
  | VArr records => forallb readable_type records
  | _ => true
  end.

End RangeSpec.

(** * Facts about strings *)
Module StringFacts.
Import JsString.

Lemma append_cons a s t : String a s +:+ t = String a (s +:+ t).
Proof. reflexivity. Qed.

Lemma append_nil_l s : EmptyString +:+ s = s.
Proof. reflexivity. Qed.

Lemma append_nil_r s : s +:+ EmptyString = s.
Proof. induction s as [|a s IH]; [reflexivity|]. rewrite append_cons, IH. reflexivity. Qed.

Lemma append_assoc s t u : (s +:+ t) +:+ u = s +:+ (t +:+ u).
Proof.
  induction s as [|a s IH]; [reflexivity|].
  rewrite !append_cons, IH. reflexivity.
Qed.

Lemma length_append s t : String.length (s +:+ t) = String.length s + String.length t.
Proof.
  induction s as [|a s IH]; [reflexivity|].
  rewrite append_cons. simpl. rewrite IH. reflexivity.
Qed.

Lemma append_eq_nil s t : s +:+ t = EmptyString -> s = EmptyString /\ t = EmptyString.
Proof. destruct s; [auto|discriminate]. Qed.

Lemma append_eq_cons s t a u :
  s +:+ t = String a u ->
  (s = EmptyString /\ t = String a u) \/ (exists s', s = String a s' /\ u = s' +:+ t).
Proof.
  destruct s as [|b s]; [left; auto|].
  rewrite append_cons. intros [= -> <-]. right. eauto.
Qed.

Lemma startsWith_spec s p :
  startsWith s p = true <-> exists post, s = p +:+ post.
Proof.
  revert s. induction p as [|b p IH]; intros s.
  - destruct s; simpl; split; eauto.
  - destruct s as [|a s]; simpl.
    + split; [discriminate|]. intros [post H]. discriminate.
    + destruct (Ascii.eqb_spec a b) as [->|Hne].
      * rewrite IH. split; intros [post H]; exists post.
        -- rewrite append_cons. congruence.
        -- rewrite append_cons in H. congruence.
      * split; [discriminate|]. intros [post H].
        rewrite append_cons in H. congruence.
Qed.

Lemma includes_nil p : includes EmptyString p = startsWith EmptyString p.
Proof. simpl. destruct p; reflexivity. Qed.

Lemma includes_cons a s p :
  includes (String a s) p = startsWith (String a s) p || includes s p.
Proof. cbn [includes]. destruct (startsWith (String a s) p); reflexivity. Qed.

Lemma includes_spec s p :
  includes s p = true <-> exists pre post, s = pre +:+ p +:+ post.
Proof.
  induction s as [|a s IH].
  - rewrite includes_nil, startsWith_spec. split.
    + intros [post E]. exists EmptyString, post. exact E.
    + intros (pre & post & H). symmetry in H.
      apply append_eq_nil in H as [-> H]. eauto.
  - rewrite includes_cons, orb_true_iff, IH, startsWith_spec. split.
    + intros [[post E]|(pre & post & ->)].
      * exists EmptyString, post. exact E.
      * exists (String a pre), post. reflexivity.
    + intros (pre & post & H). destruct pre as [|b pre].
      * left. eauto.
      * right. rewrite append_cons in H. injection H as -> ->. eauto.
Qed.

Lemma includes_length s p :
  includes s p = true -> String.length p <= String.length s.
Proof.
  intros (pre & post & ->)%includes_spec. rewrite !length_append. lia.
Qed.

Lemma chars_in_app P s t : chars_in P (s +:+ t) = chars_in P s && chars_in P t.
Proof.
  induction s as [|a s IH]; [reflexivity|].
  rewrite append_cons. simpl. rewrite IH, andb_assoc. reflexivity.
Qed.

(** A needle that begins with [c] cannot start inside a prefix free of [c]. *)
Lemma includes_skip c s t p :
  chars_in (fun a => negb (Ascii.eqb a c)) s = true ->
  includes (s +:+ t) (String c p) = true -> includes t (String c p) = true.
Proof.
  induction s as [|a s IH]; [auto|].
  rewrite append_cons, includes_cons. cbn [chars_in startsWith].
  intros [Ha Hs]%andb_true_iff.
  destruct (Ascii.eqb a c); [discriminate|]. auto.
Qed.
End StringFacts.

(** * The derivative matcher decides the language *)
Module RegexFacts.
Import JsString Regex StringFacts.

Lemma Lang_Void s : ~ Lang Void s.
Proof. inversion 1. Qed.

Lemma Lang_Eps s : Lang Eps s <-> s = EmptyString.
Proof. split; [inversion 1; reflexivity | intros ->; constructor]. Qed.

Lemma Lang_Chr p s : Lang (Chr p) s <-> exists a, s = String a EmptyString /\ p a = true.
Proof.
  split; [inversion 1; eauto | intros (a & -> & H); constructor; exact H].
Qed.

Lemma Lang_Cat r1 r2 s :
  Lang (Cat r1 r2) s <-> exists s1 s2, s = s1 +:+ s2 /\ Lang r1 s1 /\ Lang r2 s2.
Proof.
  split; [inversion 1; eauto | intros (s1 & s2 & -> & H1 & H2); constructor; auto].
Qed.

Lemma Lang_Alt r1 r2 s : Lang (Alt r1 r2) s <-> Lang r1 s \/ Lang r2 s.
Proof.
  split; [inversion 1; auto | intros [H|H]; [apply LAltL | apply LAltR]; exact H].
Qed.

(** A non-empty word of [r*] starts with a non-empty word of [r]. *)
Lemma Lang_Star_cons r a s :
  Lang (Star r) (String a s) ->
  exists s1 s2, s = s1 +:+ s2 /\ Lang r (String a s1) /\ Lang (Star r) s2.
Proof.
  intros H. remember (Star r) as r' eqn:Er. remember (String a s) as w eqn:Ew.
  induction H as [| | | | | |r0 s1 s2 H1 _ H2 IH2]; try discriminate.
  injection Er as ->. destruct s1 as [|b s1].
  - rewrite append_nil_l in Ew. auto.
  - rewrite append_cons in Ew. injection Ew as -> <-. eauto.
Qed.

Lemma nullable_Lang r : nullable r = true <-> Lang r EmptyString.
Proof.
  induction r as [| |p|r1 IH1 r2 IH2|r1 IH1 r2 IH2|r IH]; simpl.
  - split; [discriminate | intros H; destruct (Lang_Void _ H)].
  - split; [constructor | reflexivity].
  - split; [discriminate|]. intros (a & H & _)%Lang_Chr. discriminate.
  - rewrite andb_true_iff, IH1, IH2, Lang_Cat. split.
    + intros [H1 H2]. exists EmptyString, EmptyString. auto.
    + intros (s1 & s2 & E & H1 & H2). symmetry in E.
      apply append_eq_nil in E as [-> ->]. auto.
  - rewrite orb_true_iff, IH1, IH2, Lang_Alt. reflexivity.
  - split; [constructor | reflexivity].
Qed.

Lemma deriv_Lang a r : forall s, Lang (deriv a r) s <-> Lang r (String a s).
Proof.
  induction r as [| |p|r1 IH1 r2 IH2|r1 IH1 r2 IH2|r IH]; intros s; simpl.
  - split; intros H; destruct (Lang_Void _ H).
  - split; [intros H; destruct (Lang_Void _ H)|]. intros H%Lang_Eps. discriminate.
  - rewrite Lang_Chr. destruct (p a) eqn:Ep.
    + rewrite Lang_Eps. split.
      * intros ->. eauto.
      * intros (b & [= -> ->] & _). reflexivity.
    + split; [intros H; destruct (Lang_Void _ H)|].
      intros (b & [= -> ->] & H). congruence.
  - assert (Lang (Cat (deriv a r1) r2) s <->
            exists s1 s2, s = s1 +:+ s2 /\ Lang r1 (String a s1) /\ Lang r2 s2) as Hcat.
    { rewrite Lang_Cat. split; intros (s1 & s2 & E & H1 & H2); exists s1, s2;
        (split; [exact E|split; [apply IH1; exact H1|exact H2]]). }
    rewrite (Lang_Cat r1 r2). destruct (nullable r1) eqn:En.
    + rewrite Lang_Alt, Hcat, IH2. split.
      * intros [(s1 & s2 & -> & H1 & H2)|H].
        -- exists (String a s1), s2. auto.
        -- exists EmptyString, (String a s). split; [reflexivity|].
           split; [apply nullable_Lang; exact En | exact H].
      * intros (s1 & s2 & E & H1 & H2). symmetry in E.
        apply append_eq_cons in E as [[-> ->]|(s1' & -> & ->)]; [right; exact H2|].
        left. eauto.
    + rewrite Hcat. split.
      * intros (s1 & s2 & -> & H1 & H2). exists (String a s1), s2. auto.
      * intros (s1 & s2 & E & H1 & H2). symmetry in E.
        apply append_eq_cons in E as [[-> ->]|(s1' & -> & ->)]; [|eauto].
        apply nullable_Lang in H1. congruence.
  - rewrite !Lang_Alt, IH1, IH2. reflexivity.
  - rewrite Lang_Cat. split.
    + intros (s1 & s2 & -> & H1 & H2). apply IH in H1.
      apply (LStarS r (String a s1) s2); assumption.
    + intros (s1 & s2 & -> & H1 & H2)%Lang_Star_cons.
      exists s1, s2. split; [reflexivity|]. split; [apply IH; exact H1 | exact H2].
Qed.

Theorem test_Lang r s : test r s = true <-> Lang r s.
Proof.
  revert r. induction s as [|a s IH]; intros r; simpl.
  - apply nullable_Lang.
  - rewrite IH. apply deriv_Lang.
Qed.

(** Words of [[p]*] and [[p]+]. *)
Lemma Lang_Star_class p s : Lang (Star (Chr p)) s -> chars_in p s = true.
Proof.
  intros H. remember (Star (Chr p)) as r eqn:Er.
  induction H as [| | | | | |r0 s1 s2 H1 _ H2 IH2]; try discriminate.
  - reflexivity.
  - injection Er as ->. apply Lang_Chr in H1 as (a & -> & Ha).
    rewrite append_cons, append_nil_l. simpl. rewrite Ha. auto.
Qed.

Lemma test_Plus_class p s :
  test (Plus (Chr p)) s = true -> chars_in p s = true /\ s <> EmptyString.
Proof.
  intros (s1 & s2 & -> & (a & -> & Ha)%Lang_Chr & H2%Lang_Star_class)%test_Lang%Lang_Cat.
  rewrite append_cons, append_nil_l. simpl. rewrite Ha. auto.
Qed.

End RegexFacts.

(** * Ownership of generated redirect rules *)
Module OwnershipFacts.
Import JsString Regex Json Validator Remote Sync StringFacts RegexFacts.

Lemma chars_in_impl (P Q : ascii -> bool) s :
  (forall a, P a = true -> Q a = true) -> chars_in P s = true -> chars_in Q s = true.
Proof.
  intros HPQ. induction s as [|a s IH]; [reflexivity|]. simpl.
  intros [Ha Hs]%andb_true_iff. rewrite (HPQ a Ha). auto.
Qed.

Lemma subdomain_char_not_quote a :
  subdomain_char a = true -> negb (Ascii.eqb a quote_char) = true.
Proof. destruct a as [[] [] [] [] [] [] [] []]; vm_compute; congruence. Qed.

Lemma subdomain_char_not_dot a :
  subdomain_char a = true -> negb (Ascii.eqb a ".") = true.
Proof. destruct a as [[] [] [] [] [] [] [] []]; vm_compute; congruence. Qed.

(** Two dot-free labels followed by a dot: one text starts with the
    other only if the labels agree. *)
Lemma startsWith_label s1 : forall s2 x y,
  chars_in (fun a => negb (Ascii.eqb a ".")) s1 = true ->
  chars_in (fun a => negb (Ascii.eqb a ".")) s2 = true ->
  startsWith (s1 +:+ "." +:+ x) (s2 +:+ "." +:+ y) = true -> s1 = s2.
Proof.
  induction s1 as [|a s1 IH]; intros [|b s2] x y H1 H2; rewrite ?append_cons, ?append_nil_l.
  - reflexivity.
  - cbn [startsWith]. simpl in H2. apply andb_true_iff in H2 as [Hb _].
    rewrite Ascii.eqb_sym. destruct (Ascii.eqb b "."); [discriminate|]. discriminate.
  - cbn [startsWith]. simpl in H1. apply andb_true_iff in H1 as [Ha _].
    destruct (Ascii.eqb a "."); [discriminate|]. discriminate.
  - cbn [startsWith]. simpl in H1, H2.
    apply andb_true_iff in H1 as [_ H1]. apply andb_true_iff in H2 as [_ H2].
    destruct (Ascii.eqb_spec a b) as [->|]; [|discriminate].
    intros H. f_equal. exact (IH s2 x y H1 H2 H).
Qed.

Lemma owned_by_unfold h r :
  owned_by h r = includes (expression r) (String quote_char (h +:+ dq)).
Proof. reflexivity. Qed.

Lemma new_rule_expression h r :
  expression (new_rule h r)
  = "(http.host eq " +:+ String quote_char (h +:+ String quote_char ")").
Proof. reflexivity. Qed.

Lemma generated_rule_owner domain sub1 sub2 r :
  chars_in subdomain_char sub1 = true ->
  chars_in subdomain_char sub2 = true ->
  owned_by (sub2 +:+ "." +:+ domain) (new_rule (sub1 +:+ "." +:+ domain) r) = true ->
  sub1 = sub2.
Proof.
  intros H1 H2. rewrite owned_by_unfold, new_rule_expression.
  intros H. apply includes_skip in H; [|reflexivity].
  rewrite includes_cons, orb_true_iff in H. destruct H as [H|H].
  - cbn [startsWith] in H. rewrite Ascii.eqb_refl in H.
    rewrite !append_assoc in H.
    eapply startsWith_label; [| |exact H];
      eapply chars_in_impl; eauto using subdomain_char_not_dot.
  - exfalso. rewrite !append_assoc in H.
    apply includes_skip in H;
      [|eapply chars_in_impl; eauto using subdomain_char_not_quote].
    rewrite append_cons, append_nil_l, includes_cons in H. cbn [startsWith orb] in H.
    replace (Ascii.eqb "." quote_char) with false in H by reflexivity.
    apply includes_length in H. simpl in H.
    rewrite !length_append in H. simpl in H. lia.
Qed.

Lemma generated_rule_owned h r : owned_by h (new_rule h r) = true.
Proof.
  rewrite owned_by_unfold, new_rule_expression. apply includes_spec.
  exists "(http.host eq ", ")". rewrite !append_cons, !append_assoc. reflexivity.
Qed.

(** C10: a rule generated for [sub1.domain] is classified as belonging to
    [sub2.domain] exactly when the two hostnames are equal, for all
    subdomains accepted by the format check and every domain. *)
Theorem C10_generated_rule_ownership (domain sub1 sub2 : string) (r : obj) :
  test SUBDOMAIN_REGEX sub1 = true ->
  test SUBDOMAIN_REGEX sub2 = true ->
  (owned_by (sub2 +:+ "." +:+ domain) (new_rule (sub1 +:+ "." +:+ domain) r) = true
   <-> sub1 +:+ "." +:+ domain = sub2 +:+ "." +:+ domain).
Proof.
  intros [H1 _]%test_Plus_class [H2 _]%test_Plus_class. split.
  - intros H. f_equal. eapply generated_rule_owner; eassumption.
  - intros <-. apply generated_rule_owned.
Qed.

Lemma C10_generated_rule_ownership_witness :
  test SUBDOMAIN_REGEX "blog" = true /\ test SUBDOMAIN_REGEX "my-blog" = true /\
  (owned_by ("my-blog" +:+ "." +:+ "example.com")
     (new_rule ("blog" +:+ "." +:+ "example.com") []) = true
   <-> "blog" +:+ "." +:+ "example.com" = "my-blog" +:+ "." +:+ "example.com").
Proof.
  split; [reflexivity|]. split; [reflexivity|].
  apply (C10_generated_rule_ownership "example.com" "blog" "my-blog" []); reflexivity.
Defined.

End OwnershipFacts.

(** * The validator: order of the record checks *)
Module ValidatorFacts.
Import JsString Js Regex Validator ValidatorRun ValidatorSpec RangeSpec.
Import StringFacts RegexFacts.

Lemma bind_Ok {A B : Type} (a : A) (k : A -> outcome B) : (Ok a ≫= k) = k a.
Proof. reflexivity. Qed.

Lemma bind_Fail {A B : Type} why (k : A -> outcome B) : (Fail why ≫= k) = Fail why.
Proof. reflexivity. Qed.

Section Avoid.
Context (bad : reason -> bool).

Lemma avoid_bind {A B : Type} (m : outcome A) (k : A -> outcome B) :
  fails_with bad m = false -> (forall a, fails_with bad (k a) = false) ->
  fails_with bad (m ≫= k) = false.
Proof. destruct m as [a|why|]; simpl; auto. Qed.

Lemma avoid_fail_if c why : bad why = false -> fails_with bad (fail_if c why) = false.
Proof. destruct c; simpl; auto. Qed.

Lemma avoid_for_each {A : Type} (l : list A) body :
  (forall x, fails_with bad (body x) = false) -> fails_with bad (for_each l body) = false.
Proof.
  intros H. induction l as [|x l IH]; simpl; [reflexivity|].
  apply avoid_bind; auto.
Qed.

Lemma avoid_keys_of v : fails_with bad (keys_of v) = false.
Proof. unfold keys_of. destruct (own_keys v); reflexivity. Qed.

Lemma avoid_in k v : fails_with bad (in_ k v) = false.
Proof. unfold in_. destruct (has_key v k); reflexivity. Qed.
End Avoid.

Ltac avoid :=
  repeat first
    [ reflexivity
    | apply avoid_keys_of
    | apply avoid_in
    | apply avoid_fail_if; reflexivity
    | apply avoid_for_each; intros ?
    | apply avoid_bind; [|intros ?] ].

Lemma allowed_type_branch type :
  str_includes ALLOWED_TYPES type = true -> type_branch type <> BrFallback.
Proof.
  unfold ALLOWED_TYPES. cbn [str_includes].
  repeat match goal with
         | |- context [String.eqb ?x type] =>
             destruct (String.eqb_spec x type) as [<-|_];
             [intros _ H; vm_compute in H; discriminate H|]
         end.
  discriminate.
Qed.

Lemma check_branch_reachable b type r st :
  b <> BrFallback -> fails_with is_unreachable (check_branch b type r st) = false.
Proof. destruct b; intros Hb; try congruence; cbn [check_branch]; avoid. Qed.

(** Only the fallback arm can fail for a reason of a class that none of
    the field-contract reasons belongs to. *)
Lemma check_proxied_avoids bad type r :
  bad ProxiedMustBeBoolean = false -> bad ProxiedOnlyForAddress = false ->
  fails_with bad (check_proxied type r) = false.
Proof.
  intros H1 H2. unfold check_proxied.
  apply avoid_bind; [apply avoid_in|intros []]; [|reflexivity].
  apply avoid_bind; [|intros _]; apply avoid_fail_if; assumption.
Qed.

Lemma check_ns_ds_name_avoids bad subdomain type r :
  bad (MustBeOnSubdomain type) = false ->
  fails_with bad (check_ns_ds_name subdomain type r) = false.
Proof.
  intros H. unfold check_ns_ds_name. destruct (_ || _); [|reflexivity].
  apply avoid_fail_if, H.
Qed.

Lemma check_record_keys_avoids bad r :
  (forall key, bad (InvalidRecordKey key) = false) ->
  fails_with bad (check_record_keys r) = false.
Proof.
  intros H. unfold check_record_keys.
  apply avoid_bind; [apply avoid_keys_of|intros ks].
  apply avoid_for_each. intros key. apply avoid_fail_if, H.
Qed.

(** C9: a record whose normalised type is one of the eleven allowed types
    selects one of the eleven explicit arms, and its validation never ends
    in the fallback's "unreachable record type" failure. *)
Theorem C9_fallback_unreachable (subdomain : string) (r : value) (st : flags) :
  str_includes ALLOWED_TYPES (normalized_type r) = true ->
  type_branch (normalized_type r) <> BrFallback
  /\ fails_with is_unreachable (validate_record subdomain r st) = false.
Proof.
  intros Hty%allowed_type_branch. split; [exact Hty|].
  unfold validate_record.
  apply avoid_bind; [avoid|intros _].
  apply avoid_bind; [apply check_proxied_avoids; reflexivity|intros _].
  apply avoid_bind; [apply check_ns_ds_name_avoids; reflexivity|intros _].
  apply avoid_bind; [apply check_record_keys_avoids; reflexivity|intros _].
  apply avoid_bind; [avoid|intros _].
  destruct (prop r "name"); try reflexivity.
  apply avoid_bind; [avoid|intros _].
  apply avoid_bind; [avoid|intros _].
  apply check_branch_reachable, Hty.
Qed.

Lemma C9_fallback_unreachable_witness :
  let r := VObj [("type", VStr "tlsa"); ("name", VStr "blog")] in
  str_includes ALLOWED_TYPES (normalized_type r) = true
  /\ type_branch (normalized_type r) <> BrFallback
  /\ fails_with is_unreachable (validate_record "blog" r sample_flags) = false.
Proof.
  split; [reflexivity|].
  apply (C9_fallback_unreachable "blog"
           (VObj [("type", VStr "tlsa"); ("name", VStr "blog")]) sample_flags).
  reflexivity.
Defined.

(** Without the membership check in front, the chain does fall through. *)
Lemma fallback_branch_only_for_other_types type :
  type_branch type = BrFallback <-> str_includes ALLOWED_TYPES type = false.
Proof.
  split.
  - intros H. destruct (str_includes ALLOWED_TYPES type) eqn:E; [|reflexivity].
    apply allowed_type_branch in E. contradiction.
  - unfold ALLOWED_TYPES, type_branch. cbn [str_includes].
    rewrite !(String.eqb_sym _ type).
    repeat (destruct (String.eqb type _); [discriminate|]). reflexivity.
Qed.

Lemma for_each_keys_unknown ks key :
  List.find unknown_key ks = Some key ->
  for_each ks (fun key =>
    fail_if (negb (str_includes ALLOWED_RECORD_KEYS key)) (InvalidRecordKey key))
  = Fail (InvalidRecordKey key).
Proof.
  induction ks as [|k ks IH]; [discriminate|]. cbn [List.find for_each].
  unfold unknown_key at 1. destruct (negb (str_includes ALLOWED_RECORD_KEYS k)) eqn:E.
  - intros [= ->]. reflexivity.
  - intros H. exact (IH H).
Qed.

Lemma check_record_keys_unknown r key :
  first_unknown_key r = Some key -> check_record_keys r = Fail (InvalidRecordKey key).
Proof.
  unfold first_unknown_key, check_record_keys, keys_of.
  destruct (own_keys r) as [ks|]; [|discriminate]. simpl.
  apply for_each_keys_unknown.
Qed.

Lemma check_proxied_cases type r :
  not_object r = false ->
  check_proxied type r = Ok tt
  \/ check_proxied type r = Fail ProxiedMustBeBoolean
  \/ check_proxied type r = Fail ProxiedOnlyForAddress.
Proof.
  intros Hobj. unfold check_proxied, in_.
  destruct r; try discriminate; cbn [has_key];
    rewrite bind_Ok; [auto|].
  destruct (has props "proxied"); [|auto]. unfold fail_if.
  destruct (negb (is_boolean _)); [auto|]. rewrite bind_Ok.
  destruct (negb (str_includes _ type)); auto.
Qed.

Lemma check_ns_ds_name_cases subdomain type r :
  check_ns_ds_name subdomain type r = Ok tt
  \/ check_ns_ds_name subdomain type r = Fail (MustBeOnSubdomain type).
Proof.
  unfold check_ns_ds_name, fail_if. destruct (_ || _); [|auto].
  destruct (negb _); auto.
Qed.

(** C6 (as amended): a record object with a key outside the allowed set
    always fails validation, and for one reason, which the record
    determines. The key check runs after the two [proxied] checks and the
    NS/DS exact-name check, in that order, and before every other
    per-record check: the reason is that of the first of the three that
    the record does not pass, and when it passes all three, the
    invalid-record-key one for its first unknown key, whatever the type
    field. The type is one that [String] turns into 7-bit text without
    an exception. *)
Theorem C6_key_check_order (subdomain : string) (r : value) (st : flags) (key : string) :
  not_object r = false ->
  readable_type r = true ->
  first_unknown_key r = Some key ->
  validate_record subdomain r st = Fail (key_failure subdomain r key).
Proof.
  intros Hobj _ Hkey. unfold validate_record, fail_if. rewrite Hobj, bind_Ok.
  rewrite (check_record_keys_unknown r key Hkey).
  unfold key_failure, check_proxied, check_ns_ds_name, in_, has_proxied, fail_if.
  destruct r as [| | | | |l|o]; try discriminate; cbn [has_key prop];
    rewrite bind_Ok; cbn [andb].
  - destruct (_ || _); [|reflexivity]. destruct (negb (strict_eq _ _)); reflexivity.
  - destruct (has o "proxied"); cbn [andb];
      [destruct (negb (is_boolean _)); [reflexivity|];
       destruct (negb (str_includes ["A"; "AAAA"; "CNAME"] _)); [reflexivity|]|];
      (destruct (_ || _); [|reflexivity]);
      destruct (negb (strict_eq _ _)); reflexivity.
Qed.

Lemma C6_key_check_order_witness :
  let r := VObj [("type", VStr "mx"); ("name", VStr "blog"); ("colour", VStr "red")] in
  not_object r = false /\ readable_type r = true
  /\ first_unknown_key r = Some "colour"
  /\ key_failure "blog" r "colour" = InvalidRecordKey "colour"
  /\ validate_record "blog" r sample_flags = Fail (key_failure "blog" r "colour").
Proof.
  split; [reflexivity|]. split; [reflexivity|]. split; [reflexivity|].
  split; [reflexivity|].
  apply (C6_key_check_order "blog"
           (VObj [("type", VStr "mx"); ("name", VStr "blog"); ("colour", VStr "red")])
           sample_flags "colour"); reflexivity.
Defined.

(** C6 (as stated) fails: with an unknown key present, these records are
    rejected for another reason than the invalid-record-key one. *)
Lemma C6_counterexample :
  first_unknown_key unknown_key_and_bad_proxied = Some "colour"
  /\ validate_record "blog" unknown_key_and_bad_proxied sample_flags
     = Fail ProxiedMustBeBoolean
  /\ first_unknown_key unknown_key_and_misplaced_proxied = Some "colour"
  /\ validate_record "blog" unknown_key_and_misplaced_proxied sample_flags
     = Fail ProxiedOnlyForAddress
  /\ first_unknown_key unknown_key_and_child_ns = Some "colour"
  /\ validate_record "blog" unknown_key_and_child_ns sample_flags
     = Fail (MustBeOnSubdomain "NS").
Proof. repeat split. Qed.

End ValidatorFacts.

(** * The validator: the reserved-name list *)
Module ReservedFacts.
Import JsString Js Regex Validator ValidatorRun ValidatorSpec ReservedSpec.
Import StringFacts RegexFacts ValidatorFacts.

(** C5: the loaded denylist holds the source strings verbatim, so the
    entry ["WWW"] does not stop the subdomain ["www"], which the entry
    ["www"] does. *)
Theorem C5_reserved_entries_not_normalized :
  RESERVED_SUBDOMAINS (load_reserved reserved_upper) = [VStr "WWW"]
  /\ validate_file (RESERVED_SUBDOMAINS (load_reserved reserved_upper))
       "domains/www.json" (Parsed www_definition) = Ok tt
  /\ validate_file (RESERVED_SUBDOMAINS (load_reserved reserved_lower))
       "domains/www.json" (Parsed www_definition) = Fail (ReservedSubdomain "www").
Proof. repeat split. Qed.

Lemma lower_char_subdomain a : subdomain_char a = true -> lower_char a = a.
Proof. destruct a as [[] [] [] [] [] [] [] []]; vm_compute; congruence. Qed.

(** On a subdomain that passed the format check, [toLowerCase] changes
    nothing: the probe is the subdomain itself. *)
Lemma toLowerCase_subdomain s : test SUBDOMAIN_REGEX s = true -> toLowerCase s = s.
Proof.
  intros [H _]%test_Plus_class. induction s as [|a s IH]; [reflexivity|].
  simpl in H. apply andb_true_iff in H as [Ha Hs]. simpl.
  rewrite (lower_char_subdomain a Ha), (IH Hs). reflexivity.
Qed.

(** An object source contributes exactly the elements of its array
    members, in order and unchanged. *)
Lemma load_reserved_mapping o :
  is_category_mapping (VObj o) = true ->
  load_reserved (Parsed (VObj o))
  = {| RESERVED_SUBDOMAINS := flat (map snd o); warned := false |}.
Proof.
  intros H. unfold load_reserved. cbn [object_values]. f_equal. f_equal.
  cbn [is_category_mapping] in H. induction o as [|[k v] o IH]; [reflexivity|].
  cbn [forallb snd] in H. apply andb_true_iff in H as [Hv Ho].
  cbn [map snd List.filter]. rewrite Hv. f_equal. auto.
Qed.









End ReservedFacts.

(** * The change feed as each script reads it *)
Module FeedFacts.
Import JsString Js Validator ValidatorRun FeedSpec StringFacts OwnershipFacts.

Lemma split_free c s :
  chars_in (fun a => negb (Ascii.eqb a c)) s = true -> split c s = [s].
Proof.
  induction s as [|a s IH]; [reflexivity|]. simpl.
  intros [Ha Hs]%andb_true_iff. destruct (Ascii.eqb a c); [discriminate|].
  rewrite (IH Hs). reflexivity.
Qed.

Lemma split_app c s t :
  chars_in (fun a => negb (Ascii.eqb a c)) s = true ->
  split c (s +:+ String c t) = s :: split c t.
Proof.
  induction s as [|a s IH].
  - intros _. rewrite append_nil_l. simpl. rewrite Ascii.eqb_refl. reflexivity.
  - simpl. intros [Ha Hs]%andb_true_iff.
    destruct (Ascii.eqb a c); [discriminate|]. rewrite (IH Hs). reflexivity.
Qed.

Lemma split_render l :
  forallb no_newline l = true -> l <> [] -> split newline (render l) = l.
Proof.
  unfold render. induction l as [|x l IH]; [congruence|].
  cbn [forallb]. intros [Hx Hl]%andb_true_iff _. destruct l as [|y l].
  - simpl. apply split_free, Hx.
  - change (join _ (x :: y :: l))
      with (x +:+ String newline (join (String newline EmptyString) (y :: l))).
    rewrite (split_app _ _ _ Hx), IH; [reflexivity|exact Hl|discriminate].
Qed.

Lemma files_render l :
  forallb no_newline l = true -> files (render l) = List.filter in_scope l.
Proof.
  intros H. unfold files. destruct l as [|x l]; [reflexivity|].
  rewrite split_render; [reflexivity|exact H|discriminate].
Qed.

Lemma feed_line_out_of_scope e : in_scope (feed_line e) = false.
Proof. destruct e as [[] path]; reflexivity. Qed.

Lemma feed_line_no_newline e : no_newline (snd e) = true -> no_newline (feed_line e) = true.
Proof.
  unfold no_newline, feed_line. intros H. rewrite !chars_in_app, H.
  destruct e as [[] path]; reflexivity.
Qed.

Lemma no_space_no_newline s : no_space s = true -> no_newline s = true.
Proof.
  apply chars_in_impl. intros a.
  destruct a as [[] [] [] [] [] [] [] []]; vm_compute; congruence.
Qed.

Lemma split_ws_free s : forall in_sep,
  no_space s = true -> Sync.split_ws_from in_sep s = [s].
Proof.
  induction s as [|a s IH]; intros in_sep; [reflexivity|].
  unfold no_space. cbn [chars_in Sync.split_ws_from].
  intros [Ha Hs]%andb_true_iff. apply negb_true_iff in Ha. rewrite Ha.
  rewrite (IH false Hs). reflexivity.
Qed.

Lemma split_ws_two_fields c path :
  Sync.is_space c = false -> no_space path = true ->
  Sync.split_ws (String c (String " " path)) = [String c EmptyString; path].
Proof.
  intros Hc Hp. unfold Sync.split_ws.
  change (Sync.split_ws_from false (String c (String " " path)))
    with (if Sync.is_space c then EmptyString :: Sync.split_ws_from true (String " " path)
          else match EmptyString :: Sync.split_ws_from true path with
               | h :: t => String c h :: t
               | [] => [String c EmptyString]
               end).
  rewrite Hc, (split_ws_free path true Hp). reflexivity.
Qed.

Lemma parse_feed_line e :
  no_space (snd e) = true -> Sync.parse_line (feed_line e) = Some (to_change e).
Proof.
  intros H. unfold Sync.parse_line, feed_line, to_change.
  destruct e as [st path]. cbn [fst snd] in *.
  destruct st; cbn [status_letter];
    match goal with
    | |- context [String ?c EmptyString +:+ " " +:+ path] =>
        change (String c EmptyString +:+ " " +:+ path) with (String c (String " " path));
        rewrite (split_ws_two_fields c path eq_refl H)
    end; reflexivity.
Qed.

Lemma parse_feed_lines feed :
  forallb (fun e => no_space (snd e)) feed = true ->
  Sync.parse_lines (map feed_line feed) = Some (map to_change feed).
Proof.
  induction feed as [|e feed IH]; [reflexivity|]. cbn [forallb map Sync.parse_lines].
  intros [He Hfeed]%andb_true_iff. rewrite (parse_feed_line e He), (IH Hfeed).
  reflexivity.
Qed.

Lemma feed_line_nonempty e : Sync.nonempty (feed_line e) = true.
Proof. destruct e as [[] path]; reflexivity. Qed.

(** The reconciler does read ["<status> <path>"] lines, and keeps the
    entries in scope. *)
Lemma changes_of_feed feed :
  forallb (fun e => no_space (snd e)) feed = true ->
  Sync.changes (render (map feed_line feed))
  = Some (map to_change (List.filter (fun e => in_scope (snd e)) feed)).
Proof.
  intros H. unfold Sync.changes.
  assert (List.filter Sync.nonempty (split Sync.newline (render (map feed_line feed)))
          = map feed_line feed) as ->.
  { destruct feed as [|e feed]; [reflexivity|].
    change Sync.newline with newline. rewrite split_render.
    - clear H. induction (e :: feed) as [|x l IH]; [reflexivity|].
      cbn [map List.filter]. rewrite feed_line_nonempty, IH. reflexivity.
    - rewrite forallb_forall in *. intros p [x [<- Hx]]%in_map_iff.
      apply feed_line_no_newline, no_space_no_newline, (H x Hx).
    - discriminate. }
  rewrite (parse_feed_lines feed H). cbn [mbind option_bind]. f_equal.
  clear H. induction feed as [|e feed IH]; [reflexivity|].
  cbn [map List.filter]. unfold in_scope at 1. cbn [to_change Sync.file].
  destruct (startsWith (snd e) "domains/" && endsWith (snd e) ".json");
    cbn [map]; rewrite <- IH; reflexivity.
Qed.

(** C4 (as amended): the validator reads [changes.txt] as a list of bare
    paths, one per line, and keeps exactly the paths under [domains/]
    that end in [.json]; of a feed written as ["<status> <path>"] lines
    it keeps no entry. *)
Theorem C4_validator_selects_bare_paths (feed : list (feed_status * string)) :
  forallb (fun e => no_newline (snd e)) feed = true ->
  files (render (map snd feed)) = List.filter in_scope (map snd feed)
  /\ files (render (map feed_line feed)) = [].
Proof.
  intros H. split.
  - apply files_render. rewrite forallb_forall in *. intros p [e [<- He]]%in_map_iff.
    exact (H e He).
  - rewrite files_render.
    + induction feed as [|e feed IH]; [reflexivity|].
      cbn [map List.filter]. rewrite feed_line_out_of_scope. apply IH.
      cbn [forallb] in H. apply andb_true_iff in H as [_ H]. exact H.
    + rewrite forallb_forall in *. intros p [e [<- He]]%in_map_iff.
      apply feed_line_no_newline, (H e He).
Qed.

Lemma C4_validator_selects_bare_paths_witness :
  let feed := [(Added, "domains/blog.json"); (Modified, "README.md");
               (Deleted, "domains/old.json")] in
  forallb (fun e => no_newline (snd e)) feed = true
  /\ files (render (map snd feed)) = List.filter in_scope (map snd feed)
  /\ files (render (map feed_line feed)) = [].
Proof.
  split; [reflexivity|].
  apply (C4_validator_selects_bare_paths
           [(Added, "domains/blog.json"); (Modified, "README.md");
            (Deleted, "domains/old.json")]).
  reflexivity.
Defined.

(** C4 (as stated) fails: the entry is under [domains/] with the [.json]
    extension, and the validator does not select it. *)
Lemma C4_counterexample :
  in_scope "domains/blog.json" = true
  /\ render [feed_line (Added, "domains/blog.json")] = "A domains/blog.json"
  /\ files "A domains/blog.json" = [].
Proof. repeat split. Qed.

End FeedFacts.

(** * Running the sync script: the zone listing *)
Module RunFacts.
Import JsString Js Json Remote Sync SyncSpec StringFacts.

Lemma bind_run {A B : Type} (m : M A) (k : A -> M B) (w : world) :
  (m ≫= k) w = match m w with
               | Done a w' => k a w'
               | Thrown w' => Thrown w'
               | Stuck w' => Stuck w'
               end.
Proof. reflexivity. Qed.

Lemma bind_done {A B : Type} (m : M A) (k : A -> M B) (w w' : world) (a : A) :
  m w = Done a w' -> (m ≫= k) w = k a w'.
Proof. intros H. rewrite bind_run, H. reflexivity. Qed.

Lemma logged_nil w : logged w [] = w.
Proof. destruct w. unfold logged. simpl. rewrite List.app_nil_r. reflexivity. Qed.

Lemma logged_app w cs1 cs2 : logged (logged w cs1) cs2 = logged w (cs1 ++ cs2).
Proof. unfold logged. simpl. rewrite List.app_assoc. reflexivity. Qed.

Lemma cf_list_records_run page w :
  cf_list_records page w
  = Done (take PAGE_SIZE (drop (PAGE_SIZE * (page - 1)) (zone_records (remote w))))
      (logged w [ListRecords page]).
Proof. reflexivity. Qed.

(** The pagination loop, started on page [page] with the first
    [PAGE_SIZE * (page - 1)] records accumulated, returns the whole zone
    when it has fuel for the pages that remain. *)
Lemma listAllRecords_loop_run fuel : forall page w,
  1 <= page ->
  PAGE_SIZE * (page - 1) <= length (zone_records (remote w)) ->
  length (zone_records (remote w)) < PAGE_SIZE * (page - 1) + PAGE_SIZE * fuel ->
  exists n,
    listAllRecords_loop fuel page
      (take (PAGE_SIZE * (page - 1)) (zone_records (remote w))) w
    = Done (zone_records (remote w)) (logged w (map ListRecords (seq page n))).
Proof.
  induction fuel as [|fuel IH]; intros page w Hpage Hoff Hfuel.
  - exfalso. lia.
  - cbn [listAllRecords_loop]. rewrite bind_run, cf_list_records_run.
    set (recs := zone_records (remote w)) in *.
    set (off := PAGE_SIZE * (page - 1)) in *.
    assert (take off recs ++ take PAGE_SIZE (drop off recs)
            = take (off + PAGE_SIZE) recs) as Hacc
      by apply take_take_drop.
    rewrite Hacc.
    destruct (Nat.ltb_spec (length (take PAGE_SIZE (drop off recs))) PAGE_SIZE) as [Hlt|Hge].
    + exists 1. rewrite take_ge; [reflexivity|].
      rewrite length_take, length_drop in Hlt. clearbody off. lia.
    + rewrite length_take, length_drop in Hge.
      assert (off + PAGE_SIZE = PAGE_SIZE * (S page - 1)) as Hnext
        by (unfold off, PAGE_SIZE; lia).
      rewrite Hnext.
      destruct (IH (S page) (logged w [ListRecords page])) as [n Hn]; [lia| | |].
      * cbn [logged remote]. fold recs. rewrite <- Hnext. clearbody off. lia.
      * cbn [logged remote]. fold recs. rewrite <- Hnext. clearbody off.
        unfold PAGE_SIZE in *. lia.
      * exists (S n). cbn [logged remote] in Hn. fold recs in Hn.
        rewrite Hn, logged_app. reflexivity.
Qed.

Theorem listAllRecords_run w :
  exists pages,
    listAllRecords w
    = Done (zone_records (remote w)) (logged w (map ListRecords pages)).
Proof.
  unfold listAllRecords. rewrite bind_run. cbn [get_zone].
  destruct (listAllRecords_loop_run
              (S (length (zone_records (remote w)) / PAGE_SIZE)) 1 w) as [n Hn];
    [lia|simpl; lia| |eauto].
  pose proof (Nat.div_mod_eq (length (zone_records (remote w))) PAGE_SIZE).
  pose proof (Nat.mod_upper_bound (length (zone_records (remote w))) PAGE_SIZE).
  unfold PAGE_SIZE in *. lia.
Qed.

End RunFacts.

(** * Redirect-rule convergence *)
Module RedirectFacts.
Import JsString Js Json Remote Sync SyncSpec StringFacts RunFacts.

Lemma find_some_exists {A : Type} (f : A -> bool) l x :
  List.find f l = Some x -> existsb f l = true.
Proof.
  induction l as [|y l IH]; [discriminate|]. simpl.
  destruct (f y); [reflexivity|]. exact IH.
Qed.

Lemma find_redirect_by_id l s :
  List.find is_redirect_ruleset l = Some s ->
  exists s', List.find (is_ruleset (rs_id s)) l = Some s'.
Proof.
  intros H. apply find_some in H as [Hin _].
  destruct (List.find (is_ruleset (rs_id s)) l) as [s'|] eqn:E; [eauto|].
  exfalso. pose proof (find_none _ _ E s Hin) as Hs.
  unfold is_ruleset in Hs. rewrite Nat.eqb_refl in Hs. discriminate.
Qed.

Lemma fresh_ruleset_id_unused z :
  List.find (is_ruleset (fresh_ruleset_id z)) (zone_rulesets z) = None.
Proof.
  unfold fresh_ruleset_id.
  assert (forall l n, list_max (map rs_id l) < n ->
            List.find (is_ruleset n) l = None) as H.
  { induction l as [|s l IH]; intros n Hn; [reflexivity|]. simpl in *.
    unfold is_ruleset at 1. destruct (Nat.eqb_spec (rs_id s) n); [lia|].
    apply IH. lia. }
  apply H. lia.
Qed.

Lemma find_app_none {A : Type} (f : A -> bool) l1 l2 :
  List.find f l1 = None -> List.find f (l1 ++ l2) = List.find f l2.
Proof.
  induction l1 as [|x l1 IH]; [reflexivity|]. simpl.
  destruct (f x); [discriminate|]. exact IH.
Qed.

Lemma stored_rules_created z :
  stored_rules (fresh_ruleset_id z) (with_ruleset z (created_ruleset z)) = [].
Proof.
  unfold stored_rules, with_ruleset. cbn [zone_rulesets].
  rewrite find_app_none by apply fresh_ruleset_id_unused.
  simpl. unfold is_ruleset. cbn [rs_id created_ruleset]. rewrite Nat.eqb_refl.
  reflexivity.
Qed.

Lemma cf_list_rulesets_run w :
  cf_list_rulesets w = Done (zone_rulesets (remote w)) (logged w [ListRulesets]).
Proof. reflexivity. Qed.

Lemma cf_get_ruleset_run id w :
  cf_get_ruleset id w
  = match List.find (is_ruleset id) (zone_rulesets (remote w)) with
    | Some rs => Done rs (logged w [GetRuleset id])
    | None => Thrown (logged w [GetRuleset id])
    end.
Proof.
  unfold cf_get_ruleset, mbind, M_bind, log, get_zone, logged. cbn [remote trace].
  destruct (List.find _ _); reflexivity.
Qed.

Lemma cf_create_ruleset_run w :
  cf_create_ruleset w
  = Done (created_ruleset (remote w))
      {| remote := with_ruleset (remote w) (created_ruleset (remote w));
         trace := trace w ++ [CreateRuleset] |}.
Proof. reflexivity. Qed.

Lemma cf_put_ruleset_run id new_rules w :
  existsb (is_ruleset id) (zone_rulesets (remote w)) = true ->
  exists z',
    cf_put_ruleset id new_rules w
    = Done tt {| remote := z'; trace := trace w ++ [PutRuleset id new_rules] |}
    /\ zone_records z' = zone_records (remote w)
    /\ stored_rules id z' = new_rules.
Proof.
  intros H. unfold cf_put_ruleset, mbind, M_bind, log, get_zone. cbn [remote trace].
  rewrite H. eexists. split; [reflexivity|]. split; [reflexivity|].
  unfold stored_rules. cbn [zone_rulesets].
  induction (zone_rulesets (remote w)) as [|s l IH]; [discriminate|].
  cbn [existsb map List.find] in *. destruct (is_ruleset id s) eqn:E.
  - unfold is_ruleset at 1. cbn [rs_id]. fold (is_ruleset id s). rewrite E.
    reflexivity.
  - rewrite E. apply IH. exact H.
Qed.

(** "Get or Create", then the read: always succeeds, leaves the DNS
    records alone, and hands back a ruleset that exists in the zone. *)
Lemma fetch_current_rules_run w :
  match List.find is_redirect_ruleset (zone_rulesets (remote w)) with
  | Some s =>
      fetch_current_rules w
      = Done (s, stored_rules (rs_id s) (remote w))
          (logged w [ListRulesets; GetRuleset (rs_id s)])
  | None =>
      let rs := created_ruleset (remote w) in
      fetch_current_rules w
      = Done (rs, [])
          {| remote := with_ruleset (remote w) rs;
             trace := trace w ++ [ListRulesets; CreateRuleset; GetRuleset (rs_id rs)] |}
  end.
Proof.
  unfold fetch_current_rules. rewrite bind_run, cf_list_rulesets_run.
  change (fun s => String.eqb (phase s) REDIRECT_PHASE && String.eqb (kind s) "zone")
    with is_redirect_ruleset.
  destruct (List.find is_redirect_ruleset (zone_rulesets (remote w))) as [s|] eqn:E.
  - destruct (find_redirect_by_id _ _ E) as [s' Hs'].
    rewrite bind_run. cbn [mret M_ret]. rewrite bind_run, cf_get_ruleset_run.
    cbn [remote logged]. rewrite Hs'. unfold stored_rules. rewrite Hs'.
    rewrite logged_app. reflexivity.
  - cbv zeta. rewrite bind_run, cf_create_ruleset_run.
    rewrite bind_run, cf_get_ruleset_run. cbn [remote trace logged].
    pose proof (stored_rules_created (remote w)) as Hst.
    unfold stored_rules in Hst. cbn [rs_id created_ruleset] in *.
    destruct (List.find _ (zone_rulesets (with_ruleset _ _))) as [rs|] eqn:Ers.
    + unfold with_ruleset in Ers. cbn [zone_rulesets] in Ers.
      rewrite find_app_none in Ers by apply fresh_ruleset_id_unused.
      cbn [List.find] in Ers. unfold is_ruleset in Ers. cbn [rs_id] in Ers.
      rewrite Nat.eqb_refl in Ers. injection Ers as <-.
      unfold logged. cbn [mret M_ret rules created_ruleset remote trace].
      rewrite <- !List.app_assoc. reflexivity.
    + exfalso. unfold with_ruleset in Ers. cbn [zone_rulesets] in Ers.
      rewrite find_app_none in Ers by apply fresh_ruleset_id_unused.
      cbn [List.find] in Ers. unfold is_ruleset in Ers. cbn [rs_id] in Ers.
      rewrite Nat.eqb_refl in Ers. discriminate.
Qed.

Lemma filter_full {A : Type} (f : A -> bool) l :
  length (List.filter f l) = length l -> List.filter f l = l.
Proof.
  induction l as [|x l IH]; [reflexivity|]. simpl.
  pose proof (List.filter_length_le f l) as Hle. destruct (f x); simpl; [|lia].
  intros [= Hlen]. f_equal. auto.
Qed.


(** What one call of [syncRedirects] does, after its read. *)
Lemma syncRedirects_run sub urlRecords domain w ruleset currentRules w1 :
  fetch_current_rules w = Done (ruleset, currentRules) w1 ->
  existsb (is_ruleset (rs_id ruleset)) (zone_rulesets (remote w1)) = true ->
  stored_rules (rs_id ruleset) (remote w1) = currentRules ->
  let hostname := sub +:+ "." +:+ domain in
  let otherRules := List.filter (fun r => negb (owned_by hostname r)) currentRules in
  let newRules := map (new_rule hostname) urlRecords in
  exists w2,
    syncRedirects sub urlRecords domain w = Done tt w2
    /\ zone_records (remote w2) = zone_records (remote w1)
    /\ stored_rules (rs_id ruleset) (remote w2) = otherRules ++ newRules
    /\ (trace w2 = trace w1 ++ [PutRuleset (rs_id ruleset) (otherRules ++ newRules)]
        /\ (urlRecords <> [] \/ otherRules <> currentRules)
        \/ w2 = w1 /\ otherRules = currentRules /\ urlRecords = []).
Proof.
  intros Hfetch Hex Hst hostname otherRules newRules.
  unfold syncRedirects. rewrite bind_run, Hfetch. fold hostname otherRules newRules.
  destruct (negb (length otherRules + length newRules =? length currentRules)%nat
            || (0 <? length newRules)%nat) eqn:Eguard.
  - destruct (cf_put_ruleset_run (rs_id ruleset) (otherRules ++ newRules) w1 Hex)
      as (z' & Hput & Hrecs & Hrules).
    eexists. split; [exact Hput|]. cbn [remote trace].
    split; [exact Hrecs|]. split; [exact Hrules|]. left. split; [reflexivity|].
    apply orb_true_iff in Eguard as [H|H].
    + apply negb_true_iff, Nat.eqb_neq in H.
      destruct urlRecords as [|u us]; [|left; discriminate]. right.
      intros Heq. apply H. unfold newRules. simpl. rewrite Heq. lia.
    + apply Nat.ltb_lt in H. left. intros ->. simpl in H. lia.
  - apply orb_false_iff in Eguard as [H1 H2].
    apply negb_false_iff, Nat.eqb_eq in H1. apply Nat.ltb_ge in H2.
    assert (urlRecords = []) as Hu.
    { destruct urlRecords; [reflexivity|]. simpl in H2. lia. }
    assert (length newRules = 0) as Hn by (unfold newRules; rewrite Hu; reflexivity).
    assert (otherRules = currentRules) as Ho.
    { apply filter_full. fold otherRules. rewrite Hn in H1. lia. }
    exists w1. split; [reflexivity|]. split; [reflexivity|].
    split; [|right; auto].
    rewrite Hst, Ho. unfold newRules. rewrite Hu. simpl.
    rewrite List.app_nil_r. reflexivity.
Qed.

(** The read of [syncRedirects] always succeeds, and what it returns is
    a ruleset of the zone together with the rules stored for it. *)
Lemma fetch_current_rules_total w :
  exists ruleset w1,
    fetch_current_rules w
    = Done (ruleset, stored_rules (rs_id ruleset) (remote w1)) w1
    /\ existsb (is_ruleset (rs_id ruleset)) (zone_rulesets (remote w1)) = true
    /\ zone_records (remote w1) = zone_records (remote w).
Proof.
  pose proof (fetch_current_rules_run w) as H.
  destruct (List.find is_redirect_ruleset (zone_rulesets (remote w))) as [s|] eqn:E.
  - exists s, (logged w [ListRulesets; GetRuleset (rs_id s)]).
    split; [exact H|]. split; [|reflexivity].
    destruct (find_redirect_by_id _ _ E) as [s' Hs'].
    exact (find_some_exists _ _ _ Hs').
  - cbv zeta in H.
    exists (created_ruleset (remote w)),
      {| remote := with_ruleset (remote w) (created_ruleset (remote w));
         trace := trace w ++ [ListRulesets; CreateRuleset;
                              GetRuleset (rs_id (created_ruleset (remote w)))] |}.
    split.
    + rewrite H. cbn [remote].
      change (rs_id (created_ruleset (remote w))) with (fresh_ruleset_id (remote w)).
      rewrite stored_rules_created. reflexivity.
    + split; [|reflexivity]. cbn [remote with_ruleset zone_rulesets].
      rewrite existsb_app. cbn [existsb]. unfold is_ruleset at 2.
      rewrite Nat.eqb_refl. apply orb_true_iff. right. reflexivity.
Qed.


End RedirectFacts.

(** * A converged zone *)
Module ConvergedFacts.
Import JsString Js Json Remote Sync SyncSpec.
Import StringFacts RunFacts RedirectFacts.

Lemma strict_eq_VStr s v : strict_eq (VStr s) v = true -> v = VStr s.
Proof.
  destruct v; try discriminate. simpl. intros H%String.eqb_eq. congruence.
Qed.

Lemma same_key_key_eqb payload a b :
  same_key payload a = true -> same_key payload b = true -> key_eqb a b = true.
Proof.
  unfold same_key, key_eqb.
  intros [Ht1%strict_eq_VStr Hn1%strict_eq_VStr]%andb_true_iff
         [Ht2%strict_eq_VStr Hn2%strict_eq_VStr]%andb_true_iff.
  rewrite Ht1 in Ht2. rewrite Hn1 in Hn2. injection Ht2 as ->. injection Hn2 as ->.
  rewrite !String.eqb_refl. reflexivity.
Qed.

Lemma key_eqb_sym a b : key_eqb a b = key_eqb b a.
Proof. unfold key_eqb. rewrite (String.eqb_sym (rec_type a)), (String.eqb_sym (rec_name a)). reflexivity. Qed.

Lemma unique_keys_eq l a b :
  unique_keys l = true -> In a l -> In b l -> key_eqb a b = true -> a = b.
Proof.
  induction l as [|e l IH]; [contradiction|]. cbn [unique_keys].
  intros [Hfresh Hl]%andb_true_iff Ha Hb Hk.
  apply negb_true_iff in Hfresh.
  assert (forall x, In x l -> key_eqb e x = false) as Hnone.
  { intros x Hx. destruct (key_eqb e x) eqn:E; [|reflexivity].
    assert (existsb (key_eqb e) l = true) by (apply existsb_exists; eauto).
    congruence. }
  destruct Ha as [<-|Ha], Hb as [<-|Hb]; [reflexivity| | |auto].
  - rewrite (Hnone b Hb) in Hk. discriminate.
  - rewrite key_eqb_sym, (Hnone a Ha) in Hk. discriminate.
Qed.

(** In a zone with unique keys, the first match of a payload is the
    record that carries it. *)
Lemma find_match_realised existing payload e :
  unique_keys existing = true -> In e existing -> same_key payload e = true ->
  find_match existing payload = Some e.
Proof.
  intros Hu He Hk. unfold find_match.
  destruct (List.find (same_key payload) existing) as [m|] eqn:E.
  - apply find_some in E as [Hm Hkm]. f_equal.
    eapply unique_keys_eq; eauto using same_key_key_eqb.
  - rewrite (find_none _ _ E e He) in Hk. discriminate.
Qed.

(** When every desired record is carried by a remote record, the record
    loop issues no call and keeps every wanted remote record. *)
Lemma sync_records_noop existing rs : forall keep w,
  unique_keys existing = true ->
  forallb (realised_by existing) rs = true ->
  exists keep',
    sync_records existing rs keep w = Done keep' w
    /\ keep ⊆ keep'
    /\ forall e, In e existing -> wanted_by rs e = true -> rec_id e ∈ keep'.
Proof.
  induction rs as [|r rs IH]; intros keep w Hu Hall.
  - exists keep. split; [reflexivity|]. split; [set_solver|]. discriminate.
  - cbn [forallb] in Hall. apply andb_true_iff in Hall as [Hr Hrs].
    unfold realised_by in Hr. cbn [sync_records].
    destruct (buildPayload r) as [payload|] eqn:Ep; [|discriminate].
    apply existsb_exists in Hr as (e & He & [Hk Hsame]%andb_true_iff).
    rewrite (find_match_realised existing payload e Hu He Hk).
    rewrite bind_run, Hsame. cbn [negb mret M_ret].
    destruct (IH ({[rec_id e]} ∪ keep) w Hu Hrs) as (keep' & Hrun & Hsub & Hcov).
    exists keep'. split; [exact Hrun|]. split; [set_solver|].
    intros e' He' Hw. cbn [wanted_by existsb] in Hw.
    apply orb_true_iff in Hw as [Hw|Hw]; [|apply Hcov; assumption].
    rewrite Ep in Hw.
    assert (e' = e) as -> by (eapply unique_keys_eq; eauto using same_key_key_eqb).
    set_solver.
Qed.

Lemma cleanup_noop existing keep w :
  (forall e, In e existing -> rec_id e ∈ keep) -> cleanup existing keep w = Done tt w.
Proof.
  induction existing as [|e existing IH]; intros H; [reflexivity|].
  cbn [cleanup]. rewrite bool_decide_eq_true_2 by (apply H; left; reflexivity).
  rewrite bind_run. cbn [mret M_ret]. apply IH. intros e' He'. apply H. right. exact He'.
Qed.

Lemma filter_list_records (f : call -> bool) pages :
  (forall page, f (ListRecords page) = false) ->
  List.filter f (map ListRecords pages) = [].
Proof.
  intros H. induction pages as [|p pages IH]; [reflexivity|].
  simpl. rewrite H. exact IH.
Qed.

Lemma filter_partition_perm {A : Type} (f : A -> bool) l :
  Permutation (List.filter (fun x => negb (f x)) l ++ List.filter f l) l.
Proof.
  induction l as [|x l IH]; [constructor|]. simpl. destruct (f x); simpl.
  - symmetry. apply Permutation_cons_app. symmetry. exact IH.
  - constructor. exact IH.
Qed.

End ConvergedFacts.

(** * A further run on a converged zone *)
Module IdempotenceFacts.
Import JsString Js Json Validator ValidatorRun.
Import Remote Sync SyncSpec.
Import StringFacts RunFacts RedirectFacts ConvergedFacts.

(** The run of [applyFile] on a converged zone: the zone listing, then
    nothing for a definition without URL records, and otherwise the
    ruleset read followed by the replace call. *)
Lemma applyData_converged_run data domain w :
  converged data domain (remote w) ->
  let hostname := subdomain data +:+ "." +:+ domain in
  let urlRecords := List.filter is_url (records data) in
  exists pages w2,
    applyData data domain w = Done tt w2
    /\ (urlRecords = [] /\ trace w2 = trace w ++ map ListRecords pages
        \/ urlRecords <> []
           /\ exists s,
                List.find is_redirect_ruleset (zone_rulesets (remote w)) = Some s
                /\ trace w2
                   = trace w ++ map ListRecords pages
                     ++ [ListRulesets; GetRuleset (rs_id s);
                         PutRuleset (rs_id s)
                           (List.filter (fun r => negb (owned_by hostname r))
                              (stored_rules (rs_id s) (remote w))
                            ++ map (new_rule hostname) urlRecords)]).
Proof.
  intros [Hdns Hred] hostname urlRecords.
  unfold dns_converged in Hdns. cbv zeta in Hdns.
  apply andb_true_iff in Hdns as [[Hall Hcover]%andb_true_iff Huniq].
  destruct (listAllRecords_run w) as [pages Hlist].
  set (w1 := logged w (map ListRecords pages)) in *.
  set (existing := recordsForSubdomain (subdomain data) (zone_records (remote w)) domain) in *.
  destruct (sync_records_noop existing (records data) ∅ w1 Huniq Hall)
    as (keep & Hsync & _ & Hkeep).
  assert (forall w', cleanup existing keep w' = Done tt w') as Hclean.
  { intros w'. apply cleanup_noop. intros e He. apply Hkeep; [exact He|].
    rewrite forallb_forall in Hcover. apply Hcover, He. }
  exists pages. unfold applyData.
  rewrite (bind_done _ _ _ _ _ Hlist). fold existing.
  rewrite (bind_done _ _ _ _ _ Hsync). fold urlRecords.
  destruct urlRecords as [|u us] eqn:Eurls.
  - exists w1. cbn [length Nat.ltb Nat.leb]. rewrite bind_run. cbn [mret M_ret].
    split; [apply Hclean|]. left. split; reflexivity.
  - unfold redirects_converged in Hred. cbv zeta in Hred.
    fold urlRecords in Hred. rewrite Eurls in Hred.
    destruct (List.find is_redirect_ruleset (zone_rulesets (remote w))) as [s|] eqn:Efind;
      [|discriminate].
    pose proof (fetch_current_rules_run w1) as Hfetch.
    change (remote w1) with (remote w) in Hfetch. rewrite Efind in Hfetch.
    destruct (find_redirect_by_id _ _ Efind) as [s' Hs'].
    destruct (syncRedirects_run (subdomain data) (u :: us) domain w1 s _ _ Hfetch
                (find_some_exists _ _ _ Hs') eq_refl)
      as (w2 & Hrun & _ & _ & [[Htrace _]|(_ & _ & Habs)]); [|discriminate].
    exists w2. change (0 <? length (u :: us))%nat with true. cbv iota.
    rewrite bind_run, Hrun. split; [apply Hclean|]. right. split; [discriminate|].
    exists s. split; [reflexivity|]. rewrite Htrace. cbn [trace logged w1].
    rewrite <- !List.app_assoc. reflexivity.
Qed.

(** On a zone converged to the desired state, a further
    run issues no DNS update, create or delete call. The ruleset is left
    alone when the definition has no URL record; when it has one, the
    run issues exactly one ruleset replace call, which writes back the
    rules the ruleset already holds (the other hostnames' rules first). *)
Lemma converged_run_writes (data : definition) (domain : string) (z : zone) :
  converged data domain z ->
  let calls := calls_of (applyData data domain) z in
  List.filter is_dns_write calls = []
  /\ match List.filter is_url (records data) with
     | [] => List.filter is_write calls = []
     | _ :: _ =>
         exists id written,
           List.filter is_write calls = [PutRuleset id written]
           /\ Permutation written (stored_rules id z)
     end.
Proof.
  intros Hconv calls.
  destruct (applyData_converged_run data domain {| remote := z; trace := [] |} Hconv)
    as (pages & w2 & Hrun & Hcases).
  assert (calls = trace w2) as -> by (unfold calls, calls_of; rewrite Hrun; reflexivity).
  cbn [remote trace] in Hcases.
  destruct Hcases as [[Hurls ->]|(Hurls & s & Hfind & ->)].
  - rewrite Hurls. cbn [app]. rewrite !filter_list_records by reflexivity. auto.
  - cbn [app]. rewrite !List.filter_app, !filter_list_records by reflexivity.
    split; [reflexivity|].
    destruct (List.filter is_url (records data)) as [|u us] eqn:Eurls; [congruence|].
    eexists _, _. split; [reflexivity|].
    destruct Hconv as [_ Hred]. unfold redirects_converged in Hred. cbv zeta in Hred.
    rewrite Hfind, Eurls in Hred. rewrite <- Hred. apply filter_partition_perm.
Qed.

Example converged_run_writes_dev_site :
  converged dev_site "is-an-ai.dev" dev_site_zone
  /\ List.filter is_dns_write (calls_of (applyData dev_site "is-an-ai.dev") dev_site_zone)
     = []
  /\ List.filter is_write (calls_of (applyData dev_site "is-an-ai.dev") dev_site_zone)
     = [].
Proof.
  assert (converged dev_site "is-an-ai.dev" dev_site_zone) as H
    by (split; reflexivity).
  split; [exact H|].
  exact (converged_run_writes dev_site "is-an-ai.dev" dev_site_zone H).
Defined.

(** With a URL record the ruleset is written on every run: the
    definition passes validation, the zone is converged to it, and the
    run still issues the ruleset replace call. *)
Remark converged_url_run_writes_ruleset :
  validate_file [] "domains/dev.json" (Parsed (definition_value "a" dev_link)) = Ok tt
  /\ converged dev_link "is-an-ai.dev" dev_link_zone
  /\ calls_of (applyData dev_link "is-an-ai.dev") dev_link_zone
     = [ListRecords 1; ListRulesets; GetRuleset 3;
        PutRuleset 3 [new_rule "dev.is-an-ai.dev"
                        [("type", VStr "URL"); ("name", VStr "dev.is-an-ai.dev");
                         ("value", VStr "https://example.org/")]]].
Proof.
  split; [vm_compute; reflexivity|]. split; [split; reflexivity|].
  vm_compute. reflexivity.
Qed.

(** C1: the first scenario of the specification, run twice in
    succession. The definition passes validation and the first run, on
    an empty zone, creates its record, named [blog] as the validator
    wants it. The second run looks for its records under
    [blog.example.com], finds none and issues the same create call
    again, leaving two records; and when the provider stores the record
    under its full name, the second run finds it in scope but not under
    the key [(A, blog)], creates the record again and deletes the one
    the first run made. *)
Theorem C1_second_run_creates_again :
  validate_file [] "domains/blog.json" (Parsed (definition_value "a" blog_definition))
  = Ok tt
  /\ calls_of (Sync.main blog_files "A domains/blog.json" "example.com") empty_zone
     = [ListRecords 1; CreateRecord blog_payload]
  /\ remote (final_world (Sync.main blog_files "A domains/blog.json" "example.com"
                            {| remote := empty_zone; trace := [] |}))
     = blog_zone
  /\ calls_of (Sync.main blog_files "A domains/blog.json" "example.com") blog_zone
     = [ListRecords 1; CreateRecord blog_payload]
  /\ length (zone_records
               (remote (final_world (Sync.main blog_files "A domains/blog.json" "example.com"
                                       {| remote := blog_zone; trace := [] |}))))
     = 2
  /\ calls_of (Sync.main blog_files "A domains/blog.json" "example.com") blog_zone_full_name
     = [ListRecords 1; CreateRecord blog_payload; DeleteRecord 1].
Proof. repeat split; vm_compute; reflexivity. Qed.

End IdempotenceFacts.

(** * Order of the calls, and the payload of address records *)
Module OrderFacts.
Import JsString Js Json Validator ValidatorRun ValidatorSpec.
Import Remote Sync SyncSpec.

(** C2: on an added or modified file, [applyFile] deletes the unkept
    record only after the ruleset has been read and replaced; the branch
    for a deleted file issues its deletes before it turns to the
    ruleset. *)
Theorem C2_delete_after_redirects :
  validate_file [] "domains/go.json" (Parsed (definition_value "a" go_definition)) = Ok tt
  /\ calls_of (Sync.main go_files "A domains/go.json" "example.com") stale_zone
     = [ListRecords 1;
        CreateRecord [("type", VStr "AAAA"); ("name", VStr "go");
                      ("content", VStr "100::"); ("ttl", VNum 1); ("proxied", VBool true)];
        ListRulesets; GetRuleset 3;
        PutRuleset 3 [new_rule "go.example.com"
                        [("type", VStr "URL"); ("name", VStr "go");
                         ("value", VStr "https://example.org/")]];
        DeleteRecord 9]
  /\ calls_of (Sync.main go_files "D domains/go.json" "example.com") stale_zone
     = [ListRecords 1; DeleteRecord 9; ListRulesets; GetRuleset 3].
Proof. repeat split; vm_compute; reflexivity. Qed.

(** C3: the validator accepts the lower-case type, and [buildPayload]
    gives the record neither [content] nor [proxied]; with the type in
    upper case both are set. *)
Theorem C3_lowercase_type_payload :
  validate_record "blog" (VObj lowercase_record) sample_flags = Ok sample_flags
  /\ buildPayload lowercase_record
     = Some [("type", VStr "a"); ("name", VStr "blog"); ("ttl", VNum 1)]
  /\ buildPayload uppercase_record
     = Some [("type", VStr "A"); ("name", VStr "blog"); ("ttl", VNum 1);
             ("proxied", VBool true); ("content", VStr "203.0.113.5")].
Proof. repeat split. Qed.

(** A type that is not spelled exactly as one of the eleven names gets
    the bare payload, whatever its upper-case form is. *)
Lemma buildPayload_other_spelling r t :
  get r "type" = VStr t -> str_includes ALLOWED_TYPES t = false ->
  buildPayload r = Some [("type", VStr t); ("name", get r "name"); ("ttl", VNum 1)].
Proof.
  intros Ht Hno. unfold buildPayload. rewrite Ht.
  unfold ALLOWED_TYPES in Hno. cbn [str_includes] in Hno.
  repeat match type of Hno with
         | (if String.eqb ?x t then true else _) = false =>
             let E := fresh "E" in
             destruct (String.eqb x t) eqn:E; [discriminate|];
             try rewrite (String.eqb_sym x t) in E
         end.
  cbn [strict_eq includes_value str_includes].
  rewrite ?(String.eqb_sym _ t).
  repeat match goal with E : String.eqb t _ = false |- _ => rewrite E; clear E end.
  reflexivity.
Qed.

(** With the type spelled exactly, the payload carries the value and the
    proxied flag as the specification says. *)
Lemma buildPayload_address r t :
  get r "type" = VStr t -> In t ["A"; "AAAA"; "CNAME"] ->
  exists payload,
    buildPayload r = Some payload
    /\ get payload "content" = get r "value"
    /\ get payload "proxied" = nullish (get r "proxied") (VBool false)
    /\ get payload "ttl" = VNum 1.
Proof.
  intros Ht Hin. unfold buildPayload. rewrite Ht.
  destruct Hin as [<-|[<-|[<-|[]]]]; eexists; (split; [reflexivity|]);
    repeat split.
Qed.

End OrderFacts.

(** * The phases of [applyFile] *)
Module PhaseFacts.
Import JsString Js Json Remote Sync SyncSpec.
Import RunFacts RedirectFacts.

Lemma emits_ret {A : Type} P (a : A) : emits P (mret a).
Proof. intros w. exists []. rewrite List.app_nil_r. split; reflexivity. Qed.

Lemma emits_throw {A : Type} P : emits P (@throw A).
Proof. intros w. exists []. rewrite List.app_nil_r. split; reflexivity. Qed.

Lemma emits_bind {A B : Type} P (m : M A) (k : A -> M B) :
  emits P m -> (forall a, emits P (k a)) -> emits P (m ≫= k).
Proof.
  intros Hm Hk w. destruct (Hm w) as (cs1 & H1 & P1). rewrite bind_run.
  destruct (m w) as [a w1|w1|w1]; cbn [final_world] in *; [|eauto..].
  destruct (Hk a w1) as (cs2 & H2 & P2). exists (cs1 ++ cs2).
  rewrite H2, H1, List.app_assoc, forallb_app, P1, P2. split; reflexivity.
Qed.

Lemma emits_update P id payload :
  P (UpdateRecord id payload) = true -> emits P (cf_update_record id payload).
Proof.
  intros H w. exists [UpdateRecord id payload]. cbn [forallb]. rewrite H.
  split; [|reflexivity].
  unfold cf_update_record, mbind, M_bind, log, get_zone. cbn [remote trace].
  destruct (record_of_payload id payload); [|reflexivity].
  destruct (existsb _ _); reflexivity.
Qed.

Lemma emits_create P payload :
  P (CreateRecord payload) = true -> emits P (cf_create_record payload).
Proof.
  intros H w. exists [CreateRecord payload]. cbn [forallb]. rewrite H.
  split; [|reflexivity].
  unfold cf_create_record, mbind, M_bind, log, get_zone. cbn [remote trace].
  destruct (record_of_payload _ payload); reflexivity.
Qed.

Lemma emits_delete P id : P (DeleteRecord id) = true -> emits P (cf_delete_record id).
Proof.
  intros H w. exists [DeleteRecord id]. cbn [forallb]. rewrite H.
  split; [|reflexivity].
  unfold cf_delete_record, mbind, M_bind, log, get_zone. cbn [remote trace].
  destruct (existsb _ _); reflexivity.
Qed.

Lemma emits_listAllRecords : emits is_list listAllRecords.
Proof.
  intros w. destruct (listAllRecords_run w) as [pages H]. rewrite H.
  exists (map ListRecords pages). split; [reflexivity|].
  clear H. induction pages as [|p pages IH]; [reflexivity|]. exact IH.
Qed.

Lemma emits_sync_records existing rs : forall keep,
  emits is_upsert (sync_records existing rs keep).
Proof.
  induction rs as [|r rs IH]; intros keep; [apply emits_ret|].
  cbn [sync_records]. destruct (buildPayload r) as [payload|]; [|apply emits_throw].
  destruct (find_match existing payload) as [m|].
  - apply emits_bind; [|intros _; apply IH].
    destruct (negb _); [apply emits_update; reflexivity|apply emits_ret].
  - apply emits_bind; [apply emits_create; reflexivity|intros _; apply IH].
Qed.

Lemma emits_cleanup existing keep : emits is_delete (cleanup existing keep).
Proof.
  induction existing as [|r existing IH]; [apply emits_ret|].
  cbn [cleanup]. apply emits_bind; [|intros _; exact IH].
  destruct (bool_decide _); [apply emits_ret|apply emits_delete; reflexivity].
Qed.

Lemma emits_syncRedirects sub urlRecords domain :
  emits is_ruleset_call (syncRedirects sub urlRecords domain).
Proof.
  intros w.
  destruct (fetch_current_rules_total w) as (ruleset & w1 & Hfetch & Hex & _).
  destruct (syncRedirects_run sub urlRecords domain w ruleset _ w1 Hfetch Hex eq_refl)
    as (w2 & Hrun & _ & _ & Hcases).
  rewrite Hrun. cbn [final_world].
  assert (exists cs, trace w1 = trace w ++ cs /\ forallb is_ruleset_call cs = true)
    as (cs & H1 & P1).
  { pose proof (fetch_current_rules_run w) as H.
    destruct (List.find is_redirect_ruleset (zone_rulesets (remote w))).
    - rewrite H in Hfetch. injection Hfetch as _ _ <-. eexists. split; reflexivity.
    - cbv zeta in H. rewrite H in Hfetch. injection Hfetch as _ _ <-.
      eexists. split; reflexivity. }
  destruct Hcases as [[Ht _]|(-> & _)].
  - eexists (cs ++ [_]). rewrite Ht, H1, List.app_assoc, forallb_app, P1.
    split; reflexivity.
  - exists cs. auto.
Qed.

(** X20: the calls of [applyFile] come in four phases, in this order:
    the zone listing, the updates and creates, the ruleset calls, and
    last the deletes. *)
Theorem applyData_phases (data : definition) (domain : string) (w : world) :
  exists lists upserts redirects deletes,
    trace (final_world (applyData data domain w))
    = trace w ++ lists ++ upserts ++ redirects ++ deletes
    /\ forallb is_list lists = true
    /\ forallb is_upsert upserts = true
    /\ forallb is_ruleset_call redirects = true
    /\ forallb is_delete deletes = true.
Proof.
  unfold applyData. rewrite bind_run.
  destruct (emits_listAllRecords w) as (lists & H1 & P1).
  destruct (listAllRecords w) as [all w1|w1|w1]; cbn [final_world] in H1;
    [|exists lists, [], [], []; rewrite !List.app_nil_r; auto..].
  set (existing := recordsForSubdomain (subdomain data) all domain).
  rewrite bind_run.
  destruct (emits_sync_records existing (records data) ∅ w1) as (upserts & H2 & P2).
  destruct (sync_records existing (records data) ∅ w1) as [keep w2|w2|w2];
    cbn [final_world] in H2;
    [|exists lists, upserts, [], []; cbn [final_world];
      rewrite H2, H1, !List.app_nil_r, <- List.app_assoc; auto..].
  rewrite bind_run.
  assert (emits is_ruleset_call
            (if (0 <? length (List.filter is_url (records data)))%nat
             then syncRedirects (subdomain data) (List.filter is_url (records data)) domain
             else mret tt)) as Hred
    by (destruct (0 <? _)%nat; [apply emits_syncRedirects|apply emits_ret]).
  destruct (Hred w2) as (redirects & H3 & P3).
  destruct ((if (0 <? length (List.filter is_url (records data)))%nat
             then syncRedirects (subdomain data) (List.filter is_url (records data)) domain
             else mret tt) w2) as [[] w3|w3|w3]; cbn [final_world] in H3;
    [|exists lists, upserts, redirects, []; cbn [final_world];
      rewrite H3, H2, H1, !List.app_nil_r, <- !List.app_assoc; auto..].
  destruct (emits_cleanup existing keep w3) as (deletes & H4 & P4).
  exists lists, upserts, redirects, deletes.
  rewrite H4, H3, H2, H1, <- !List.app_assoc. auto.
Qed.

End PhaseFacts.

(** * The patterns of the validator *)
Module PatternFacts.
Import JsString Js Regex Validator ExtraSpec StringFacts RegexFacts.

Lemma Lang_Star_of_class p s : chars_in p s = true -> Lang (Star (Chr p)) s.
Proof.
induction s as [|a s IH]; [constructor|]. cbn [chars_in].
intros [Ha Hs]%andb_true_iff.
change (String a s) with (String a EmptyString +:+ s).
apply LStarS; [constructor; exact Ha|auto].
Qed.

(** X1: the subdomain pattern accepts exactly the non-empty strings of lower
    case letters, digits and hyphens. *)
Theorem subdomain_format (s : string) :
  test SUBDOMAIN_REGEX s = true
  <-> s <> EmptyString /\ chars_in subdomain_char s = true.
Proof.
split.
- intros [H1 H2]%test_Plus_class. auto.
- intros [Hne Hs]. destruct s as [|a s]; [congruence|].
  cbn [chars_in] in Hs. apply andb_true_iff in Hs as [Ha Hs].
  apply test_Lang. change (String a s) with (String a EmptyString +:+ s).
  apply LCat; [constructor; exact Ha|apply Lang_Star_of_class, Hs].
Qed.

Lemma Lang_Is c s : Lang (Is c) s <-> s = String c EmptyString.
Proof.
unfold Is. rewrite Lang_Chr. split.
- intros (a & -> & ->%Ascii.eqb_eq). reflexivity.
- intros ->. exists c. split; [reflexivity|apply Ascii.eqb_refl].
Qed.

Lemma Lang_Opt r s : Lang (Opt r) s <-> s = EmptyString \/ Lang r s.
Proof. unfold Opt. rewrite Lang_Alt, Lang_Eps. reflexivity. Qed.

Lemma in_range_bounds lo hi a :
  in_range lo hi a = true
  <-> nat_of_ascii lo <= nat_of_ascii a /\ nat_of_ascii a <= nat_of_ascii hi.
Proof.
unfold in_range. rewrite andb_true_iff, !Nat.leb_le. reflexivity.
Qed.

Lemma ascii_of_code a n : nat_of_ascii a = n -> a = ascii_of_nat n.
Proof. intros <-. symmetry. apply ascii_nat_embedding. Qed.

(** The words of [(25[0-5]|2[0-4]\d|1?\d?\d)], spelled out. *)
Lemma Lang_octet o :
  Lang octet o
  <-> (exists c, o = String "2" (String "5" (String c EmptyString))
                 /\ in_range "0" "5" c = true)
      \/ (exists c d, o = String "2" (String c (String d EmptyString))
                      /\ in_range "0" "4" c = true /\ is_digit d = true)
      \/ (exists d, o = String d EmptyString /\ is_digit d = true)
      \/ (exists c d, o = String c (String d EmptyString)
                      /\ is_digit c = true /\ is_digit d = true)
      \/ (exists c d, o = String "1" (String c (String d EmptyString))
                      /\ is_digit c = true /\ is_digit d = true).
Proof.
unfold octet, digit, Range, is_digit. split.
- intros [H|H]%Lang_Alt.
  + apply Lang_Cat in H as (s1 & s2 & -> & H1 & (c & -> & Hc)%Lang_Chr).
    cbn [Lit] in H1.
    apply Lang_Cat in H1 as (t1 & t2 & -> & ->%Lang_Is & H1).
    apply Lang_Cat in H1 as (t3 & t4 & -> & ->%Lang_Is & ->%Lang_Eps).
    left. exists c. split; [reflexivity|exact Hc].
  + apply Lang_Alt in H as [H|H].
    * apply Lang_Cat in H as (s1 & s2 & -> & ->%Lang_Is & H).
      apply Lang_Cat in H as (t1 & t2 & -> & (c & -> & Hc)%Lang_Chr
                              & (d & -> & Hd)%Lang_Chr).
      right. left. exists c, d. auto.
    * apply Lang_Cat in H as (s1 & s2 & -> & H1%Lang_Opt & H).
      apply Lang_Cat in H as (t1 & t2 & -> & H2%Lang_Opt & (d & -> & Hd)%Lang_Chr).
      destruct H1 as [->| ->%Lang_Is], H2 as [->|(c & -> & Hc)%Lang_Chr].
      -- right. right. left. exists d. auto.
      -- right. right. right. left. exists c, d. auto.
      -- right. right. right. left. exists "1"%char, d. auto.
      -- right. right. right. right. exists c, d. auto.
- intros [(c & -> & Hc)|[(c & d & -> & Hc & Hd)|[(d & -> & Hd)|[(c & d & -> & Hc & Hd)
         |(c & d & -> & Hc & Hd)]]]].
  + apply LAltL.
    change (String "2" (String "5" (String c EmptyString)))
      with ("25" +:+ String c EmptyString).
    apply LCat; [|constructor; exact Hc]. cbn [Lit].
    change "25" with (String "2" EmptyString +:+ (String "5" EmptyString +:+ EmptyString)).
    repeat (apply LCat; [apply Lang_Is; reflexivity|]). constructor.
  + apply LAltR, LAltL.
    change (String "2" (String c (String d EmptyString)))
      with ("2" +:+ (String c EmptyString +:+ String d EmptyString)).
    apply LCat; [apply Lang_Is; reflexivity|].
    apply LCat; constructor; assumption.
  + apply LAltR, LAltR.
    change (String d EmptyString) with (EmptyString +:+ (EmptyString +:+ String d EmptyString)).
    apply LCat; [apply Lang_Opt; auto|]. apply LCat; [apply Lang_Opt; auto|].
    constructor; exact Hd.
  + apply LAltR, LAltR.
    change (String c (String d EmptyString))
      with (EmptyString +:+ (String c EmptyString +:+ String d EmptyString)).
    apply LCat; [apply Lang_Opt; auto|].
    apply LCat; [apply Lang_Opt; right|]; constructor; assumption.
  + apply LAltR, LAltR.
    change (String "1" (String c (String d EmptyString)))
      with ("1" +:+ (String c EmptyString +:+ String d EmptyString)).
    apply LCat; [apply Lang_Opt; right; apply Lang_Is; reflexivity|].
    apply LCat; [apply Lang_Opt; right|]; constructor; assumption.
Qed.

Lemma is_digit_bounds a :
  is_digit a = true <-> 48 <= nat_of_ascii a <= 57.
Proof. unfold is_digit. rewrite in_range_bounds. reflexivity. Qed.

Lemma octet_ok_spec o :
  octet_ok o = true
  <-> chars_in is_digit o = true
      /\ 1 <= String.length o <= 3
      /\ decimal o <= 255
      /\ match o with
         | String a (String _ (String _ EmptyString)) => a <> "0"%char
         | _ => True
         end.
Proof.
unfold octet_ok. rewrite !andb_true_iff, !Nat.leb_le.
assert (match o with
        | String a (String _ (String _ EmptyString)) => negb (Ascii.eqb a "0")
        | _ => true
        end = true
        <-> match o with
            | String a (String _ (String _ EmptyString)) => a <> "0"%char
            | _ => True
            end) as ->; [|tauto].
destruct o as [|a [|b [|c [|d o]]]]; try tauto.
rewrite negb_true_iff. destruct (Ascii.eqb_spec a "0"); split; congruence.
Qed.

Ltac codes :=
  change (nat_of_ascii "0") with 48 in *; change (nat_of_ascii "1") with 49 in *;
  change (nat_of_ascii "2") with 50 in *; change (nat_of_ascii "4") with 52 in *;
  change (nat_of_ascii "5") with 53 in *.

(** The octet pattern accepts exactly the parts [octet_ok] describes. *)
Lemma test_octet o : test octet o = octet_ok o.
Proof.
apply eq_true_iff_eq. rewrite test_Lang, Lang_octet, octet_ok_spec. split.
- intros [(c & -> & Hc)|[(c & d & -> & Hc & Hd)|[(d & -> & Hd)|[(c & d & -> & Hc & Hd)
         |(c & d & -> & Hc & Hd)]]]];
    rewrite ?in_range_bounds, ?is_digit_bounds in *;
    cbn [chars_in String.length]; unfold decimal; cbn [decimal_from];
    unfold digit_value;
    rewrite ?andb_true_iff, ?is_digit_bounds; codes;
    repeat split; first [lia | discriminate].
- intros (Hd & Hlen & Hval & Hlead).
  destruct o as [|c1 [|c2 [|c3 [|c4 o]]]]; cbn [String.length] in Hlen; try lia;
    cbn [chars_in] in Hd; rewrite ?andb_true_iff, ?is_digit_bounds in Hd.
  + right. right. left. exists c1. rewrite is_digit_bounds. intuition.
  + right. right. right. left. exists c1, c2. rewrite !is_digit_bounds. intuition.
  + destruct Hd as (H1 & H2 & H3 & _).
    unfold decimal in Hval. cbn [decimal_from] in Hval. unfold digit_value in Hval.
    assert (nat_of_ascii c1 <> 48) as Hnz
      by (intros E; apply Hlead, (ascii_of_code _ _ E)).
    destruct (Nat.eq_dec (nat_of_ascii c1) 49) as [E1|N1].
    { rewrite (ascii_of_code _ _ E1). right. right. right. right.
      exists c2, c3. rewrite !is_digit_bounds. auto. }
    assert (nat_of_ascii c1 = 50) as E2 by lia.
    rewrite (ascii_of_code _ _ E2).
    destruct (Nat.eq_dec (nat_of_ascii c2) 53) as [E3|N3].
    { rewrite (ascii_of_code _ _ E3). left. exists c3. split; [reflexivity|].
      rewrite in_range_bounds. codes. lia. }
    right. left. exists c2, c3. split; [reflexivity|].
    rewrite in_range_bounds, is_digit_bounds. codes. lia.
Qed.

Lemma Lang_IPV4 s :
  Lang IPV4_REGEX s
  <-> exists a b c d,
        s = dotted a b c d
        /\ octet_ok a = true /\ octet_ok b = true
        /\ octet_ok c = true /\ octet_ok d = true.
Proof.
unfold IPV4_REGEX. cbn [Rep]. split.
- intros (a & s1 & -> & Ha & H)%Lang_Cat.
  apply Lang_Cat in H as (p1 & s2 & -> & H1 & H).
  apply Lang_Cat in H as (p2 & s3 & -> & H2 & H).
  apply Lang_Cat in H as (p3 & s4 & -> & H3 & ->%Lang_Eps).
  apply Lang_Cat in H1 as (? & b & -> & ->%Lang_Is & Hb).
  apply Lang_Cat in H2 as (? & c & -> & ->%Lang_Is & Hc).
  apply Lang_Cat in H3 as (? & d & -> & ->%Lang_Is & Hd).
  exists a, b, c, d. rewrite <- !test_octet, !test_Lang.
  split; [|auto]. unfold dotted. rewrite !append_assoc, append_nil_r. reflexivity.
- intros (a & b & c & d & -> & Ha & Hb & Hc & Hd).
  rewrite <- test_octet, test_Lang in Ha, Hb, Hc, Hd.
  replace (dotted a b c d)
    with (a +:+ (("." +:+ b) +:+ (("." +:+ c) +:+ (("." +:+ d) +:+ EmptyString))))
    by (unfold dotted; rewrite !append_assoc, append_nil_r; reflexivity).
  repeat (apply LCat; [first [assumption | apply LCat; [apply Lang_Is; reflexivity|assumption]]|]).
  constructor.
Qed.

(** X2: the IPv4 pattern accepts exactly the dotted quads whose four parts
    are numbers up to 255, written with one to three digits and without
    a leading zero on a three-digit part. *)
Theorem ipv4_pattern (s : string) :
  test IPV4_REGEX s = true
  <-> exists a b c d,
        s = dotted a b c d
        /\ octet_ok a = true /\ octet_ok b = true
        /\ octet_ok c = true /\ octet_ok d = true.
Proof. rewrite test_Lang. apply Lang_IPV4. Qed.

Lemma octet_ok_of_nat n : n <= 255 -> octet_ok (of_nat n) = true.
Proof.
intros H.
assert (forallb (fun n => octet_ok (of_nat n)) (seq 0 256) = true) as Hall
  by (vm_compute; reflexivity).
rewrite forallb_forall in Hall. apply Hall, in_seq. lia.
Qed.

(** X3: every address written as four decimal numbers up to 255 is accepted. *)
Theorem ipv4_canonical (a b c d : nat) :
  a <= 255 -> b <= 255 -> c <= 255 -> d <= 255 ->
  test IPV4_REGEX (dotted (of_nat a) (of_nat b) (of_nat c) (of_nat d)) = true.
Proof.
intros Ha Hb Hc Hd. apply test_Lang, Lang_IPV4.
exists (of_nat a), (of_nat b), (of_nat c), (of_nat d).
split; [reflexivity|]. repeat split; apply octet_ok_of_nat; assumption.
Qed.

Lemma ipv4_canonical_witness :
  203 <= 255 /\ 0 <= 255 /\ 113 <= 255 /\ 5 <= 255
  /\ test IPV4_REGEX (dotted (of_nat 203) (of_nat 0) (of_nat 113) (of_nat 5)) = true.
Proof.
assert (203 <= 255) as Ha by lia. assert (0 <= 255) as Hb by lia.
assert (113 <= 255) as Hc by lia. assert (5 <= 255) as Hd by lia.
repeat (split; [assumption|]).
exact (ipv4_canonical 203 0 113 5 Ha Hb Hc Hd).
Defined.

Lemma Lang_hex s : Lang hex s <-> exists a, s = String a EmptyString /\ is_hex a = true.
Proof.
unfold hex, Range, is_hex. rewrite !Lang_Alt, !Lang_Chr. split.
- intros [(a & -> & H)|[(a & -> & H)|(a & -> & H)]]; exists a; rewrite H;
    rewrite ?orb_true_r; auto.
- intros (a & -> & [[H|H]%orb_true_iff|H]%orb_true_iff); eauto 6.
Qed.

Lemma Lang_UpTo_hex n : forall s,
  Lang (UpTo n hex) s <-> chars_in is_hex s = true /\ String.length s <= n.
Proof.
induction n as [|n IH]; intros s; cbn [UpTo].
- rewrite Lang_Eps. split; [intros ->; split; [reflexivity|cbn; lia]|].
  intros [_ H]. destruct s; [reflexivity|cbn in H; lia].
- rewrite Lang_Opt, Lang_Cat. split.
  + intros [->|(s1 & s2 & -> & (a & -> & Ha)%Lang_hex & [H1 H2]%IH)].
    * split; [reflexivity|cbn; lia].
    * rewrite append_cons, append_nil_l. cbn [chars_in String.length].
      rewrite Ha, H1. split; [reflexivity|lia].
  + intros [Hc Hl]. destruct s as [|a s]; [left; reflexivity|right].
    cbn [chars_in String.length] in *. apply andb_true_iff in Hc as [Ha Hc].
    exists (String a EmptyString), s. split; [reflexivity|].
    split; [apply Lang_hex; eauto|apply IH; split; [exact Hc|lia]].
Qed.

(** [[0-9a-fA-F]{1,4}] accepts exactly the groups. *)
Lemma Lang_h14 g : Lang h14 g <-> group_ok g = true.
Proof.
unfold h14, RepRange, group_ok. cbn [Rep Nat.sub].
rewrite !andb_true_iff, !Nat.leb_le, Lang_Cat. split.
- intros (s1 & s2 & -> & (t1 & t2 & -> & (a & -> & Ha)%Lang_hex & ->%Lang_Eps)%Lang_Cat
          & [Hc Hl]%Lang_UpTo_hex).
  rewrite append_nil_r, append_cons, append_nil_l. cbn [chars_in String.length].
  rewrite Ha, Hc. repeat split; lia.
- intros [[Hc H1] H4]. destruct g as [|a g]; [cbn in H1; lia|].
  cbn [chars_in String.length] in *. apply andb_true_iff in Hc as [Ha Hc].
  exists (String a EmptyString), g. split; [reflexivity|]. split.
  + change (String a EmptyString) with (String a EmptyString +:+ EmptyString).
    apply LCat; [apply Lang_hex; eauto|constructor].
  + apply Lang_UpTo_hex. split; [exact Hc|lia].
Qed.

Lemma Lang_grp s : Lang grp s <-> exists g, group_ok g = true /\ s = g +:+ ":".
Proof.
unfold grp. rewrite Lang_Cat. split.
- intros (g & c & -> & Hg%Lang_h14 & ->%Lang_Is). eauto.
- intros (g & Hg & ->). exists g, ":". split; [reflexivity|].
  split; [apply Lang_h14, Hg|apply Lang_Is; reflexivity].
Qed.

Lemma groups_app gs1 gs2 : groups (gs1 ++ gs2) = groups gs1 +:+ groups gs2.
Proof.
induction gs1 as [|g gs1 IH]; [reflexivity|].
cbn [groups app]. rewrite IH, !append_assoc. reflexivity.
Qed.

Lemma Lang_Rep_grp n : forall s,
  Lang (Rep n grp) s
  <-> exists gs, length gs = n /\ forallb group_ok gs = true /\ s = groups gs.
Proof.
induction n as [|n IH]; intros s; cbn [Rep].
- rewrite Lang_Eps. split.
  + intros ->. exists []. auto.
  + intros (gs & Hl & _ & ->). destruct gs; [reflexivity|discriminate].
- rewrite Lang_Cat. split.
  + intros (s1 & s2 & -> & (g & Hg & ->)%Lang_grp & (gs & Hl & Hgs & ->)%IH).
    exists (g :: gs). cbn [length forallb groups]. rewrite Hg, Hgs, Hl, append_assoc. auto.
  + intros (gs & Hl & Hgs & ->). destruct gs as [|g gs]; [discriminate|].
    cbn [length forallb groups] in *. apply andb_true_iff in Hgs as [Hg Hgs].
    exists (g +:+ ":"), (groups gs). rewrite append_assoc. split; [reflexivity|].
    split; [apply Lang_grp; eauto|apply IH; exists gs; auto].
Qed.

Lemma Lang_UpTo_grp n : forall s,
  Lang (UpTo n grp) s
  <-> exists gs, length gs <= n /\ forallb group_ok gs = true /\ s = groups gs.
Proof.
induction n as [|n IH]; intros s; cbn [UpTo].
- rewrite Lang_Eps. split.
  + intros ->. exists []. auto.
  + intros (gs & Hl & _ & ->). destruct gs; [reflexivity|cbn in Hl; lia].
- rewrite Lang_Opt, Lang_Cat. split.
  + intros [->|(s1 & s2 & -> & (g & Hg & ->)%Lang_grp & (gs & Hl & Hgs & ->)%IH)].
    * exists []. cbn. split; [lia|auto].
    * exists (g :: gs). cbn [length forallb groups]. rewrite Hg, Hgs, append_assoc.
      split; [lia|auto].
  + intros (gs & Hl & Hgs & ->). destruct gs as [|g gs]; [left; reflexivity|right].
    cbn [length forallb groups] in *. apply andb_true_iff in Hgs as [Hg Hgs].
    exists (g +:+ ":"), (groups gs). rewrite append_assoc. split; [reflexivity|].
    split; [apply Lang_grp; eauto|apply IH; exists gs; split; [lia|auto]].
Qed.

Lemma Lang_RepRange_grp lo hi s :
  lo <= hi ->
  Lang (RepRange lo hi grp) s
  <-> exists gs, lo <= length gs <= hi /\ forallb group_ok gs = true /\ s = groups gs.
Proof.
intros Hle. unfold RepRange. rewrite Lang_Cat. split.
- intros (s1 & s2 & -> & (gs1 & Hl1 & Hg1 & ->)%Lang_Rep_grp
          & (gs2 & Hl2 & Hg2 & ->)%Lang_UpTo_grp).
  exists (gs1 ++ gs2). rewrite length_app, forallb_app, Hg1, Hg2, groups_app.
  split; [lia|auto].
- intros (gs & Hl & Hgs & ->).
  exists (groups (take lo gs)), (groups (drop lo gs)).
  rewrite <- groups_app, take_drop. split; [reflexivity|].
  rewrite <- (take_drop lo gs), forallb_app in Hgs. apply andb_true_iff in Hgs as [H1 H2].
  split.
  + apply Lang_Rep_grp. exists (take lo gs). rewrite length_take. split; [lia|auto].
  + apply Lang_UpTo_grp. exists (drop lo gs). rewrite length_drop. split; [lia|auto].
Qed.

Lemma Lang_IPV6 s :
  Lang IPV6_REGEX s
  <-> exists gs,
        forallb group_ok gs = true
        /\ ((exists g, length gs = 7 /\ group_ok g = true /\ s = groups gs +:+ g)
            \/ (gs = [] /\ s = "::")
            \/ (1 <= length gs <= 7 /\ s = groups gs +:+ ":")
            \/ (1 <= length gs <= 7 /\ s = ":" +:+ groups gs)
            \/ (exists g, 1 <= length gs <= 6 /\ group_ok g = true
                          /\ s = groups gs +:+ ":" +:+ g)).
Proof.
unfold IPV6_REGEX. rewrite !Lang_Alt. split.
- intros [H|[H|[H|[H|H]]]].
  + apply Lang_Cat in H as (s1 & g & -> & (gs & Hl & Hgs & ->)%Lang_Rep_grp & Hg%Lang_h14).
    exists gs. split; [exact Hgs|]. left. eauto.
  + cbn [Lit] in H.
    apply Lang_Cat in H as (t1 & t2 & -> & ->%Lang_Is & H).
    apply Lang_Cat in H as (t3 & t4 & -> & ->%Lang_Is & ->%Lang_Eps).
    exists []. split; [reflexivity|]. right. left. auto.
  + apply Lang_Cat in H as (s1 & c & -> & H & ->%Lang_Is).
    apply Lang_RepRange_grp in H as (gs & Hl & Hgs & ->); [|lia].
    exists gs. split; [exact Hgs|]. right. right. left. auto.
  + apply Lang_Cat in H as (c & s1 & -> & ->%Lang_Is & H).
    apply Lang_RepRange_grp in H as (gs & Hl & Hgs & ->); [|lia].
    exists gs. split; [exact Hgs|]. right. right. right. left. auto.
  + apply Lang_Cat in H as (s1 & s2 & -> & H & H2).
    apply Lang_RepRange_grp in H as (gs & Hl & Hgs & ->); [|lia].
    apply Lang_Cat in H2 as (c & g & -> & ->%Lang_Is & Hg%Lang_h14).
    exists gs. split; [exact Hgs|]. right. right. right. right. exists g. auto.
- intros (gs & Hgs & [(g & Hl & Hg & ->)|[[-> ->]|[[Hl ->]|[[Hl ->]|(g & Hl & Hg & ->)]]]]).
  + left. apply LCat; [apply Lang_Rep_grp; eauto|apply Lang_h14, Hg].
  + right. left. cbn [Lit].
    change "::" with (String ":" EmptyString +:+ (String ":" EmptyString +:+ EmptyString)).
    repeat (apply LCat; [apply Lang_Is; reflexivity|]). constructor.
  + right. right. left.
    apply LCat; [apply Lang_RepRange_grp; [lia|eauto]|apply Lang_Is; reflexivity].
  + right. right. right. left.
    apply LCat; [apply Lang_Is; reflexivity|apply Lang_RepRange_grp; [lia|eauto]].
  + right. right. right. right.
    apply LCat; [apply Lang_RepRange_grp; [lia|eauto]|].
    apply LCat; [apply Lang_Is; reflexivity|apply Lang_h14, Hg].
Qed.

(** X4: the IPv6 pattern accepts exactly: eight groups separated by colons;
    [::]; one to seven groups followed by [::]; a colon, then one to seven
    groups each followed by a colon; one to six groups, [::], and one
    last group. *)
Theorem ipv6_pattern (s : string) :
  test IPV6_REGEX s = true
  <-> exists gs,
        forallb group_ok gs = true
        /\ ((exists g, length gs = 7 /\ group_ok g = true /\ s = groups gs +:+ g)
            \/ (gs = [] /\ s = "::")
            \/ (1 <= length gs <= 7 /\ s = groups gs +:+ ":")
            \/ (1 <= length gs <= 7 /\ s = ":" +:+ groups gs)
            \/ (exists g, 1 <= length gs <= 6 /\ group_ok g = true
                          /\ s = groups gs +:+ ":" +:+ g)).
Proof. rewrite test_Lang. apply Lang_IPV6. Qed.

Lemma is_hex_not_colon a : is_hex a = true -> a <> ":"%char.
Proof. intros H ->. discriminate. Qed.

Lemma groups_head gs :
  forallb group_ok gs = true -> gs <> [] ->
  exists a rest, groups gs = String a rest /\ a <> ":"%char.
Proof.
destruct gs as [|g gs]; [congruence|]. cbn [forallb groups].
intros [Hg _]%andb_true_iff _. unfold group_ok in Hg.
apply andb_true_iff in Hg as [[Hc Hl%Nat.leb_le]%andb_true_iff _].
destruct g as [|a g]; [cbn in Hl; lia|].
cbn [chars_in] in Hc. apply andb_true_iff in Hc as [Ha _].
exists a. eexists. split; [reflexivity|apply is_hex_not_colon, Ha].
Qed.

(** X5: a compressed address that starts with [::] and goes on (such as the
    loopback address [::1]) is rejected. *)
Theorem ipv6_leading_compression (rest : string) :
  rest <> EmptyString -> test IPV6_REGEX ("::" +:+ rest) = false.
Proof.
intros Hne. apply not_true_iff_false. intros H. apply test_Lang, Lang_IPV6 in H.
destruct H as (gs & Hgs & [(g & Hl & Hg & E)|[[-> E]|[[Hl E]|[[Hl E]|(g & Hl & Hg & E)]]]]).
- destruct (groups_head gs Hgs) as (a & t & Ea & Ha); [intros ->; discriminate|].
  rewrite Ea in E. injection E as E _. congruence.
- apply Hne. rewrite !append_cons, append_nil_l in E. injection E as E. exact E.
- destruct (groups_head gs Hgs) as (a & t & Ea & Ha); [intros ->; cbn in Hl; lia|].
  rewrite Ea in E. injection E as E _. congruence.
- destruct (groups_head gs Hgs) as (a & t & Ea & Ha); [intros ->; cbn in Hl; lia|].
  rewrite Ea in E. cbn in E. injection E as E _. congruence.
- destruct (groups_head gs Hgs) as (a & t & Ea & Ha); [intros ->; cbn in Hl; lia|].
  rewrite Ea in E. injection E as E _. congruence.
Qed.

Lemma ipv6_leading_compression_witness : test IPV6_REGEX ("::" +:+ "1") = false.
Proof. apply ipv6_leading_compression. discriminate. Defined.

End PatternFacts.

(** * What a passing definition file guarantees *)
Module AcceptFacts.
Import JsString Js Regex Validator ValidatorRun ValidatorSpec ExtraSpec RangeSpec.
Import StringFacts RegexFacts ValidatorFacts ReservedFacts PatternFacts.

Lemma bind_Ok_inv {A B : Type} (m : outcome A) (k : A -> outcome B) b :
  (m ≫= k) = Ok b -> exists a, m = Ok a /\ k a = Ok b.
Proof. destruct m as [a|why|]; [eauto|discriminate..]. Qed.

Lemma fail_if_Ok c why u : fail_if c why = Ok u -> c = false.
Proof. destruct c; [discriminate|reflexivity]. Qed.

Lemma for_each_Ok {A : Type} (l : list A) body :
  for_each l body = Ok tt -> forall x, In x l -> body x = Ok tt.
Proof.
induction l as [|y l IH]; [contradiction|]. cbn [for_each].
intros (u & Hy & Hl)%bind_Ok_inv x [<-|Hx]; [destruct u; exact Hy|auto].
Qed.

Lemma index_keys_head from n : index_keys from (S n) = of_nat from :: index_keys (S from) n.
Proof. reflexivity. Qed.

Ltac invert_bind H :=
  let u := fresh "u" in
  let H1 := fresh "Hstep" in
  apply bind_Ok_inv in H as (u & H1 & H).

(** The checks in front of the record loop. *)
Lemma validate_file_Ok_top reserved file data :
  validate_file reserved file (Parsed data) = Ok tt ->
  exists o s rs st,
    data = VObj o
    /\ forallb allowed_top_key (keys o) = true
    /\ not_object (get o "user") = false
    /\ truthy (prop (get o "user") "username") = true
    /\ get o "subdomain" = VStr s
    /\ test SUBDOMAIN_REGEX s = true
    /\ reserved_includes reserved s = false
    /\ file = "domains/" +:+ s +:+ ".json"
    /\ get o "records" = VArr rs
    /\ rs <> []
    /\ validate_records s rs {| hasNS := false; hasDS := false |} = Ok st
    /\ (hasDS st = true -> hasNS st = true).
Proof.
intros H. unfold validate_file in H.
apply bind_Ok_inv in H as (ks & Hks & H).
apply bind_Ok_inv in H as ([] & Htop & H).
apply bind_Ok_inv in H as ([] & Hreq & H).
assert (exists o, data = VObj o) as [o ->].
{ pose proof (for_each_Ok _ _ Hreq "user" (or_introl eq_refl)) as Hu.
  apply bind_Ok_inv in Hu as (present & Hin & Hu). apply fail_if_Ok in Hu.
  unfold in_ in Hin.
  destruct data; cbn [has_key] in Hin; try discriminate; try (injection Hin as <-);
    try discriminate Hu; eauto. }
cbn [prop] in H. unfold keys_of in Hks. cbn [own_keys] in Hks. injection Hks as <-.
apply bind_Ok_inv in H as ([] & Huser%fail_if_Ok & H).
apply bind_Ok_inv in H as ([] & Hname & H).
pose proof (for_each_Ok _ _ Hname "username" (or_introl eq_refl)) as Hun.
apply fail_if_Ok, negb_false_iff in Hun.
apply bind_Ok_inv in H as ([] & Hfmt%fail_if_Ok%negb_false_iff & H).
destruct (get o "subdomain") as [| | | |s| |] eqn:Es; try discriminate.
cbn [String_] in Hfmt.
apply bind_Ok_inv in H as ([] & Hres%fail_if_Ok & H).
rewrite (toLowerCase_subdomain s Hfmt) in Hres.
apply bind_Ok_inv in H as ([] & Hfile%fail_if_Ok%negb_false_iff%String.eqb_eq & H).
destruct (get o "records") as [| | | | |rs|] eqn:Er; try discriminate.
apply bind_Ok_inv in H as ([] & Hlen%fail_if_Ok & H).
apply bind_Ok_inv in H as ([] & _ & H).
apply bind_Ok_inv in H as (st & Hrecs & Hds%fail_if_Ok).
exists o, s, rs, st. repeat split; try assumption.
- apply forallb_forall. intros k Hk.
  pose proof (for_each_Ok _ _ Htop k Hk) as Hok.
  apply fail_if_Ok, negb_false_iff in Hok. exact Hok.
- intros ->. discriminate.
- intros Hd. rewrite Hd in Hds. destruct (hasNS st); [reflexivity|discriminate].
Qed.

(** The checks of the record loop, for a record that gets through. *)
Lemma validate_record_Ok s r st st' :
  validate_record s r st = Ok st' ->
  let type := normalized_type r in
  exists o name,
    r = VObj o
    /\ check_proxied type r = Ok tt
    /\ check_ns_ds_name s type r = Ok tt
    /\ forallb allowed_record_key (keys o) = true
    /\ str_includes ALLOWED_TYPES type = true
    /\ get o "name" = VStr name
    /\ includes name "*" = false
    /\ (name = s \/ endsWith name ("." +:+ s) = true)
    /\ check_branch (type_branch type) type r st = Ok st'.
Proof.
intros H type. unfold validate_record in H. fold type in H.
apply bind_Ok_inv in H as ([] & Hobj%fail_if_Ok & H).
apply bind_Ok_inv in H as ([] & Hprox & H).
apply bind_Ok_inv in H as ([] & Hroot & H).
apply bind_Ok_inv in H as ([] & Hkeys & H).
apply bind_Ok_inv in H as ([] & Hty%fail_if_Ok%negb_false_iff & H).
destruct r as [| | | | |l|o]; try discriminate.
cbn [prop] in H. destruct (get o "name") as [| | | |name| |] eqn:En; try discriminate.
apply bind_Ok_inv in H as ([] & Hwild%fail_if_Ok & H).
apply bind_Ok_inv in H as ([] & Hin%fail_if_Ok & H).
exists o, name. repeat split; try assumption.
- unfold check_record_keys, keys_of in Hkeys. cbn [own_keys] in Hkeys.
  rewrite bind_Ok in Hkeys. apply forallb_forall. intros k Hk.
  pose proof (for_each_Ok _ _ Hkeys k Hk) as Hok.
  apply fail_if_Ok, negb_false_iff in Hok. exact Hok.
- apply andb_false_iff in Hin as [Hn|Hn]; apply negb_false_iff in Hn.
  + left. apply String.eqb_eq, Hn.
  + right. exact Hn.
Qed.

(** X6: every record that gets through the record loop, and whose type
    [String] turns into 7-bit text without an exception, is an object
    whose keys are all allowed and whose type, in upper case, is one of
    the eleven; its name is a string without [*] that is the subdomain
    or ends with a dot and the subdomain; it carries [proxied] only as a
    boolean and only on an A, AAAA or CNAME record; and an NS or DS
    record is set on the subdomain itself. *)
Theorem accepted_record_shape (s : string) (r : value) :
  readable_type r = true ->
  accepted_record s r ->
  exists o name,
    r = VObj o
    /\ forallb allowed_record_key (keys o) = true
    /\ str_includes ALLOWED_TYPES (normalized_type r) = true
    /\ get o "name" = VStr name
    /\ includes name "*" = false
    /\ (name = s \/ endsWith name ("." +:+ s) = true)
    /\ (has o "proxied" = true ->
        is_boolean (get o "proxied") = true
        /\ str_includes ["A"; "AAAA"; "CNAME"] (normalized_type r) = true)
    /\ (is_ns r || is_ds r = true -> name = s).
Proof.
intros _ (st & st' & H). apply validate_record_Ok in H.
destruct H as (o & name & -> & Hp & Hroot & Hk & Ht & Hn & Hw & Hs & _).
exists o, name. repeat (split; [assumption || reflexivity|]). split.
- intros Hhas. unfold check_proxied, in_ in Hp. cbn [has_key prop] in Hp.
  rewrite Hhas, bind_Ok in Hp.
  apply bind_Ok_inv in Hp as ([] & Hb%fail_if_Ok%negb_false_iff & Ht'%fail_if_Ok%negb_false_iff).
  auto.
- intros Hty. unfold check_ns_ds_name in Hroot. unfold is_ns, is_ds in Hty.
  rewrite Hty in Hroot. apply fail_if_Ok, negb_false_iff in Hroot.
  cbn [prop] in Hroot. rewrite Hn in Hroot. cbn [strict_eq] in Hroot.
  apply String.eqb_eq, Hroot.
Qed.

Lemma accepted_record_shape_witness :
  let r := VObj [("type", VStr "cname"); ("name", VStr "mail.blog");
                 ("value", VStr "example.org"); ("proxied", VBool false)] in
  readable_type r = true
  /\ accepted_record "blog" r
  /\ exists o name,
       r = VObj o
       /\ forallb allowed_record_key (keys o) = true
       /\ str_includes ALLOWED_TYPES (normalized_type r) = true
       /\ get o "name" = VStr name
       /\ includes name "*" = false
       /\ (name = "blog" \/ endsWith name ("." +:+ "blog") = true)
       /\ (has o "proxied" = true ->
           is_boolean (get o "proxied") = true
           /\ str_includes ["A"; "AAAA"; "CNAME"] (normalized_type r) = true)
       /\ (is_ns r || is_ds r = true -> name = "blog").
Proof.
assert (accepted_record "blog"
          (VObj [("type", VStr "cname"); ("name", VStr "mail.blog");
                 ("value", VStr "example.org"); ("proxied", VBool false)])) as H
  by (exists sample_flags, sample_flags; reflexivity).
split; [reflexivity|]. split; [exact H|].
apply (accepted_record_shape "blog"
         (VObj [("type", VStr "cname"); ("name", VStr "mail.blog");
                ("value", VStr "example.org"); ("proxied", VBool false)]));
  [reflexivity|exact H].
Defined.

Ltac invert_checks H :=
  repeat match type of H with
         | (fail_if _ _ ≫= _) = Ok _ =>
             let E := fresh "Hcheck" in
             apply bind_Ok_inv in H as ([] & E%fail_if_Ok & H)
         end.

Lemma type_branch_of_name t b :
  type_branch t = b -> b <> BrFallback ->
  t = match b with
      | BrA => "A" | BrAAAA => "AAAA" | BrCNAME => "CNAME" | BrTXT => "TXT"
      | BrURL => "URL" | BrMX => "MX" | BrSRV => "SRV" | BrCAA => "CAA"
      | BrNS => "NS" | BrDS => "DS" | BrTLSA => "TLSA" | BrFallback => t
      end.
Proof.
intros <-. unfold type_branch.
repeat match goal with
       | |- context [String.eqb t ?x] =>
           destruct (String.eqb_spec t x) as [->|_]; [reflexivity|]
       end.
congruence.
Qed.

(** X7: the field contract of an accepted address, mail or service record:
    an A record holds a dotted quad of numbers up to 255; an MX record a
    string target and a priority that is not negative; an SRV record a
    string target, a priority and a weight that are not negative, and a
    positive port. *)
Theorem accepted_field_contract (s : string) (o : obj) :
  accepted_record s (VObj o) ->
  match type_branch (normalized_type (VObj o)) with
  | BrA =>
      exists a b c d,
        get o "value" = VStr (dotted a b c d)
        /\ octet_ok a = true /\ octet_ok b = true
        /\ octet_ok c = true /\ octet_ok d = true
  | BrMX =>
      exists target priority,
        get o "target" = VStr target /\ get o "priority" = VNum priority
        /\ (0 <= priority)%Z
  | BrSRV =>
      exists target priority weight port,
        get o "target" = VStr target /\ get o "priority" = VNum priority
        /\ get o "weight" = VNum weight /\ get o "port" = VNum port
        /\ (0 <= priority)%Z /\ (0 <= weight)%Z /\ (0 < port)%Z
  | _ => True
  end.
Proof.
intros (st & st' & H). apply validate_record_Ok in H.
destruct H as (o' & name & [= <-] & _ & _ & _ & _ & _ & _ & _ & H).
destruct (type_branch (normalized_type (VObj o))); try exact I;
  cbn [check_branch prop] in H; invert_checks H.
- apply negb_false_iff in Hcheck, Hcheck0.
  destruct (get o "value") as [| | | |v| |]; try discriminate.
  cbn [String_] in Hcheck0.
  apply test_Lang, Lang_IPV4 in Hcheck0 as (a & b & c & d & -> & Hq).
  exists a, b, c, d. auto.
- apply negb_false_iff in Hcheck.
  destruct (get o "target") as [| | | |t| |]; try discriminate.
  destruct (get o "priority") as [| | |p| | |]; try discriminate.
  cbn [not_number_or_negative] in Hcheck0. apply Z.ltb_ge in Hcheck0.
  exists t, p. auto.
- apply negb_false_iff in Hcheck2.
  destruct (get o "target") as [| | | |t| |]; try discriminate.
  destruct (get o "priority") as [| | |p| | |]; try discriminate.
  destruct (get o "weight") as [| | |w| | |]; try discriminate.
  destruct (get o "port") as [| | |q| | |]; try discriminate.
  cbn [not_number_or_negative not_number_or_nonpositive] in *.
  apply Z.ltb_ge in Hcheck, Hcheck0. apply Z.leb_gt in Hcheck1.
  exists t, p, w, q. auto 10.
Qed.

Lemma accepted_field_contract_witness :
  let o := [("type", VStr "MX"); ("name", VStr "blog"); ("target", VStr "mx.example.net");
            ("priority", VNum 10)] in
  accepted_record "blog" (VObj o)
  /\ exists target priority,
       get o "target" = VStr target /\ get o "priority" = VNum priority
       /\ (0 <= priority)%Z.
Proof.
assert (accepted_record "blog"
          (VObj [("type", VStr "MX"); ("name", VStr "blog");
                 ("target", VStr "mx.example.net"); ("priority", VNum 10)])) as H
  by (exists sample_flags, sample_flags; reflexivity).
split; [exact H|]. exact (accepted_field_contract "blog" _ H).
Defined.

(** How one accepted record moves the two flags. *)
Lemma validate_record_flags s r st st' :
  validate_record s r st = Ok st' ->
  hasNS st' = hasNS st || is_ns r /\ hasDS st' = hasDS st || is_ds r.
Proof.
intros H. apply validate_record_Ok in H.
destruct H as (o & name & -> & _ & _ & _ & Hty & _ & _ & _ & H).
pose proof (allowed_type_branch _ Hty) as Hb.
pose proof (type_branch_of_name _ _ eq_refl Hb) as Hname.
unfold is_ns, is_ds.
destruct (type_branch (normalized_type (VObj o))); try congruence;
  rewrite Hname; cbn [check_branch] in H; invert_checks H;
  injection H as <-; cbn [hasNS hasDS String.eqb Ascii.eqb Bool.eqb];
  rewrite ?orb_false_r, ?orb_true_r; auto.
Qed.

Lemma validate_records_flags s rs : forall st st',
  validate_records s rs st = Ok st' ->
  hasNS st' = hasNS st || existsb is_ns rs
  /\ hasDS st' = hasDS st || existsb is_ds rs
  /\ Forall (accepted_record s) rs.
Proof.
induction rs as [|r rs IH]; intros st st' H.
- injection H as <-. rewrite !orb_false_r. auto.
- cbn [validate_records] in H. apply bind_Ok_inv in H as (st1 & Hr & H).
  destruct (validate_record_flags _ _ _ _ Hr) as [Hn Hd].
  destruct (IH _ _ H) as (Hn' & Hd' & Hall). cbn [existsb].
  rewrite Hn', Hd', Hn, Hd, !orb_assoc. repeat split; [constructor; [|exact Hall]].
  exists st, st1. exact Hr.
Qed.

Lemma for_each_intro {A : Type} (l : list A) body :
  (forall x, In x l -> body x = Ok tt) -> for_each l body = Ok tt.
Proof.
induction l as [|y l IH]; [reflexivity|]. intros H. cbn [for_each].
rewrite (H y (or_introl eq_refl)). apply IH. intros x Hx. apply H. right. exact Hx.
Qed.

(** Whether a record gets through does not depend on the flags it is
    checked under. *)
Lemma validate_record_any_flags s r st st' st2 :
  validate_record s r st = Ok st' -> exists st2', validate_record s r st2 = Ok st2'.
Proof.
unfold validate_record.
destruct (fail_if (not_object r) RecordMustBeObject) as [[]| |]; [|discriminate..].
destruct (check_proxied (normalized_type r) r) as [[]| |]; [|discriminate..].
destruct (check_ns_ds_name s (normalized_type r) r) as [[]| |]; [|discriminate..].
destruct (check_record_keys r) as [[]| |]; [|discriminate..].
destruct (fail_if _ (UnsupportedRecordType _)) as [[]| |]; [|discriminate..].
cbn [mbind outcome_bind].
destruct (prop r "name"); try discriminate.
destruct (fail_if _ WildcardNotAllowed) as [[]| |]; [|discriminate..].
destruct (fail_if _ OutsideSubdomain) as [[]| |]; [|discriminate..].
cbn [mbind outcome_bind].
destruct (type_branch (normalized_type r)); cbn [check_branch];
  repeat match goal with
         | |- context [fail_if ?c ?w] => destruct (fail_if c w) as [[]| |]; [|discriminate..]
         end; cbn [mbind outcome_bind]; intros H; try discriminate; eauto.
Qed.

Lemma validate_records_intro s rs : forall st,
  Forall (accepted_record s) rs -> exists st', validate_records s rs st = Ok st'.
Proof.
induction rs as [|r rs IH]; intros st Hall; [eexists; reflexivity|].
inversion Hall as [|? ? (st0 & st0' & Hr) Hrest]; subst.
destruct (validate_record_any_flags _ _ _ _ st Hr) as [st1 Hr1].
destruct (IH st1 Hrest) as [st' Hrs]. exists st'.
cbn [validate_records]. rewrite Hr1. exact Hrs.
Qed.

(** X8: a definition file whose records have types that [String] turns
    into 7-bit text without an exception passes exactly when it is an
    object with allowed keys only, a [user] object or array with a
    truthy [username], a string [subdomain] in the subdomain format that
    is not on the denylist and names the file, and a non-empty [records]
    array of accepted records in which a DS record comes with an NS
    record. *)
Theorem passing_file (reserved : list value) (file : string) (data : value) :
  readable_types data = true ->
  (validate_file reserved file (Parsed data) = Ok tt <->
   exists o s rs,
     data = VObj o
     /\ forallb allowed_top_key (keys o) = true
     /\ not_object (get o "user") = false
     /\ truthy (prop (get o "user") "username") = true
     /\ get o "subdomain" = VStr s
     /\ test SUBDOMAIN_REGEX s = true
     /\ reserved_includes reserved s = false
     /\ file = "domains/" +:+ s +:+ ".json"
     /\ get o "records" = VArr rs
     /\ rs <> []
     /\ Forall (accepted_record s) rs
     /\ (existsb is_ds rs = true -> existsb is_ns rs = true)).
Proof.
intros _. split.
- intros H. apply validate_file_Ok_top in H.
  destruct H as (o & s & rs & st & -> & Hk & Huo & Hu & Hs & Hf & Hr & Hfile & Hrs & Hne
                 & Hrecs & Hds).
  apply validate_records_flags in Hrecs as (Hn & Hd & Hall). cbn [hasNS hasDS orb] in Hn, Hd.
  exists o, s, rs. repeat split; try assumption.
  rewrite <- Hn, <- Hd. exact Hds.
- intros (o & s & rs & -> & Hk & Huo & Hu & Hs & Hf & Hr & -> & Hrs & Hne & Hall & Hds).
  unfold validate_file, keys_of, in_. cbn [own_keys has_key prop]. rewrite bind_Ok.
  rewrite (for_each_intro (keys o)).
  2:{ intros k Hk'. rewrite forallb_forall in Hk. specialize (Hk k Hk').
      unfold allowed_top_key in Hk. rewrite Hk. reflexivity. }
  rewrite bind_Ok.
  assert (forall k v, get o k = v -> v <> VUndefined -> has o k = true) as Hhas.
  { intros k v Hg Hv. unfold get in Hg. unfold has.
    destruct (assoc k o); [reflexivity|]. congruence. }
  rewrite (for_each_intro REQUIRED_TOP_KEYS).
  2:{ intros k [<-|[<-|[<-|[]]]]; rewrite bind_Ok.
      - rewrite (Hhas "user" _ eq_refl); [reflexivity|].
        intros E. rewrite E in Huo. discriminate.
      - rewrite (Hhas _ _ Hs); [reflexivity|discriminate].
      - rewrite (Hhas _ _ Hrs); [reflexivity|discriminate]. }
  rewrite bind_Ok, Huo. cbn [fail_if]. rewrite bind_Ok.
  cbn [REQUIRED_USER_KEYS for_each]. rewrite Hu. cbn [negb fail_if]. rewrite !bind_Ok.
  rewrite Hs. cbn [String_]. rewrite Hf. cbn [negb fail_if]. rewrite bind_Ok.
  rewrite (toLowerCase_subdomain s Hf), Hr. cbn [fail_if]. rewrite bind_Ok.
  rewrite String.eqb_refl. cbn [negb fail_if]. rewrite bind_Ok, Hrs.
  destruct rs as [|r rs]; [congruence|].
  cbn [length Nat.eqb fail_if]. rewrite bind_Ok.
  change (negb (MAX_RECORDS =? 0)%nat) with false. cbn [andb fail_if]. rewrite bind_Ok.
  destruct (validate_records_intro s (r :: rs) {| hasNS := false; hasDS := false |} Hall)
    as [st Hst].
  rewrite Hst, bind_Ok.
  apply validate_records_flags in Hst as (Hn & Hd & _). cbn [hasNS hasDS orb] in Hn, Hd.
  rewrite Hn, Hd.
  destruct (existsb is_ds (r :: rs)); [rewrite Hds by reflexivity|]; reflexivity.
Qed.

Lemma passing_file_witness :
  let data :=
    VObj [("user", VObj [("username", VStr "a")]); ("subdomain", VStr "blog");
          ("records", VArr [VObj [("type", VStr "A"); ("name", VStr "blog");
                                  ("value", VStr "203.0.113.5")]])] in
  readable_types data = true
  /\ validate_file [] "domains/blog.json" (Parsed data) = Ok tt.
Proof.
split; [reflexivity|].
apply (proj2 (passing_file [] "domains/blog.json"
                (VObj [("user", VObj [("username", VStr "a")]);
                       ("subdomain", VStr "blog");
                       ("records", VArr [VObj [("type", VStr "A"); ("name", VStr "blog");
                                               ("value", VStr "203.0.113.5")]])])
                eq_refl)).
eexists _, "blog", _. split; [reflexivity|]. repeat (split; [reflexivity|]).
split; [discriminate|]. split; [|discriminate].
constructor; [|constructor]. exists sample_flags, sample_flags. reflexivity.
Defined.

(** X9: a [subdomain] that is not a string but whose text passes the format
    check ([null], [true], a safe integer) ends the run in an uncaught
    [TypeError] at the denylist lookup, not in a reported failure. *)
Theorem non_string_subdomain_throws (reserved : list value) (file : string)
    (o : obj) (v : value) :
  forallb allowed_top_key (keys o) = true ->
  has o "user" = true -> has o "records" = true ->
  not_object (get o "user") = false ->
  truthy (prop (get o "user") "username") = true ->
  assoc "subdomain" o = Some v ->
  is_string v = false ->
  exact_text v = true ->
  test SUBDOMAIN_REGEX (String_ v) = true ->
  validate_file reserved file (Parsed (VObj o)) = Throws.
Proof.
intros Hk Hu Hrs Huo Hun Hs Hv _ Hf.
unfold validate_file, keys_of, in_. cbn [own_keys has_key prop]. rewrite bind_Ok.
rewrite (for_each_intro (keys o)).
2:{ intros k Hk'. rewrite forallb_forall in Hk. specialize (Hk k Hk').
    unfold allowed_top_key in Hk. rewrite Hk. reflexivity. }
rewrite bind_Ok.
rewrite (for_each_intro REQUIRED_TOP_KEYS).
2:{ intros k [<-|[<-|[<-|[]]]]; rewrite bind_Ok.
    - rewrite Hu. reflexivity.
    - unfold has. rewrite Hs. reflexivity.
    - rewrite Hrs. reflexivity. }
rewrite bind_Ok, Huo. cbn [fail_if]. rewrite bind_Ok.
cbn [REQUIRED_USER_KEYS for_each]. rewrite Hun. cbn [negb fail_if]. rewrite !bind_Ok.
assert (get o "subdomain" = v) as Hg by (unfold get; rewrite Hs; reflexivity).
rewrite Hg, Hf. cbn [negb fail_if]. rewrite bind_Ok.
destruct v; try reflexivity. discriminate.
Qed.

Lemma non_string_subdomain_throws_witness :
  validate_file [] "domains/null.json"
    (Parsed (VObj [("user", VObj [("username", VStr "ada")]); ("subdomain", VNull);
                   ("records", VArr [])])) = Throws.
Proof.
apply non_string_subdomain_throws with (v := VNull); reflexivity.
Defined.

Lemma has_keys o k : has o k = existsb (fun k' => String.eqb k' k) (keys o).
Proof.
unfold has, keys. induction o as [|[k' v] o IH]; [reflexivity|].
cbn [assoc map existsb fst]. destruct (String.eqb k' k); [reflexivity|exact IH].
Qed.

Ltac other_key := intros E; discriminate E.

(** X10: the verdict on a record depends on its [type] only through the
    upper-cased text of it: two records that differ in [type] alone, with
    the same upper-cased text, are accepted or rejected together. *)
Theorem type_read_as_text (s : string) (o1 o2 : obj) :
  same_but_type o1 o2 ->
  normalized_type (VObj o1) = normalized_type (VObj o2) ->
  (accepted_record s (VObj o1) <-> accepted_record s (VObj o2)).
Proof.
assert (forall o1 o2 st st',
          same_but_type o1 o2 ->
          normalized_type (VObj o1) = normalized_type (VObj o2) ->
          validate_record s (VObj o1) st = Ok st' ->
          validate_record s (VObj o2) st = Ok st') as Hdir.
{ clear o1 o2. intros o1 o2 st st' [Hkeys Hget] Hty H.
  unfold validate_record in *. rewrite <- Hty.
  assert (check_proxied (normalized_type (VObj o1)) (VObj o2)
          = check_proxied (normalized_type (VObj o1)) (VObj o1)) as ->.
  { unfold check_proxied, in_. cbn [has_key prop].
    rewrite !has_keys, Hkeys, (Hget "proxied") by other_key. reflexivity. }
  assert (check_ns_ds_name s (normalized_type (VObj o1)) (VObj o2)
          = check_ns_ds_name s (normalized_type (VObj o1)) (VObj o1)) as ->.
  { unfold check_ns_ds_name. cbn [prop]. rewrite (Hget "name") by other_key. reflexivity. }
  assert (check_record_keys (VObj o2) = check_record_keys (VObj o1)) as ->.
  { unfold check_record_keys, keys_of. cbn [own_keys]. rewrite Hkeys. reflexivity. }
  cbn [not_object fail_if] in *. rewrite bind_Ok in *.
  destruct (check_proxied _ _) as [[]| |]; [|discriminate..]. rewrite bind_Ok in *.
  destruct (check_ns_ds_name _ _ _) as [[]| |]; [|discriminate..]. rewrite bind_Ok in *.
  destruct (check_record_keys _) as [[]| |]; [|discriminate..]. rewrite bind_Ok in *.
  destruct (str_includes ALLOWED_TYPES (normalized_type (VObj o1))); [|discriminate].
  cbn [negb fail_if] in *. rewrite bind_Ok in *.
  cbn [prop] in *. rewrite <- (Hget "name") by other_key.
  destruct (get o1 "name"); try discriminate.
  destruct (fail_if _ WildcardNotAllowed) as [[]| |]; [|discriminate..].
  rewrite bind_Ok in *.
  destruct (fail_if _ OutsideSubdomain) as [[]| |]; [|discriminate..].
  rewrite bind_Ok in *.
  destruct (type_branch (normalized_type (VObj o1))); cbn [check_branch prop] in *;
    rewrite <- ?(Hget "value"), <- ?(Hget "target"), <- ?(Hget "priority"),
      <- ?(Hget "weight"), <- ?(Hget "port"), <- ?(Hget "flags"), <- ?(Hget "tag"),
      <- ?(Hget "key_tag"), <- ?(Hget "algorithm"), <- ?(Hget "digest_type"),
      <- ?(Hget "digest"), <- ?(Hget "usage"), <- ?(Hget "selector"),
      <- ?(Hget "matching_type"), <- ?(Hget "certificate") by other_key;
    exact H. }
intros Hsame Hty. split; intros (st & st' & H); exists st, st'.
- exact (Hdir _ _ _ _ Hsame Hty H).
- apply (Hdir o2 o1); [|congruence|exact H].
  destruct Hsame as [Hk Hg]. split; [congruence|]. intros k Hkne. symmetry. auto.
Qed.

Lemma type_read_as_text_witness :
  let o1 := [("type", VStr "A"); ("name", VStr "blog"); ("value", VStr "203.0.113.5")] in
  let o2 := [("type", VArr [VStr "a"]); ("name", VStr "blog");
             ("value", VStr "203.0.113.5")] in
  accepted_record "blog" (VObj o1) <-> accepted_record "blog" (VObj o2).
Proof.
apply type_read_as_text; [|reflexivity].
split; [reflexivity|]. intros k Hk. unfold get. cbn [assoc].
destruct (String.eqb_spec "type" k) as [E|_]; [congruence|reflexivity].
Defined.

End AcceptFacts.

(** * The request body of a record *)
Module PayloadFacts.
Import JsString Js Regex Json Validator ValidatorRun ValidatorSpec Remote Sync SyncSpec ExtraSpec.
Import StringFacts RegexFacts PatternFacts AcceptFacts.

Lemma strict_eq_str v s : strict_eq v (VStr s) = true <-> v = VStr s.
Proof.
destruct v; cbn [strict_eq]; try (split; [discriminate|congruence]).
rewrite String.eqb_eq. split; congruence.
Qed.

Ltac case_ifs :=
  repeat match goal with
         | |- context [if ?c then _ else _] => destruct c eqn:?
         end.

(** X11: [buildPayload] throws exactly on an SRV record whose name is not a
    string. *)
Theorem buildPayload_throws (r : obj) :
  buildPayload r = None
  <-> get r "type" = VStr "SRV" /\ is_string (get r "name") = false.
Proof.
unfold buildPayload. split.
- destruct (strict_eq (get r "type") (VStr "URL")); [discriminate|].
  destruct (strict_eq (get r "type") (VStr "SRV")) eqn:Esrv.
  + apply strict_eq_str in Esrv. rewrite Esrv.
    destruct (get r "name"); cbn; try discriminate; auto.
  + case_ifs; discriminate.
- intros [-> Hn]. cbn [strict_eq String.eqb Ascii.eqb Bool.eqb includes_value str_includes].
  destruct (get r "name"); [reflexivity..|discriminate|reflexivity|reflexivity].
Qed.

Ltac payload_cases r :=
  destruct (includes_value ["A"; "AAAA"; "CNAME"] (get r "type"));
  destruct (includes_value ["A"; "AAAA"; "CNAME"; "TXT"; "URL"; "NS"] (get r "type"));
  destruct (strict_eq (get r "type") (VStr "MX"));
  destruct (strict_eq (get r "type") (VStr "SRV"));
  destruct (strict_eq (get r "type") (VStr "CAA"));
  destruct (strict_eq (get r "type") (VStr "DS"));
  destruct (strict_eq (get r "type") (VStr "TLSA")).

Ltac distinct_keys := apply (bool_decide_unpack _); vm_compute; exact I.

(** X12: what every request body carries: an automatic [ttl], the record's
    name, the record's type (the placeholder [AAAA] at [100::], proxied,
    for a URL record), and no property twice. *)
Theorem buildPayload_common (r payload : obj) :
  buildPayload r = Some payload ->
  get payload "ttl" = VNum 1
  /\ get payload "name" = get r "name"
  /\ get payload "type" = (if is_url r then VStr "AAAA" else get r "type")
  /\ (is_url r = true ->
      get payload "content" = VStr "100::" /\ get payload "proxied" = VBool true)
  /\ NoDup (keys payload).
Proof.
unfold buildPayload, is_url.
destruct (strict_eq (get r "type") (VStr "URL")).
- intros [= <-].
  split; [reflexivity|]. split; [reflexivity|]. split; [reflexivity|].
  split; [intros _; split; reflexivity|distinct_keys].
- payload_cases r; try destruct (get r "name") eqn:En;
    cbn; intros [= <-];
    (split; [reflexivity|]; split; [reflexivity|]; split; [reflexivity|];
     split; [discriminate|distinct_keys]).
Qed.

Lemma buildPayload_common_witness :
  let r := [("type", VStr "URL"); ("name", VStr "go"); ("value", VStr "https://example.org/")] in
  exists payload,
    buildPayload r = Some payload
    /\ get payload "ttl" = VNum 1
    /\ get payload "type" = VStr "AAAA".
Proof.
eexists. split; [reflexivity|].
pose proof (buildPayload_common
              [("type", VStr "URL"); ("name", VStr "go");
               ("value", VStr "https://example.org/")] _ eq_refl) as (H1 & _ & H3 & _).
split; [exact H1|exact H3].
Defined.

(** X13: a record the validator accepts never makes [buildPayload] throw, and
    the body it gets carries the record's name, which lies in the
    subdomain. *)
Theorem accepted_record_builds (s : string) (o : obj) :
  accepted_record s (VObj o) ->
  exists payload name,
    buildPayload o = Some payload
    /\ get payload "name" = VStr name
    /\ (name = s \/ endsWith name ("." +:+ s) = true).
Proof.
intros (st & st' & H). apply validate_record_Ok in H.
destruct H as (o' & name & [= <-] & _ & _ & _ & _ & Hn & _ & Hin & _).
unfold buildPayload. rewrite Hn.
destruct (strict_eq (get o "type") (VStr "URL")).
- eexists _, name. split; [reflexivity|]. auto.
- payload_cases o; cbn; eexists _, name; (split; [reflexivity|]); auto.
Qed.

Lemma accepted_record_builds_witness :
  exists payload name,
    buildPayload [("type", VStr "txt"); ("name", VStr "mail.blog"); ("value", VStr "v=spf1")]
    = Some payload
    /\ get payload "name" = VStr name
    /\ (name = "blog" \/ endsWith name ("." +:+ "blog") = true).
Proof.
apply accepted_record_builds. exists sample_flags, sample_flags. reflexivity.
Defined.

Lemma split_label l rest :
  chars_in no_dot l = true -> split "." (l +:+ "." +:+ rest) = l :: split "." rest.
Proof.
induction l as [|a l IH]; [reflexivity|].
cbn [chars_in]. intros [Ha Hl]%andb_true_iff. rewrite append_cons. cbn [split].
unfold no_dot in Ha. destruct (Ascii.eqb a "."); [discriminate|].
rewrite (IH Hl). reflexivity.
Qed.

Lemma split_nonempty c s : split c s <> [].
Proof.
destruct s as [|a s]; [discriminate|]. cbn [split].
destruct (Ascii.eqb a c); [discriminate|]. destruct (split c s); discriminate.
Qed.

(** Splitting at a character and joining with it gives the string back. *)
Lemma join_split c s : join (String c EmptyString) (split c s) = s.
Proof.
induction s as [|a s IH]; [reflexivity|]. cbn [split].
destruct (Ascii.eqb_spec a c) as [->|Hne].
- pose proof (split_nonempty c s) as Hs.
  destruct (split c s) as [|h t] eqn:E; [congruence|].
  cbn [join]. cbn [join] in IH. rewrite append_nil_l, append_cons, append_nil_l.
  f_equal. exact IH.
- pose proof (split_nonempty c s) as Hs.
  destruct (split c s) as [|h t] eqn:E; [congruence|].
  destruct t as [|h' t].
  + cbn [join] in *. rewrite IH. reflexivity.
  + cbn [join] in *. rewrite append_cons, IH. reflexivity.
Qed.

(** X14: the [data] of an SRV request takes the name apart at its first two
    dots: service, protocol, and the host that remains. *)
Theorem srv_name_parts (r : obj) (service proto host : string) :
  get r "type" = VStr "SRV" ->
  get r "name" = VStr (service +:+ "." +:+ proto +:+ "." +:+ host) ->
  chars_in no_dot service = true -> chars_in no_dot proto = true ->
  exists payload data,
    buildPayload r = Some payload
    /\ get payload "data" = VObj data
    /\ get data "service" = VStr service
    /\ get data "proto" = VStr proto
    /\ get data "name" = VStr host.
Proof.
intros Hty Hn Hs Hp. unfold buildPayload. rewrite Hty, Hn.
cbn [strict_eq String.eqb Ascii.eqb Bool.eqb includes_value str_includes].
rewrite (split_label service _ Hs), (split_label proto _ Hp).
cbn [at_index lookup list_lookup drop mbind option_bind].
rewrite drop_0, join_split.
eexists _, _. split; [reflexivity|]. repeat split.
Qed.

Lemma srv_name_parts_witness :
  let r := [("type", VStr "SRV"); ("name", VStr "_sip._tcp.blog"); ("priority", VNum 10);
            ("weight", VNum 5); ("port", VNum 5060); ("target", VStr "sip.example.net")] in
  exists payload data,
    buildPayload r = Some payload
    /\ get payload "data" = VObj data
    /\ get data "service" = VStr "_sip"
    /\ get data "proto" = VStr "_tcp"
    /\ get data "name" = VStr "blog".
Proof.
apply (srv_name_parts _ "_sip" "_tcp" "blog"); reflexivity.
Defined.

End PayloadFacts.

(** * Hostname scopes and the change list *)
Module ScopeFacts.
Import JsString Js Regex Json Validator ValidatorRun Remote Sync SyncSpec ExtraSpec.
Import FeedSpec StringFacts RegexFacts OwnershipFacts FeedFacts RunFacts.

Lemma endsWith_spec s p : endsWith s p = true <-> exists pre, s = pre +:+ p.
Proof.
induction s as [|a s IH]; cbn [endsWith].
- destruct (String.eqb_spec EmptyString p) as [<-|Hne].
  + split; [exists EmptyString; reflexivity|reflexivity].
  + split; [discriminate|]. intros [pre E]. symmetry in E.
    apply append_eq_nil in E as [_ E]. congruence.
- destruct (String.eqb_spec (String a s) p) as [<-|Hne].
  + split; [exists EmptyString; reflexivity|reflexivity].
  + rewrite IH. split.
    * intros [pre ->]. exists (String a pre). reflexivity.
    * intros [pre E]. destruct pre as [|b pre].
      -- rewrite append_nil_l in E. congruence.
      -- rewrite append_cons in E. injection E as _ ->. eauto.
Qed.

Lemma append_cancel_r s : forall t u, t +:+ s = u +:+ s -> t = u.
Proof.
intros t. induction t as [|a t IH]; intros [|b u] E.
- reflexivity.
- apply (f_equal String.length) in E.
  rewrite append_nil_l, append_cons in E. cbn [String.length] in E.
  rewrite length_append in E. lia.
- apply (f_equal String.length) in E.
  rewrite append_nil_l, append_cons in E. cbn [String.length] in E.
  rewrite length_append in E. lia.
- rewrite !append_cons in E. injection E as -> E. f_equal. auto.
Qed.

Lemma label_prefix_tail a x : label_prefix (String a x) -> label_prefix x.
Proof.
intros [E|[y E]]; [discriminate|]. destruct y as [|b y].
- rewrite append_nil_l in E. injection E as _ ->. left. reflexivity.
- rewrite append_cons in E. injection E as _ ->. right. eauto.
Qed.

Lemma label_unique x : forall x' s s',
  label_prefix x -> label_prefix x' ->
  chars_in no_dot s = true -> chars_in no_dot s' = true ->
  x +:+ s = x' +:+ s' -> s = s'.
Proof.
assert (forall y s t, chars_in no_dot s = true -> s = (y +:+ ".") +:+ t -> False) as Hdot.
{ intros y s t Hs ->. rewrite !chars_in_app in Hs. cbn in Hs.
  rewrite andb_false_r in Hs. discriminate. }
induction x as [|a x IH]; intros [|b x'] s s' Hx Hx' Hs Hs' E.
- exact E.
- rewrite append_nil_l in E. destruct Hx' as [?|[y Ey]]; [discriminate|].
  exfalso. rewrite Ey in E. exact (Hdot _ _ _ Hs E).
- rewrite append_nil_l in E. destruct Hx as [?|[y Ey]]; [discriminate|].
  exfalso. rewrite Ey in E. symmetry in E. exact (Hdot _ _ _ Hs' E).
- rewrite !append_cons in E. injection E as _ E.
  exact (IH x' s s' (label_prefix_tail _ _ Hx) (label_prefix_tail _ _ Hx') Hs Hs' E).
Qed.

Lemma in_scope_of_spec sub domain r :
  in_scope_of sub domain r = true
  <-> exists x, label_prefix x /\ rec_name r = x +:+ sub +:+ "." +:+ domain.
Proof.
unfold in_scope_of. rewrite orb_true_iff, String.eqb_eq, endsWith_spec. split.
- intros [E|[pre E]].
  + exists EmptyString. split; [left; reflexivity|exact E].
  + exists (pre +:+ "."). split; [right; eauto|].
    rewrite E, !append_assoc. reflexivity.
- intros (x & [->|[y ->]] & E); [left; exact E|right].
  exists y. rewrite E, !append_assoc. reflexivity.
Qed.

Lemma subdomain_no_dot s : test SUBDOMAIN_REGEX s = true -> chars_in no_dot s = true.
Proof.
intros [H _]%test_Plus_class.
eapply chars_in_impl; [|exact H]. apply subdomain_char_not_dot.
Qed.

(** X15: no record lies in the scope of two different subdomains. *)
Theorem scopes_disjoint (sub1 sub2 domain : string) (all : list RemoteRecord) :
  test SUBDOMAIN_REGEX sub1 = true ->
  test SUBDOMAIN_REGEX sub2 = true ->
  sub1 <> sub2 ->
  recordsForSubdomain sub1 (recordsForSubdomain sub2 all domain) domain = [].
Proof.
intros H1%subdomain_no_dot H2%subdomain_no_dot Hne.
unfold recordsForSubdomain.
change (fun r : RemoteRecord => _ || _) with (in_scope_of sub1 domain) at 1.
change (fun r : RemoteRecord => _ || _) with (in_scope_of sub2 domain).
induction all as [|r all IH]; [reflexivity|]. cbn [List.filter].
destruct (in_scope_of sub2 domain r) eqn:E2; [|exact IH].
cbn [List.filter]. destruct (in_scope_of sub1 domain r) eqn:E1; [|exact IH].
exfalso. apply Hne.
apply in_scope_of_spec in E1 as (x1 & Hx1 & N1), E2 as (x2 & Hx2 & N2).
rewrite N1 in N2. rewrite <- !append_assoc in N2.
apply append_cancel_r, append_cancel_r in N2.
exact (label_unique _ _ _ _ Hx1 Hx2 H1 H2 N2).
Qed.

Lemma scopes_disjoint_witness :
  recordsForSubdomain "blog"
    (recordsForSubdomain "go" (zone_records stale_zone) "example.com") "example.com" = [].
Proof. apply scopes_disjoint; [reflexivity|reflexivity|discriminate]. Defined.

Lemma replace_suffix s p :
  chars_in no_dot s = true -> replace (s +:+ String "." p) (String "." p) "" = s.
Proof.
induction s as [|a s IH].
- intros _. rewrite append_nil_l. cbn [replace].
  replace (startsWith (String "." p) (String "." p)) with true
    by (symmetry; apply startsWith_spec; exists EmptyString; rewrite append_nil_r; reflexivity).
  rewrite append_nil_l. cbn [String.length slice_from].
  clear. induction p as [|b p IH]; [reflexivity|exact IH].
- cbn [chars_in]. intros [Ha Hs]%andb_true_iff. rewrite append_cons. cbn [replace startsWith].
  unfold no_dot in Ha. destruct (Ascii.eqb a "."); [discriminate|].
  rewrite (IH Hs). reflexivity.
Qed.

Lemma replace_prefix p t : replace (p +:+ t) p "" = t.
Proof.
assert (replace (p +:+ t) p "" = slice_from (String.length p) (p +:+ t)) as ->.
{ assert (startsWith (p +:+ t) p = true) as H by (apply startsWith_spec; eauto).
  destruct (p +:+ t); cbn [replace]; rewrite H; apply append_nil_l. }
induction p as [|a p IH]; [reflexivity|]. rewrite append_cons. exact IH.
Qed.

Lemma derived_sub s :
  test SUBDOMAIN_REGEX s = true ->
  replace (replace ("domains/" +:+ s +:+ ".json") "domains/" "") ".json" "" = s.
Proof.
intros Hs%subdomain_no_dot.
assert (replace ("domains/" +:+ s +:+ ".json") "domains/" "" = s +:+ ".json") as ->
  by apply replace_prefix.
apply replace_suffix, Hs.
Qed.

(** X16: the subdomain the main loop derives from the path of a validated
    file is the subdomain of the file, so a deleted file is answered by
    clearing that subdomain's records and redirect rules. *)
Theorem deleted_file_subdomain (fs : string -> option definition) (domain s : string) :
  test SUBDOMAIN_REGEX s = true ->
  process_change fs domain (deletion_of s)
  = (all ← listAllRecords;
     delete_all (recordsForSubdomain s all domain);;
     syncRedirects s [] domain).
Proof.
intros Hs. unfold process_change, deletion_of. cbn [status file String.eqb Ascii.eqb Bool.eqb].
rewrite (derived_sub s Hs). reflexivity.
Qed.

Lemma deleted_file_subdomain_witness :
  process_change go_files "example.com" (deletion_of "go")
  = (all ← listAllRecords;
     delete_all (recordsForSubdomain "go" all "example.com");;
     syncRedirects "go" [] "example.com").
Proof. apply deleted_file_subdomain. reflexivity. Defined.

Lemma parse_lines_bare lines line :
  In line lines -> no_space line = true -> parse_lines lines = None.
Proof.
induction lines as [|l lines IH]; [contradiction|].
intros [->|Hin] Hl; cbn [parse_lines].
- unfold parse_line, split_ws. rewrite (split_ws_free _ false Hl). reflexivity.
- destruct (parse_line l); [|reflexivity]. cbn [mbind option_bind].
  rewrite (IH Hin Hl). reflexivity.
Qed.

(** X17: one non-empty line of plain ASCII without white space in the change
    list (a bare path, the form the validator reads) makes the sync
    script throw before it issues any request. *)
Theorem bare_line_throws (fs : string -> option definition)
    (changes_txt domain line : string) (w : world) :
  In line (split newline changes_txt) ->
  line <> EmptyString ->
  chars_in plain_char line = true ->
  no_space line = true ->
  main fs changes_txt domain w = Thrown w.
Proof.
intros Hin Hne _ Hl. unfold main, changes.
rewrite (parse_lines_bare _ line); [reflexivity| |exact Hl].
apply filter_In. split; [exact Hin|]. unfold nonempty.
destruct (String.eqb_spec line EmptyString); [congruence|reflexivity].
Qed.

Lemma bare_line_throws_witness :
  main go_files "domains/go.json" "example.com" {| remote := stale_zone; trace := [] |}
  = Thrown {| remote := stale_zone; trace := [] |}.
Proof.
apply (bare_line_throws _ _ _ "domains/go.json");
  [left; reflexivity|discriminate|reflexivity|reflexivity].
Defined.

(** X18: of a change list made of ["<status> <path>"] lines whose paths
    are plain ASCII without white space, the sync script keeps exactly
    the entries under [domains/] that end in [.json], in order, each
    with its status and path. *)
Theorem status_lines_read (feed : list (feed_status * string)) :
  forallb (fun e => chars_in plain_char (snd e)) feed = true ->
  forallb (fun e => no_space (snd e)) feed = true ->
  changes (render (map feed_line feed))
  = Some (map to_change (List.filter (fun e => in_scope (snd e)) feed)).
Proof. intros _ H. exact (changes_of_feed feed H). Qed.

Lemma status_lines_read_witness :
  let feed := [(Added, "domains/blog.json"); (Modified, "README.md");
               (Deleted, "domains/old.json")] in
  forallb (fun e => chars_in plain_char (snd e)) feed = true
  /\ forallb (fun e => no_space (snd e)) feed = true
  /\ changes (render (map feed_line feed))
     = Some [{| status := "A"; file := "domains/blog.json" |};
             {| status := "D"; file := "domains/old.json" |}].
Proof.
split; [reflexivity|]. split; [reflexivity|].
apply (status_lines_read [(Added, "domains/blog.json"); (Modified, "README.md");
                          (Deleted, "domains/old.json")]); reflexivity.
Defined.

Lemma div_step a : PAGE_SIZE <= a -> a / PAGE_SIZE = S ((a - PAGE_SIZE) / PAGE_SIZE).
Proof.
intros H. replace a with ((a - PAGE_SIZE) + 1 * PAGE_SIZE) at 1 by lia.
rewrite Nat.div_add by (unfold PAGE_SIZE; lia). lia.
Qed.

Lemma listAllRecords_loop_pages fuel : forall page w,
  1 <= page ->
  PAGE_SIZE * (page - 1) <= length (zone_records (remote w)) ->
  (length (zone_records (remote w)) - PAGE_SIZE * (page - 1)) / PAGE_SIZE < fuel ->
  listAllRecords_loop fuel page
    (take (PAGE_SIZE * (page - 1)) (zone_records (remote w))) w
  = Done (zone_records (remote w))
      (logged w (map ListRecords
                   (seq page (S ((length (zone_records (remote w))
                                  - PAGE_SIZE * (page - 1)) / PAGE_SIZE))))).
Proof.
induction fuel as [|fuel IH]; intros page w Hpage Hoff Hfuel; [lia|].
cbn [listAllRecords_loop]. rewrite bind_run, cf_list_records_run.
set (recs := zone_records (remote w)) in *.
set (off := PAGE_SIZE * (page - 1)) in *.
assert (take off recs ++ take PAGE_SIZE (drop off recs) = take (off + PAGE_SIZE) recs) as Hacc
  by apply take_take_drop.
rewrite Hacc.
destruct (Nat.ltb_spec (length (take PAGE_SIZE (drop off recs))) PAGE_SIZE) as [Hlt|Hge].
- rewrite length_take, length_drop in Hlt.
  rewrite Nat.div_small by (clearbody off; lia).
  rewrite take_ge by (clearbody off; lia). reflexivity.
- rewrite length_take, length_drop in Hge.
  assert (off + PAGE_SIZE = PAGE_SIZE * (S page - 1)) as Hnext
    by (unfold off, PAGE_SIZE; lia).
  assert (PAGE_SIZE <= length recs - off) as Hbig by (clearbody off; lia).
  rewrite (div_step _ Hbig) in Hfuel |- *.
  rewrite Hnext.
  pose proof (IH (S page) (logged w [ListRecords page])) as Hn.
  cbn [logged remote] in Hn. fold recs in Hn. rewrite <- Hnext in Hn.
  replace (length recs - (off + PAGE_SIZE)) with (length recs - off - PAGE_SIZE) in Hn
    by (clearbody off; lia).
  rewrite <- Hnext. rewrite Hn; [|lia|clearbody off; lia|lia].
  rewrite logged_app. reflexivity.
Qed.

(** X19: [listAllRecords] returns the whole zone after asking for the pages
    1, 2, ... in order, one more than the zone has full pages of 500 (so a
    last, empty page when the count is a multiple of 500), and leaves the
    zone as it is. *)
Theorem listAllRecords_pages (w : world) :
  listAllRecords w
  = Done (zone_records (remote w))
      (logged w (map ListRecords
                   (seq 1 (S (length (zone_records (remote w)) / PAGE_SIZE))))).
Proof.
unfold listAllRecords. rewrite bind_run. cbn [get_zone].
pose proof (listAllRecords_loop_pages
              (S (length (zone_records (remote w)) / PAGE_SIZE)) 1 w) as H.
cbn [Nat.sub] in H. rewrite Nat.mul_0_r, Nat.sub_0_r in H. cbn [take] in H.
apply H; [lia|lia|lia].
Qed.

End ScopeFacts.

(** * What a run leaves alone *)
Module FrameFacts.
Import JsString Js Regex Json Validator ValidatorRun Remote Sync SyncSpec ExtraSpec.
Import StringFacts RunFacts RedirectFacts ConvergedFacts.

Lemma frame_refl existing recs : frame existing recs recs.
Proof. exists []. rewrite List.app_nil_r. reflexivity. Qed.

Lemma frame_trans existing a b c :
  frame existing a b -> frame existing b c -> frame existing a c.
Proof.
intros [x Hx] [y Hy]. exists (x ++ y). rewrite Hy, Hx, List.app_assoc. reflexivity.
Qed.

Lemma frames_ret {A : Type} existing (a : A) : frames existing (mret a).
Proof. intros w. apply frame_refl. Qed.

Lemma frames_throw {A : Type} existing : frames existing (@throw A).
Proof. intros w. apply frame_refl. Qed.

Lemma frames_bind {A B : Type} existing (m : M A) (k : A -> M B) :
  frames existing m -> (forall a, frames existing (k a)) -> frames existing (m ≫= k).
Proof.
intros Hm Hk w. pose proof (Hm w) as H1. rewrite bind_run.
destruct (m w) as [a w1|w1|w1]; cbn [final_world] in *; [|assumption..].
exact (frame_trans _ _ _ _ H1 (Hk a w1)).
Qed.

Lemma untouched_by_id existing id e :
  existsb (has_id id) existing = true -> has_id id e = true ->
  untouched_by existing e = false.
Proof.
intros Hex He. unfold untouched_by. apply negb_false_iff.
unfold has_id in He. apply Nat.eqb_eq in He. rewrite He. exact Hex.
Qed.

Lemma frames_update existing id payload :
  existsb (has_id id) existing = true -> frames existing (cf_update_record id payload).
Proof.
intros Hex w. unfold cf_update_record, mbind, M_bind, log, get_zone. cbn [remote trace].
destruct (record_of_payload id payload) as [e'|] eqn:Ee; [|apply frame_refl].
destruct (existsb _ (zone_records (remote w))); [|apply frame_refl].
cbn [put_zone final_world remote zone_records]. exists []. rewrite List.app_nil_r.
assert (rec_id e' = id) as Hid.
{ unfold record_of_payload in Ee.
  destruct (get payload "type"); try discriminate.
  destruct (get payload "name"); try discriminate. injection Ee as <-. reflexivity. }
induction (zone_records (remote w)) as [|e l IH]; [reflexivity|].
cbn [map List.filter]. destruct (has_id id e) eqn:He.
- rewrite (untouched_by_id existing id e Hex He).
  rewrite (untouched_by_id existing id e' Hex)
    by (unfold has_id; rewrite Hid; apply Nat.eqb_refl).
  exact IH.
- destruct (untouched_by existing e); [f_equal|]; exact IH.
Qed.

Lemma frames_create existing payload : frames existing (cf_create_record payload).
Proof.
intros w. unfold cf_create_record, mbind, M_bind, log, get_zone. cbn [remote trace].
destruct (record_of_payload _ payload) as [e'|]; [|apply frame_refl].
cbn [put_zone final_world remote zone_records].
unfold frame. rewrite List.filter_app. eexists. reflexivity.
Qed.

Lemma frames_delete existing id :
  existsb (has_id id) existing = true -> frames existing (cf_delete_record id).
Proof.
intros Hex w. unfold cf_delete_record, mbind, M_bind, log, get_zone. cbn [remote trace].
destruct (existsb _ (zone_records (remote w))); [|apply frame_refl].
cbn [put_zone final_world remote zone_records]. exists []. rewrite List.app_nil_r.
induction (zone_records (remote w)) as [|e l IH]; [reflexivity|].
cbn [List.filter]. destruct (has_id id e) eqn:He; cbn [negb List.filter].
- rewrite (untouched_by_id existing id e Hex He). exact IH.
- destruct (untouched_by existing e); [f_equal|]; exact IH.
Qed.

Lemma existsb_has_id existing m : In m existing -> existsb (has_id (rec_id m)) existing = true.
Proof.
intros H. apply existsb_exists. exists m. split; [exact H|].
unfold has_id. apply Nat.eqb_refl.
Qed.

Lemma frames_sync_records scope existing rs : forall keep,
  (forall m, In m existing -> In m scope) ->
  frames scope (sync_records existing rs keep).
Proof.
induction rs as [|r rs IH]; intros keep Hsub; [apply frames_ret|].
cbn [sync_records]. destruct (buildPayload r) as [payload|]; [|apply frames_throw].
destruct (find_match existing payload) as [m|] eqn:Em.
- apply find_some in Em as [Hm _].
  apply frames_bind; [|intros _; apply IH, Hsub].
  destruct (negb _); [|apply frames_ret].
  apply frames_update, existsb_has_id, Hsub, Hm.
- apply frames_bind; [apply frames_create|intros _; apply IH, Hsub].
Qed.

Lemma frames_cleanup scope existing keep :
  (forall m, In m existing -> In m scope) -> frames scope (cleanup existing keep).
Proof.
induction existing as [|e existing IH]; intros Hsub; [apply frames_ret|].
cbn [cleanup]. apply frames_bind.
- destruct (bool_decide _); [apply frames_ret|].
  apply frames_delete, existsb_has_id, Hsub. left. reflexivity.
- intros _. apply IH. intros m Hm. apply Hsub. right. exact Hm.
Qed.

Lemma frames_delete_all scope rs :
  (forall m, In m rs -> In m scope) -> frames scope (delete_all rs).
Proof.
induction rs as [|e rs IH]; intros Hsub; [apply frames_ret|].
cbn [delete_all]. apply frames_bind.
- apply frames_delete, existsb_has_id, Hsub. left. reflexivity.
- intros _. apply IH. intros m Hm. apply Hsub. right. exact Hm.
Qed.

Lemma syncRedirects_records sub urlRecords domain w :
  exists w2,
    syncRedirects sub urlRecords domain w = Done tt w2
    /\ zone_records (remote w2) = zone_records (remote w).
Proof.
destruct (fetch_current_rules_total w) as (ruleset & w1 & Hfetch & Hex & Hrecs).
destruct (syncRedirects_run sub urlRecords domain w ruleset _ w1 Hfetch Hex eq_refl)
  as (w2 & Hrun & Hrecs2 & _).
exists w2. split; [exact Hrun|]. congruence.
Qed.

Lemma frames_syncRedirects scope sub urlRecords domain :
  frames scope (syncRedirects sub urlRecords domain).
Proof.
intros w. destruct (syncRedirects_records sub urlRecords domain w) as (w2 & -> & Hrecs).
cbn [final_world]. rewrite Hrecs. apply frame_refl.
Qed.

(** X21: whether a run of [applyFile] ends normally or throws, the records
    whose id is not the id of a record in the hostname's scope are still
    in the zone afterwards, unchanged and in their order. *)
Theorem applyData_frame (data : definition) (domain : string) (w : world) :
  frame (recordsForSubdomain (subdomain data) (zone_records (remote w)) domain)
    (zone_records (remote w))
    (zone_records (remote (final_world (applyData data domain w)))).
Proof.
unfold applyData. destruct (listAllRecords_run w) as [pages Hlist].
rewrite (bind_done _ _ _ _ _ Hlist).
set (existing := recordsForSubdomain (subdomain data) (zone_records (remote w)) domain).
change (zone_records (remote w))
  with (zone_records (remote (logged w (map ListRecords pages)))) at 1.
generalize (logged w (map ListRecords pages)). clear pages Hlist.
change (frames existing
          (keep ← sync_records existing (records data) ∅;
           (if (0 <? length (List.filter is_url (records data)))%nat
            then syncRedirects (subdomain data) (List.filter is_url (records data)) domain
            else mret tt);;
           cleanup existing keep)).
apply frames_bind; [apply frames_sync_records; auto|]. intros keep.
apply frames_bind; [|intros _; apply frames_cleanup; auto].
destruct (0 <? _)%nat; [apply frames_syncRedirects|apply frames_ret].
Qed.

Lemma keeps_ret {A : Type} (a : A) : keeps_rulesets (mret a).
Proof. intros w. reflexivity. Qed.

Lemma keeps_throw {A : Type} : keeps_rulesets (@throw A).
Proof. intros w. reflexivity. Qed.

Lemma keeps_bind {A B : Type} (m : M A) (k : A -> M B) :
  keeps_rulesets m -> (forall a, keeps_rulesets (k a)) -> keeps_rulesets (m ≫= k).
Proof.
intros Hm Hk w. pose proof (Hm w) as H1. rewrite bind_run.
destruct (m w) as [a w1|w1|w1]; cbn [final_world] in *; [|assumption..].
rewrite (Hk a w1). exact H1.
Qed.

Lemma keeps_update id payload : keeps_rulesets (cf_update_record id payload).
Proof.
intros w. unfold cf_update_record, mbind, M_bind, log, get_zone. cbn [remote trace].
destruct (record_of_payload id payload); [|reflexivity].
destruct (existsb _ _); reflexivity.
Qed.

Lemma keeps_create payload : keeps_rulesets (cf_create_record payload).
Proof.
intros w. unfold cf_create_record, mbind, M_bind, log, get_zone. cbn [remote trace].
destruct (record_of_payload _ payload); reflexivity.
Qed.

Lemma keeps_delete id : keeps_rulesets (cf_delete_record id).
Proof.
intros w. unfold cf_delete_record, mbind, M_bind, log, get_zone. cbn [remote trace].
destruct (existsb _ _); reflexivity.
Qed.

Lemma keeps_listAllRecords : keeps_rulesets listAllRecords.
Proof. intros w. destruct (listAllRecords_run w) as [pages ->]. reflexivity. Qed.

Lemma keeps_sync_records existing rs : forall keep,
  keeps_rulesets (sync_records existing rs keep).
Proof.
induction rs as [|r rs IH]; intros keep; [apply keeps_ret|].
cbn [sync_records]. destruct (buildPayload r) as [payload|]; [|apply keeps_throw].
destruct (find_match existing payload) as [m|].
- apply keeps_bind; [|intros _; apply IH].
  destruct (negb _); [apply keeps_update|apply keeps_ret].
- apply keeps_bind; [apply keeps_create|intros _; apply IH].
Qed.

Lemma keeps_cleanup existing keep : keeps_rulesets (cleanup existing keep).
Proof.
induction existing as [|e existing IH]; [apply keeps_ret|].
cbn [cleanup]. apply keeps_bind; [|intros _; exact IH].
destruct (bool_decide _); [apply keeps_ret|apply keeps_delete].
Qed.

(** X22: a definition without URL records leaves every ruleset as it is,
    however the run ends: the redirect rules of a URL record that was
    taken out of the file stay in place. *)
Theorem no_url_keeps_rulesets (data : definition) (domain : string) :
  List.filter is_url (records data) = [] ->
  keeps_rulesets (applyData data domain).
Proof.
intros Hno. unfold applyData. rewrite Hno. cbn [length Nat.ltb Nat.leb].
apply keeps_bind; [apply keeps_listAllRecords|]. intros all.
apply keeps_bind; [apply keeps_sync_records|]. intros keep.
apply keeps_bind; [apply keeps_ret|]. intros _. apply keeps_cleanup.
Qed.

Lemma no_url_keeps_rulesets_witness :
  zone_rulesets (remote (final_world (applyData dev_site "is-an-ai.dev"
                                        {| remote := dev_link_zone; trace := [] |})))
  = zone_rulesets dev_link_zone.
Proof.
exact (no_url_keeps_rulesets dev_site "is-an-ai.dev" eq_refl
         {| remote := dev_link_zone; trace := [] |}).
Defined.

End FrameFacts.

(** * What a run does to the zone *)
Module EffectFacts.
Import JsString Js Regex Json Validator ValidatorRun Remote Sync SyncSpec ExtraSpec.
Import StringFacts RegexFacts OwnershipFacts RunFacts RedirectFacts ConvergedFacts.
Import AcceptFacts PayloadFacts ScopeFacts FrameFacts.

Lemma find_map_preserved {A : Type} (P : A -> bool) (f : A -> A) l :
  (forall x, P (f x) = P x) -> List.find P (map f l) = option_map f (List.find P l).
Proof.
intros H. induction l as [|x l IH]; [reflexivity|]. cbn [map List.find].
rewrite H. destruct (P x); [reflexivity|exact IH].
Qed.

Lemma filter_owned_others hostname l :
  List.filter (owned_by hostname) (List.filter (fun r => negb (owned_by hostname r)) l) = [].
Proof.
induction l as [|r l IH]; [reflexivity|]. cbn [List.filter].
destruct (owned_by hostname r) eqn:E; cbn [negb List.filter]; [exact IH|].
rewrite E. exact IH.
Qed.

Lemma filter_owned_new hostname rs :
  List.filter (owned_by hostname) (map (new_rule hostname) rs) = map (new_rule hostname) rs.
Proof.
induction rs as [|r rs IH]; [reflexivity|]. cbn [map List.filter].
rewrite generated_rule_owned, IH. reflexivity.
Qed.

Lemma find_redirect_after_put id new_rules l s :
  List.find is_redirect_ruleset l = Some s ->
  exists s',
    List.find is_redirect_ruleset
      (map (fun s => if is_ruleset id s
                     then {| rs_id := rs_id s; phase := phase s; kind := kind s;
                             rules := Some new_rules |}
                     else s) l) = Some s'
    /\ rs_id s' = rs_id s.
Proof.
intros H. rewrite find_map_preserved, H.
- cbn [option_map]. eexists. split; [reflexivity|]. destruct (is_ruleset id s); reflexivity.
- intros x. destruct (is_ruleset id x); reflexivity.
Qed.

(** One call of [syncRedirects], with the ruleset it leaves behind. *)
Lemma syncRedirects_settles sub urls domain w :
  let hostname := sub +:+ "." +:+ domain in
  exists w2 s,
    syncRedirects sub urls domain w = Done tt w2
    /\ List.find is_redirect_ruleset (zone_rulesets (remote w2)) = Some s
    /\ List.filter (owned_by hostname) (stored_rules (rs_id s) (remote w2))
       = map (new_rule hostname) urls
    /\ zone_records (remote w2) = zone_records (remote w).
Proof.
intros hostname.
assert (exists s currentRules w1,
          fetch_current_rules w = Done (s, currentRules) w1
          /\ List.find is_redirect_ruleset (zone_rulesets (remote w1)) = Some s
          /\ stored_rules (rs_id s) (remote w1) = currentRules
          /\ existsb (is_ruleset (rs_id s)) (zone_rulesets (remote w1)) = true
          /\ zone_records (remote w1) = zone_records (remote w))
  as (s & currentRules & w1 & Hfetch & Hfind & Hst & Hex & Hrecs).
{ pose proof (fetch_current_rules_run w) as H.
  destruct (List.find is_redirect_ruleset (zone_rulesets (remote w))) as [s|] eqn:E.
  - exists s, (stored_rules (rs_id s) (remote w)), (logged w [ListRulesets; GetRuleset (rs_id s)]).
    split; [exact H|]. split; [exact E|]. split; [reflexivity|]. split; [|reflexivity].
    destruct (find_redirect_by_id _ _ E) as [s' Hs']. exact (find_some_exists _ _ _ Hs').
  - cbv zeta in H. eexists _, _, _. split; [exact H|]. cbn [remote].
    split; [|split; [|split; [|reflexivity]]].
    + unfold with_ruleset. cbn [zone_rulesets]. rewrite find_app_none by exact E. reflexivity.
    + apply stored_rules_created.
    + unfold with_ruleset. cbn [zone_rulesets]. rewrite existsb_app. cbn [existsb].
      unfold is_ruleset at 2. rewrite Nat.eqb_refl. apply orb_true_iff. right. reflexivity. }
unfold syncRedirects. rewrite bind_run, Hfetch. fold hostname.
set (otherRules := List.filter (fun r => negb (owned_by hostname r)) currentRules).
set (newRules := map (new_rule hostname) urls).
destruct (negb (length otherRules + length newRules =? length currentRules)%nat
          || (0 <? length newRules)%nat) eqn:Eguard.
- unfold cf_put_ruleset, mbind, M_bind, log, get_zone. cbn [remote trace]. rewrite Hex.
  cbn [put_zone]. destruct (find_redirect_after_put (rs_id s) (otherRules ++ newRules) _ _ Hfind)
    as (s' & Hfind' & Hid).
  eexists _, s'. split; [reflexivity|]. cbn [remote zone_rulesets zone_records].
  split; [exact Hfind'|]. split; [|exact Hrecs].
  rewrite Hid.
  assert (stored_rules (rs_id s)
            {| zone_records := zone_records (remote w1);
               zone_rulesets :=
                 map (fun s0 => if is_ruleset (rs_id s) s0
                                then {| rs_id := rs_id s0; phase := phase s0;
                                        kind := kind s0;
                                        rules := Some (otherRules ++ newRules) |}
                                else s0) (zone_rulesets (remote w1)) |}
          = otherRules ++ newRules) as ->.
  { destruct (cf_put_ruleset_run (rs_id s) (otherRules ++ newRules) w1 Hex)
      as (z' & Hput & _ & Hrules).
    unfold cf_put_ruleset, mbind, M_bind, log, get_zone in Hput. cbn [remote trace] in Hput.
    rewrite Hex in Hput. cbn [put_zone] in Hput. injection Hput as <-. exact Hrules. }
  rewrite List.filter_app. unfold otherRules, newRules.
  rewrite filter_owned_others, filter_owned_new. reflexivity.
- apply orb_false_iff in Eguard as [H1 H2].
  apply negb_false_iff, Nat.eqb_eq in H1. apply Nat.ltb_ge in H2.
  assert (length newRules = 0) as Hn by lia.
  assert (otherRules = currentRules) as Ho by (apply filter_full; fold otherRules; lia).
  exists w1, s. split; [reflexivity|]. split; [exact Hfind|]. split; [|exact Hrecs].
  rewrite Hst, <- Ho. unfold otherRules. rewrite filter_owned_others.
  destruct newRules; [reflexivity|discriminate].
Qed.


Lemma cf_delete_record_run id w :
  existsb (has_id id) (zone_records (remote w)) = true ->
  cf_delete_record id w
  = Done tt {| remote := {| zone_records :=
                              List.filter (fun e => negb (has_id id e)) (zone_records (remote w));
                            zone_rulesets := zone_rulesets (remote w) |};
               trace := trace w ++ [DeleteRecord id] |}.
Proof.
intros H. unfold cf_delete_record, mbind, M_bind, log, get_zone. cbn [remote trace].
rewrite H. reflexivity.
Qed.

Lemma same_id_same_record l a b :
  List.NoDup (map rec_id l) -> In a l -> In b l -> rec_id a = rec_id b -> a = b.
Proof.
induction l as [|e l IH]; [contradiction|]. cbn [map].
intros Hnd Ha Hb Hid. apply List.NoDup_cons_iff in Hnd as [Hfresh Hnd].
destruct Ha as [<-|Ha], Hb as [<-|Hb]; [reflexivity| | |auto].
- exfalso. apply Hfresh. rewrite Hid. apply in_map, Hb.
- exfalso. apply Hfresh. rewrite <- Hid. apply in_map, Ha.
Qed.

Lemma filter_filter {A : Type} (f g : A -> bool) l :
  List.filter f (List.filter g l) = List.filter (fun x => g x && f x) l.
Proof.
induction l as [|x l IH]; [reflexivity|]. cbn [List.filter].
destruct (g x); cbn [List.filter andb]; [destruct (f x); [f_equal|]|]; exact IH.
Qed.

(** Deleting records that are all in the zone, with pairwise different
    ids: every call succeeds and exactly the records with those ids go. *)
Lemma delete_all_run rs : forall w,
  List.NoDup (map rec_id rs) ->
  (forall m, In m rs -> existsb (has_id (rec_id m)) (zone_records (remote w)) = true) ->
  delete_all rs w
  = Done tt {| remote := {| zone_records :=
                              List.filter (untouched_by rs) (zone_records (remote w));
                            zone_rulesets := zone_rulesets (remote w) |};
               trace := trace w ++ map (fun m => DeleteRecord (rec_id m)) rs |}.
Proof.
induction rs as [|e rs IH]; intros w Hnd Hin.
- cbn [delete_all map]. rewrite List.app_nil_r. destruct w as [[recs sets] tr].
  cbn [remote zone_records zone_rulesets trace mret M_ret].
  rewrite forallb_filter_id; [reflexivity|]. apply forallb_forall. reflexivity.
- cbn [delete_all map] in *. apply List.NoDup_cons_iff in Hnd as [Hfresh Hnd].
  rewrite bind_run, cf_delete_record_run by (apply Hin; left; reflexivity).
  rewrite IH; [| exact Hnd |].
  + cbn [remote zone_records zone_rulesets trace]. rewrite <- List.app_assoc.
    cbn [app]. f_equal. f_equal. f_equal. rewrite filter_filter.
    apply filter_ext. intros x. unfold untouched_by. cbn [existsb].
    unfold has_id. rewrite negb_orb, (Nat.eqb_sym (rec_id e)). reflexivity.
  + intros m Hm. cbn [remote zone_records].
    pose proof (Hin m (or_intror Hm)) as Hex.
    apply existsb_exists in Hex as (x & Hx & Hid).
    apply existsb_exists. exists x. split; [|exact Hid].
    apply filter_In. split; [exact Hx|]. apply negb_true_iff.
    unfold has_id in *. apply Nat.eqb_eq in Hid. rewrite Hid.
    apply Nat.eqb_neq. intros E. apply Hfresh. rewrite <- E. apply in_map, Hm.
Qed.

Lemma NoDup_map_filter {A B : Type} (f : A -> B) (P : A -> bool) l :
  List.NoDup (map f l) -> List.NoDup (map f (List.filter P l)).
Proof.
induction l as [|x l IH]; [auto|]. cbn [map List.filter].
intros [Hfresh Hnd]%List.NoDup_cons_iff. destruct (P x); [|auto].
cbn [map]. apply List.NoDup_cons_iff. split; [|auto].
intros Hin. apply Hfresh. apply in_map_iff in Hin as (y & Hy & Hin).
apply filter_In in Hin as [Hin _]. rewrite <- Hy. apply in_map, Hin.
Qed.

Lemma untouched_by_scope sub domain recs :
  List.NoDup (map rec_id recs) ->
  List.filter (untouched_by (List.filter (in_scope_of sub domain) recs)) recs
  = List.filter (fun e => negb (in_scope_of sub domain e)) recs.
Proof.
intros Hnd. apply filter_ext_in. intros x Hx. unfold untouched_by. f_equal.
destruct (in_scope_of sub domain x) eqn:E.
- apply existsb_exists. exists x. split; [apply filter_In; auto|].
  unfold has_id. apply Nat.eqb_refl.
- apply not_true_iff_false. intros (m & Hm & Hid)%existsb_exists.
  apply filter_In in Hm as [Hm Hs]. unfold has_id in Hid. apply Nat.eqb_eq in Hid.
  rewrite (same_id_same_record recs m x Hnd Hm Hx Hid) in Hs. congruence.
Qed.

Lemma filter_none {A : Type} (f : A -> bool) l :
  (forall x, f x = false) -> List.filter f l = [].
Proof.
intros H. induction l as [|x l IH]; [reflexivity|]. cbn [List.filter]. rewrite H. exact IH.
Qed.

(** X24: the change entry of a deleted definition file, on a zone whose
    record ids are pairwise different: the run ends normally, the records
    in the scope of the subdomain's hostname are gone and the others are
    as they were, and no redirect rule of the hostname is left. *)
Theorem removal_clears (fs : string -> option definition) (domain sub : string) (w : world) :
  test SUBDOMAIN_REGEX sub = true ->
  List.NoDup (map rec_id (zone_records (remote w))) ->
  exists w',
    process_change fs domain (deletion_of sub) w = Done tt w'
    /\ zone_records (remote w')
       = List.filter (fun e => negb (in_scope_of sub domain e)) (zone_records (remote w))
    /\ recordsForSubdomain sub (zone_records (remote w')) domain = []
    /\ redirects_converged (removed sub) domain (remote w').
Proof.
intros Hs Hnd. unfold process_change, deletion_of.
cbn [status file String.eqb Ascii.eqb Bool.eqb]. rewrite (derived_sub sub Hs).
destruct (listAllRecords_run w) as [pages Hlist].
rewrite (bind_done _ _ _ _ _ Hlist). rewrite bind_run.
change (recordsForSubdomain sub (zone_records (remote w)) domain)
  with (List.filter (in_scope_of sub domain) (zone_records (remote w))).
rewrite delete_all_run.
- cbn [logged remote trace zone_records zone_rulesets].
  rewrite (untouched_by_scope sub domain _ Hnd).
  match goal with |- context [syncRedirects sub [] domain ?w1] =>
    destruct (syncRedirects_settles sub [] domain w1) as (w2 & s & Hrun & Hfind & Hst & Hrecs)
  end.
  exists w2. split; [exact Hrun|]. cbn [remote zone_records] in Hrecs.
  split; [exact Hrecs|]. split.
  + rewrite Hrecs.
    change (recordsForSubdomain sub ?l domain) with (List.filter (in_scope_of sub domain) l).
    rewrite filter_filter. apply filter_none. intros x.
    destruct (in_scope_of sub domain x); reflexivity.
  + unfold redirects_converged. cbv zeta. cbn [removed subdomain records List.filter].
    rewrite Hfind. exact Hst.
- apply NoDup_map_filter, Hnd.
- intros m Hm. cbn [logged remote]. apply filter_In in Hm as [Hm _].
  apply existsb_has_id, Hm.
Qed.

Lemma removal_clears_witness :
  exists w',
    process_change go_files "example.com" (deletion_of "go")
      {| remote := stale_zone; trace := [] |} = Done tt w'
    /\ zone_records (remote w')
       = List.filter (fun e => negb (in_scope_of "go" "example.com" e))
           (zone_records stale_zone)
    /\ recordsForSubdomain "go" (zone_records (remote w')) "example.com" = []
    /\ redirects_converged (removed "go") "example.com" (remote w').
Proof.
apply (removal_clears go_files "example.com" "go" {| remote := stale_zone; trace := [] |}).
- reflexivity.
- apply NoDup_ListNoDup, (bool_decide_unpack _). vm_compute. exact I.
Defined.

End EffectFacts.

(** * Records that every run writes again *)
Module ChurnFacts.
Import JsString Js Regex Json Validator ValidatorRun ValidatorSpec Remote Sync SyncSpec ExtraSpec.
Import StringFacts RegexFacts OwnershipFacts RunFacts RedirectFacts ConvergedFacts PhaseFacts.
Import AcceptFacts PayloadFacts ScopeFacts FrameFacts EffectFacts.

Lemma cf_create_record_trace payload w :
  trace (final_world (cf_create_record payload w)) = trace w ++ [CreateRecord payload].
Proof.
unfold cf_create_record, mbind, M_bind, log, get_zone. cbn [remote trace].
destruct (record_of_payload _ payload); reflexivity.
Qed.

Lemma cf_update_record_trace id payload w :
  trace (final_world (cf_update_record id payload w)) = trace w ++ [UpdateRecord id payload].
Proof.
unfold cf_update_record, mbind, M_bind, log, get_zone. cbn [remote trace].
destruct (record_of_payload id payload); [|reflexivity].
destruct (existsb _ _); reflexivity.
Qed.

(** The calls of a record loop that got to its end. *)
Lemma sync_records_calls existing rs : forall keep w keep' w',
  sync_records existing rs keep w = Done keep' w' ->
  exists cs,
    trace w' = trace w ++ cs
    /\ forall r payload,
         In r rs -> buildPayload r = Some payload ->
         match find_match existing payload with
         | None => In (CreateRecord payload) cs
         | Some m => sameRecord m payload = false -> In (UpdateRecord (rec_id m) payload) cs
         end.
Proof.
induction rs as [|r rs IH]; intros keep w keep' w' H.
- injection H as _ <-. exists []. rewrite List.app_nil_r. split; [reflexivity|contradiction].
- cbn [sync_records] in H. destruct (buildPayload r) as [payload|] eqn:Ep; [|discriminate].
  destruct (find_match existing payload) as [m|] eqn:Em.
  + rewrite bind_run in H.
    destruct (sameRecord m payload) eqn:Es; cbn [negb mret M_ret] in H.
    * destruct (IH _ _ _ _ H) as (cs & Ht & Hcs). exists cs. split; [exact Ht|].
      intros r' p' [<-|Hin] Hp'; [|exact (Hcs r' p' Hin Hp')].
      rewrite Ep in Hp'. injection Hp' as <-. rewrite Em, Es. discriminate.
    * pose proof (cf_update_record_trace (rec_id m) payload w) as Hu.
      destruct (cf_update_record (rec_id m) payload w) as [[] w1|w1|w1]; [|discriminate..].
      cbn [final_world] in Hu. destruct (IH _ _ _ _ H) as (cs & Ht & Hcs).
      exists (UpdateRecord (rec_id m) payload :: cs). split.
      -- rewrite Ht, Hu, <- List.app_assoc. reflexivity.
      -- intros r' p' [<-|Hin] Hp'.
         ++ rewrite Ep in Hp'. injection Hp' as <-. rewrite Em. intros _. left. reflexivity.
         ++ specialize (Hcs r' p' Hin Hp'). destruct (find_match existing p').
            ** intros Hs. right. exact (Hcs Hs).
            ** right. exact Hcs.
  + rewrite bind_run in H.
    pose proof (cf_create_record_trace payload w) as Hc.
    destruct (cf_create_record payload w) as [[] w1|w1|w1]; [|discriminate..].
    cbn [final_world] in Hc. destruct (IH _ _ _ _ H) as (cs & Ht & Hcs).
    exists (CreateRecord payload :: cs). split.
    * rewrite Ht, Hc, <- List.app_assoc. reflexivity.
    * intros r' p' [<-|Hin] Hp'.
      -- rewrite Ep in Hp'. injection Hp' as <-. rewrite Em. left. reflexivity.
      -- specialize (Hcs r' p' Hin Hp'). destruct (find_match existing p').
         ++ intros Hs. right. exact (Hcs Hs).
         ++ right. exact Hcs.
Qed.

(** The calls of a run of [applyFile] that got to its end contain the
    calls of its record loop. *)
Lemma applyData_calls data domain w w' :
  applyData data domain w = Done tt w' ->
  let existing := recordsForSubdomain (subdomain data) (zone_records (remote w)) domain in
  forall r payload,
    In r (records data) -> buildPayload r = Some payload ->
    match find_match existing payload with
    | None => In (CreateRecord payload) (added_calls (applyData data domain) w)
    | Some m =>
        sameRecord m payload = false ->
        In (UpdateRecord (rec_id m) payload) (added_calls (applyData data domain) w)
    end.
Proof.
intros Hrun existing r payload Hr Hp. unfold added_calls. rewrite Hrun. cbn [final_world].
unfold applyData in Hrun. destruct (listAllRecords_run w) as [pages Hlist].
rewrite (bind_done _ _ _ _ _ Hlist) in Hrun. fold existing in Hrun.
rewrite bind_run in Hrun.
destruct (sync_records existing (records data) ∅ (logged w (map ListRecords pages)))
  as [keep w2|w2|w2] eqn:Esync; [|discriminate..].
destruct (sync_records_calls _ _ _ _ _ _ Esync) as (cs & Ht & Hcs).
assert (exists rest, trace w' = trace w2 ++ rest) as [rest Hrest].
{ rewrite bind_run in Hrun.
  assert (emits is_ruleset_call
            (if (0 <? length (List.filter is_url (records data)))%nat
             then syncRedirects (subdomain data) (List.filter is_url (records data)) domain
             else mret tt)) as Hred
    by (destruct (0 <? _)%nat; [apply emits_syncRedirects|apply emits_ret]).
  destruct (Hred w2) as (c3 & H3 & _).
  destruct ((if (0 <? length (List.filter is_url (records data)))%nat
             then syncRedirects (subdomain data) (List.filter is_url (records data)) domain
             else mret tt) w2) as [[] w3|w3|w3]; [|discriminate..].
  cbn [final_world] in H3.
  destruct (emits_cleanup existing keep w3) as (c4 & H4 & _).
  rewrite Hrun in H4. cbn [final_world] in H4.
  exists (c3 ++ c4). rewrite H4, H3, List.app_assoc. reflexivity. }
cbn [logged trace] in Ht.
assert (drop (length (trace w)) (trace w') = map ListRecords pages ++ cs ++ rest) as ->.
{ rewrite Hrest, Ht, <- !List.app_assoc, drop_app_length. reflexivity. }
specialize (Hcs r payload Hr Hp).
destruct (find_match existing payload).
- intros Hs. apply in_or_app. right. apply in_or_app. left. exact (Hcs Hs).
- apply in_or_app. right. apply in_or_app. left. exact Hcs.
Qed.

Lemma find_match_unscoped sub domain all payload name :
  get payload "name" = VStr name ->
  name_in_scope sub domain name = false ->
  find_match (recordsForSubdomain sub all domain) payload = None.
Proof.
intros Hn Hs. unfold find_match.
destruct (List.find _ _) as [m|] eqn:E; [|reflexivity]. exfalso.
apply find_some in E as [Hm Hk]. unfold recordsForSubdomain in Hm.
apply filter_In in Hm as [_ Hm]. unfold same_key in Hk.
apply andb_true_iff in Hk as [_ Hk]. rewrite Hn in Hk. cbn [strict_eq] in Hk.
apply String.eqb_eq in Hk. rewrite Hk in Hm. unfold name_in_scope in Hs. congruence.
Qed.

(** X25: a desired record whose name is outside the scope of the
    hostname is never matched with a record of the zone: every run that
    gets to its end issues the create call for it, whatever the zone
    holds. *)
Theorem unscoped_record_recreated (data : definition) (domain : string) (r payload : obj)
    (name : string) (w w' : world) :
  In r (records data) ->
  buildPayload r = Some payload ->
  get payload "name" = VStr name ->
  name_in_scope (subdomain data) domain name = false ->
  applyData data domain w = Done tt w' ->
  In (CreateRecord payload) (added_calls (applyData data domain) w).
Proof.
intros Hr Hp Hn Hs Hrun.
pose proof (applyData_calls data domain w w' Hrun r payload Hr Hp) as H. cbv zeta in H.
rewrite (find_match_unscoped _ _ _ _ _ Hn Hs) in H. exact H.
Qed.

Lemma unscoped_record_recreated_witness :
  In (CreateRecord blog_payload)
    (added_calls (applyData blog_definition "example.com")
       (final_world (applyData blog_definition "example.com"
                       {| remote := empty_zone; trace := [] |}))).
Proof.
eapply (unscoped_record_recreated blog_definition "example.com" _ blog_payload "blog");
  [left; reflexivity|reflexivity|reflexivity|reflexivity|].
vm_compute. reflexivity.
Defined.

Lemma root_name_unscoped sub domain : name_in_scope sub domain sub = false.
Proof.
unfold name_in_scope. apply orb_false_iff. split.
- apply String.eqb_neq. intros E. apply (f_equal String.length) in E.
  rewrite !length_append in E. cbn [String.length] in E. lia.
- apply not_true_iff_false. intros [pre E]%endsWith_spec.
  apply (f_equal String.length) in E. rewrite !length_append in E.
  cbn [String.length] in E. lia.
Qed.

(** X26: an NS or DS record the validator accepts is named exactly as
    the subdomain, which is outside the scope the sync script looks in:
    its request body matches no record of any zone, under any domain. *)
Theorem accepted_ns_ds_never_matched (s : string) (o : obj) :
  accepted_record s (VObj o) ->
  is_ns (VObj o) || is_ds (VObj o) = true ->
  exists payload,
    buildPayload o = Some payload
    /\ forall all domain, find_match (recordsForSubdomain s all domain) payload = None.
Proof.
intros (st & st' & H) Htype. apply validate_record_Ok in H.
destruct H as (o' & name & [= <-] & _ & Hroot & _ & _ & Hn & _).
unfold check_ns_ds_name in Hroot. unfold is_ns, is_ds in Htype. rewrite Htype in Hroot.
apply fail_if_Ok, negb_false_iff in Hroot. cbn [prop] in Hroot. rewrite Hn in Hroot.
cbn [strict_eq] in Hroot. apply String.eqb_eq in Hroot. subst name.
destruct (buildPayload o) as [payload|] eqn:Ep.
- exists payload. split; [reflexivity|]. intros all domain.
  apply (find_match_unscoped _ _ _ _ s); [|apply root_name_unscoped].
  unfold buildPayload in Ep. rewrite Hn in Ep.
  destruct (strict_eq (get o "type") (VStr "URL")).
  + injection Ep as <-. reflexivity.
  + revert Ep. payload_cases o; cbn; intros [= <-]; reflexivity.
- exfalso. unfold buildPayload in Ep. rewrite Hn in Ep.
  destruct (strict_eq (get o "type") (VStr "URL")); [discriminate|].
  revert Ep. payload_cases o; cbn; discriminate.
Qed.

Lemma accepted_ns_ds_never_matched_witness :
  exists payload,
    buildPayload [("type", VStr "NS"); ("name", VStr "blog"); ("value", VStr "ns1.example.net")]
    = Some payload
    /\ forall all domain, find_match (recordsForSubdomain "blog" all domain) payload = None.
Proof.
apply accepted_ns_ds_never_matched; [|reflexivity].
exists sample_flags, {| hasNS := true; hasDS := false |}. reflexivity.
Defined.

Lemma find_ext {A : Type} (f g : A -> bool) l :
  (forall x, f x = g x) -> List.find f l = List.find g l.
Proof.
intros H. induction l as [|x l IH]; [reflexivity|]. cbn [List.find]. rewrite H, IH. reflexivity.
Qed.

Lemma sameRecord_content m payload :
  sameRecord m payload = true -> In "content" (keys payload) ->
  strict_eq (rec_get m "content") (get payload "content") = true.
Proof.
unfold sameRecord. intros H Hin. rewrite forallb_forall in H.
exact (H "content" Hin).
Qed.

Lemma valued_payload r t name value :
  get r "type" = VStr t -> str_includes ["A"; "AAAA"; "CNAME"; "TXT"; "NS"] t = true ->
  get r "name" = VStr name -> get r "value" = VStr value ->
  exists payload,
    buildPayload r = Some payload
    /\ get payload "type" = VStr t /\ get payload "name" = VStr name
    /\ get payload "content" = VStr value /\ In "content" (keys payload).
Proof.
intros Ht Hin Hn Hv. unfold buildPayload. rewrite Ht, Hn, Hv.
cbn [str_includes] in Hin.
repeat match type of Hin with
       | (if String.eqb ?x t then true else _) = true =>
           destruct (String.eqb_spec x t) as [<-|_];
             [eexists; split; [reflexivity|]; cbn; auto 10|]
       end.
discriminate.
Qed.

(** X27: two desired records with the same type and name and different
    values (two TXT records of one name, say) never settle: whatever the
    zone holds, a run that gets to its end issues an update or a create
    call. *)
Theorem same_key_records_never_settle (data : definition) (domain : string)
    (r1 r2 : obj) (t name v1 v2 : string) (w w' : world) :
  In r1 (records data) -> In r2 (records data) ->
  str_includes ["A"; "AAAA"; "CNAME"; "TXT"; "NS"] t = true ->
  get r1 "type" = VStr t -> get r2 "type" = VStr t ->
  get r1 "name" = VStr name -> get r2 "name" = VStr name ->
  get r1 "value" = VStr v1 -> get r2 "value" = VStr v2 ->
  v1 <> v2 ->
  applyData data domain w = Done tt w' ->
  existsb is_upsert (added_calls (applyData data domain) w) = true.
Proof.
intros Hr1 Hr2 Ht Ht1 Ht2 Hn1 Hn2 Hv1 Hv2 Hne Hrun.
destruct (valued_payload r1 t name v1 Ht1 Ht Hn1 Hv1) as (p1 & Hp1 & Pt1 & Pn1 & Pc1 & Pk1).
destruct (valued_payload r2 t name v2 Ht2 Ht Hn2 Hv2) as (p2 & Hp2 & Pt2 & Pn2 & Pc2 & Pk2).
pose proof (applyData_calls data domain w w' Hrun r1 p1 Hr1 Hp1) as H1.
pose proof (applyData_calls data domain w w' Hrun r2 p2 Hr2 Hp2) as H2.
cbv zeta in H1, H2.
set (existing := recordsForSubdomain (subdomain data) (zone_records (remote w)) domain) in *.
assert (find_match existing p2 = find_match existing p1) as Hsame.
{ unfold find_match. apply find_ext. intros e.
  unfold same_key. rewrite Pt1, Pt2, Pn1, Pn2. reflexivity. }
rewrite Hsame in H2. apply existsb_exists.
destruct (find_match existing p1) as [m|].
- destruct (sameRecord m p1) eqn:E1.
  + destruct (sameRecord m p2) eqn:E2.
    * exfalso. apply sameRecord_content in E1, E2; [|assumption..].
      rewrite Pc1 in E1. rewrite Pc2 in E2.
      destruct (rec_get m "content"); try discriminate. cbn [strict_eq] in E1, E2.
      apply String.eqb_eq in E1, E2. congruence.
    * eexists. split; [exact (H2 eq_refl)|reflexivity].
  + eexists. split; [exact (H1 eq_refl)|reflexivity].
- eexists. split; [exact H1|reflexivity].
Qed.

Lemma same_key_records_never_settle_witness :
  existsb is_upsert
    (added_calls (applyData two_txt "is-an-ai.dev")
       (final_world (applyData two_txt "is-an-ai.dev"
                       {| remote := empty_zone; trace := [] |}))) = true.
Proof.
eapply (same_key_records_never_settle two_txt "is-an-ai.dev" _ _ "TXT" "dev.is-an-ai.dev"
          "v=spf1 -all" "site-verification=1").
- left. reflexivity.
- right. left. reflexivity.
- reflexivity.
- reflexivity.
- reflexivity.
- reflexivity.
- reflexivity.
- reflexivity.
- reflexivity.
- discriminate.
- vm_compute. reflexivity.
Defined.

End ChurnFacts.

(** * One run converges the zone *)
Module ConvergenceFacts.
Import JsString Js Regex Json Validator ValidatorRun ValidatorSpec Remote Sync SyncSpec ExtraSpec.
Import StringFacts RegexFacts OwnershipFacts RunFacts RedirectFacts ConvergedFacts PhaseFacts.
Import AcceptFacts PayloadFacts ScopeFacts FrameFacts EffectFacts ChurnFacts.

Lemma strict_eq_refl v : primitive v = true -> strict_eq v v = true.
Proof.
destruct v; try discriminate; intros _; cbn [strict_eq]; try reflexivity.
- apply Bool.eqb_reflx.
- apply Z.eqb_refl.
- apply String.eqb_refl.
Qed.

Lemma option_string_eqb_refl a : option_string_eqb a a = true.
Proof. destruct a; [apply String.eqb_refl|reflexivity]. Qed.

Lemma assoc_filter_absent (f : string * value -> bool) p k :
  ~ In k (keys p) -> assoc k (List.filter f p) = None.
Proof.
induction p as [|[k' v'] p IH]; [reflexivity|]. cbn [keys map fst In List.filter].
intros H. destruct (f (k', v')).
- cbn [assoc]. destruct (String.eqb_spec k' k) as [->|_]; [tauto|]. apply IH. tauto.
- apply IH. tauto.
Qed.

Lemma assoc_filter (f : string * value -> bool) p k :
  List.NoDup (keys p) ->
  assoc k (List.filter f p)
  = match assoc k p with
    | Some v => if f (k, v) then Some v else None
    | None => None
    end.
Proof.
induction p as [|[k' v'] p IH]; [reflexivity|]. cbn [keys map fst List.filter assoc].
intros [Hfresh Hnd]%List.NoDup_cons_iff.
destruct (String.eqb_spec k' k) as [->|Hne].
- destruct (f (k, v')).
  + cbn [assoc]. rewrite String.eqb_refl. reflexivity.
  + apply assoc_filter_absent, Hfresh.
- destruct (f (k', v')).
  + cbn [assoc]. destruct (String.eqb_spec k' k); [congruence|]. apply IH, Hnd.
  + apply IH, Hnd.
Qed.

Lemma storable_spec payload :
  storable payload = true ->
  exists t n,
    get payload "type" = VStr t /\ get payload "name" = VStr n
    /\ List.NoDup (keys payload)
    /\ forall k, In k (keys payload) ->
         k <> "id" /\ (k = "data" \/ primitive (get payload k) = true).
Proof.
unfold storable. rewrite !andb_true_iff. intros [[[Ht Hn] Hnd] Hall].
destruct (get payload "type") as [| | | |t| |]; try discriminate.
destruct (get payload "name") as [| | | |n| |]; try discriminate.
exists t, n. split; [reflexivity|]. split; [reflexivity|]. split.
- apply NoDup_ListNoDup. apply bool_decide_eq_true in Hnd. exact Hnd.
- intros k Hk. rewrite forallb_forall in Hall. specialize (Hall k Hk).
  apply andb_true_iff in Hall as [Hid Hval]. split.
  + intros ->. discriminate.
  + apply orb_true_iff in Hval as [Hd|Hp]; [left; apply String.eqb_eq, Hd|right; exact Hp].
Qed.

(** What the API stores for a storable body compares equal to it. *)
Lemma stored_same id payload :
  storable payload = true ->
  exists e,
    record_of_payload id payload = Some e
    /\ rec_id e = id
    /\ get payload "type" = VStr (rec_type e)
    /\ get payload "name" = VStr (rec_name e)
    /\ same_key payload e = true
    /\ sameRecord e payload = true.
Proof.
intros (t & n & Ht & Hn & Hnd & Hkeys)%storable_spec.
unfold record_of_payload. rewrite Ht, Hn. eexists. split; [reflexivity|].
cbn [rec_id rec_type rec_name]. split; [reflexivity|]. split; [reflexivity|].
split; [reflexivity|]. split.
{ unfold same_key. cbn [rec_type rec_name]. rewrite Ht, Hn. cbn [strict_eq].
  rewrite !String.eqb_refl. reflexivity. }
unfold sameRecord. apply forallb_forall. intros k Hk.
destruct (Hkeys k Hk) as [Hid Hval].
assert (k <> "type" -> k <> "name" ->
        rec_get {| rec_id := id; rec_type := t; rec_name := n;
                   rec_fields :=
                     List.filter (fun kv =>
                       negb (String.eqb (fst kv) "type") && negb (String.eqb (fst kv) "name")
                       && match snd kv with VUndefined => false | _ => true end) payload |} k
        = get payload k) as Hget.
{ intros H1 H2. unfold rec_get. cbn [rec_fields].
  destruct (String.eqb_spec k "id"); [congruence|].
  destruct (String.eqb_spec k "type"); [congruence|].
  destruct (String.eqb_spec k "name"); [congruence|].
  unfold get. rewrite assoc_filter by exact Hnd.
  destruct (assoc k payload) as [v|]; [|reflexivity]. cbn [fst snd].
  destruct (String.eqb_spec k "type"); [congruence|].
  destruct (String.eqb_spec k "name"); [congruence|].
  cbn [negb andb]. destruct v; reflexivity. }
destruct (String.eqb_spec k "data") as [->|Hnd'].
- rewrite Hget by discriminate. apply option_string_eqb_refl.
- destruct Hval as [?|Hprim]; [congruence|].
  destruct (String.eqb_spec k "type") as [->|Hnt].
  { unfold rec_get. cbn [String.eqb Ascii.eqb Bool.eqb rec_type]. rewrite Ht.
    apply String.eqb_refl. }
  destruct (String.eqb_spec k "name") as [->|Hnn].
  { unfold rec_get. cbn [String.eqb Ascii.eqb Bool.eqb rec_name]. rewrite Hn.
    apply String.eqb_refl. }
  rewrite (Hget Hnt Hnn). apply strict_eq_refl, Hprim.
Qed.

Lemma strict_eq_sym a b : strict_eq a b = strict_eq b a.
Proof.
destruct a, b; cbn [strict_eq]; try reflexivity.
- destruct b0, b; reflexivity.
- apply Z.eqb_sym.
- apply String.eqb_sym.
Qed.

Lemma pkey_eqb_sym p q : pkey_eqb p q = pkey_eqb q p.
Proof.
unfold pkey_eqb. rewrite (strict_eq_sym (get p "type")), (strict_eq_sym (get p "name")).
reflexivity.
Qed.

Lemma same_key_spec p e :
  same_key p e = true
  <-> get p "type" = VStr (rec_type e) /\ get p "name" = VStr (rec_name e).
Proof.
unfold same_key. rewrite andb_true_iff. split.
- intros [H1%strict_eq_VStr H2%strict_eq_VStr]. auto.
- intros [-> ->]. cbn [strict_eq]. rewrite !String.eqb_refl. auto.
Qed.

Lemma key_eqb_spec a b :
  key_eqb a b = true <-> rec_type a = rec_type b /\ rec_name a = rec_name b.
Proof. unfold key_eqb. rewrite andb_true_iff, !String.eqb_eq. reflexivity. Qed.

Lemma same_key_pkey p q e :
  same_key p e = true -> same_key q e = true -> pkey_eqb p q = true.
Proof.
intros [Hp1 Hp2]%same_key_spec [Hq1 Hq2]%same_key_spec.
unfold pkey_eqb. rewrite Hp1, Hp2, Hq1, Hq2. cbn [strict_eq].
rewrite !String.eqb_refl. reflexivity.
Qed.

Lemma same_key_transfer p e1 e2 :
  same_key p e1 = true -> key_eqb e1 e2 = true -> same_key p e2 = true.
Proof.
intros [H1 H2]%same_key_spec [Ht Hn]%key_eqb_spec. apply same_key_spec.
rewrite H1, H2, Ht, Hn. auto.
Qed.

Lemma same_key_both p e1 e2 :
  same_key p e1 = true -> same_key p e2 = true -> key_eqb e1 e2 = true.
Proof.
intros [H1 H2]%same_key_spec [H3 H4]%same_key_spec. apply key_eqb_spec.
rewrite H1 in H3. rewrite H2 in H4. split; congruence.
Qed.

Lemma in_scope_of_key sub domain e1 e2 :
  key_eqb e1 e2 = true -> in_scope_of sub domain e1 = in_scope_of sub domain e2.
Proof. intros [_ Hn]%key_eqb_spec. unfold in_scope_of. rewrite Hn. reflexivity. Qed.

Lemma fresh_record_id_unused z e : In e (zone_records z) -> rec_id e <> fresh_record_id z.
Proof.
unfold fresh_record_id. intros Hin.
assert (rec_id e <= list_max (map rec_id (zone_records z))); [|lia].
pose proof (proj1 (List.list_max_le (map rec_id (zone_records z)) _) (le_n _)) as H.
rewrite List.Forall_forall in H. apply H, in_map, Hin.
Qed.

Lemma map_replace_ids id e' l :
  rec_id e' = id ->
  map rec_id (map (fun e => if has_id id e then e' else e) l) = map rec_id l.
Proof.
intros Hid. induction l as [|x l IH]; [reflexivity|]. cbn [map]. rewrite IH. f_equal.
destruct (has_id id x) eqn:E; [|reflexivity].
unfold has_id in E. apply Nat.eqb_eq in E. congruence.
Qed.

Lemma in_map_replace id e' l x :
  In x (map (fun e => if has_id id e then e' else e) l)
  <-> (x = e' /\ existsb (has_id id) l = true) \/ (In x l /\ has_id id x = false).
Proof.
induction l as [|y l IH]; cbn [map In existsb].
- split; [contradiction|]. intros [[_ H]|[H _]]; [discriminate|contradiction].
- rewrite IH. destruct (has_id id y) eqn:E; cbn [orb]; split.
  + intros [<-|[[-> H]|[H1 H2]]]; auto.
  + intros [[-> _]|[[->|H1] H2]]; [auto|congruence|auto].
  + intros [<-|[[-> H]|[H1 H2]]]; auto.
  + intros [[-> H]|[[->|H1] H2]]; auto.
Qed.

Section Settle.
Variables (existing : list RemoteRecord) (sub domain : string).
Hypothesis existing_in_scope : forall e, In e existing -> in_scope_of sub domain e = true.

Lemma survivor_spec keep e :
  survivor existing sub domain keep e = true
  <-> in_scope_of sub domain e = true
      /\ (rec_id e ∈ keep \/ untouched_by existing e = true).
Proof.
unfold survivor. rewrite andb_true_iff, orb_true_iff, bool_decide_eq_true. reflexivity.
Qed.

Lemma untouched_by_member e : In e existing -> untouched_by existing e = false.
Proof. intros H. unfold untouched_by. rewrite (existsb_has_id _ _ H). reflexivity. Qed.

Lemma untouched_by_same_id e1 e2 :
  rec_id e1 = rec_id e2 -> untouched_by existing e1 = untouched_by existing e2.
Proof. intros H. unfold untouched_by. rewrite H. reflexivity. Qed.

(** No record that will stay carries the key of a body that is yet to
    be handled. *)
Lemma fresh_key_no_survivor done keep recs p e :
  settling existing sub domain done keep recs ->
  (forall q, In q done -> pkey_eqb p q = false) ->
  In e recs -> survivor existing sub domain keep e = true -> same_key p e = true -> False.
Proof.
intros (_ & _ & _ & J4 & _) Hfresh He Hs Hk.
destruct (J4 e He Hs) as (q & Hq & Hkq & _).
pose proof (Hfresh q Hq) as Hne.
rewrite (same_key_pkey p q e Hk Hkq) in Hne. discriminate.
Qed.

(** The match of such a body has not been matched before, and is still
    in the zone as it was listed. *)
Lemma fresh_key_match done keep recs p m :
  settling existing sub domain done keep recs ->
  (forall q, In q done -> pkey_eqb p q = false) ->
  find_match existing p = Some m ->
  In m existing /\ same_key p m = true /\ (rec_id m ∉ keep) /\ In m recs.
Proof.
intros Hinv Hfresh Hm. apply find_some in Hm as [Hm Hk].
assert (rec_id m ∉ keep) as Hnk.
{ intros Hkeep. pose proof Hinv as (_ & _ & J3 & _).
  destruct (J3 m Hm) as (e' & He' & Hid & Hkey).
  apply (fresh_key_no_survivor done keep recs p e' Hinv Hfresh He').
  - apply survivor_spec. split.
    + rewrite (in_scope_of_key _ _ _ _ Hkey). apply existing_in_scope, Hm.
    + left. rewrite Hid. exact Hkeep.
  - apply (same_key_transfer p m e' Hk). rewrite key_eqb_sym. exact Hkey. }
destruct Hinv as (_ & J2 & _). auto.
Qed.

Lemma settling_keep done keep recs p m :
  settling existing sub domain done keep recs ->
  (forall q, In q done -> pkey_eqb p q = false) ->
  find_match existing p = Some m ->
  sameRecord m p = true ->
  settling existing sub domain (p :: done) ({[rec_id m]} ∪ keep) recs.
Proof.
intros Hinv Hfresh Hm Hsame.
destruct (fresh_key_match done keep recs p m Hinv Hfresh Hm) as (HmE & Hk & Hnk & Hmr).
pose proof Hinv as (J1 & J2 & J3 & J4 & J5 & J6 & J7).
assert (forall e, In e recs -> survivor existing sub domain ({[rec_id m]} ∪ keep) e = true ->
          e = m \/ survivor existing sub domain keep e = true) as Hcases.
{ intros e He [Hs [Hin|Hu]]%survivor_spec.
  - apply elem_of_union in Hin as [Hin|Hin].
    + left. apply elem_of_singleton in Hin.
      exact (same_id_same_record recs e m J1 He Hmr Hin).
    + right. apply survivor_spec. auto.
  - right. apply survivor_spec. auto. }
assert (survivor existing sub domain ({[rec_id m]} ∪ keep) m = true) as Hsm.
{ apply survivor_spec. split; [apply existing_in_scope, HmE|left; set_solver]. }
repeat split.
- exact J1.
- intros e He Hn. apply J2; [exact He|set_solver].
- exact J3.
- intros e He Hs. destruct (Hcases e He Hs) as [->|Hold].
  + exists p. split; [left; reflexivity|auto].
  + destruct (J4 e He Hold) as (q & Hq & H). exists q. split; [right; exact Hq|exact H].
- intros q [<-|Hq].
  + exists m. auto.
  + destruct (J5 q Hq) as (e & He & [Hs Hc]%survivor_spec & H). exists e.
    split; [exact He|]. split; [|exact H]. apply survivor_spec.
    split; [exact Hs|]. destruct Hc; [left; apply elem_of_union; auto|right; assumption].
- intros e1 e2 H1 H2 S1 S2 Hkey.
  destruct (Hcases e1 H1 S1) as [->|O1], (Hcases e2 H2 S2) as [->|O2].
  + reflexivity.
  + exfalso. apply (fresh_key_no_survivor done keep recs p e2 Hinv Hfresh H2 O2).
    exact (same_key_transfer p m e2 Hk Hkey).
  + exfalso. apply (fresh_key_no_survivor done keep recs p e1 Hinv Hfresh H1 O1).
    apply (same_key_transfer p m e1 Hk). rewrite key_eqb_sym. exact Hkey.
  + exact (J6 e1 e2 H1 H2 O1 O2 Hkey).
- intros id [Hin|Hin]%elem_of_union; [|auto].
  apply elem_of_singleton in Hin as ->. apply existsb_has_id, HmE.
Qed.

Lemma settling_update done keep recs p m e' :
  settling existing sub domain done keep recs ->
  (forall q, In q done -> pkey_eqb p q = false) ->
  find_match existing p = Some m ->
  rec_id e' = rec_id m -> same_key p e' = true -> sameRecord e' p = true ->
  settling existing sub domain (p :: done) ({[rec_id m]} ∪ keep)
    (map (fun e => if has_id (rec_id m) e then e' else e) recs).
Proof.
intros Hinv Hfresh Hm Hid Hke Hse.
destruct (fresh_key_match done keep recs p m Hinv Hfresh Hm) as (HmE & Hk & Hnk & Hmr).
pose proof Hinv as (J1 & J2 & J3 & J4 & J5 & J6 & J7).
set (recs' := map (fun e => if has_id (rec_id m) e then e' else e) recs).
assert (existsb (has_id (rec_id m)) recs = true) as Hex by (apply existsb_has_id, Hmr).
assert (In e' recs') as He' by (apply in_map_replace; left; auto).
assert (forall x, In x recs -> rec_id x <> rec_id m -> In x recs') as Hold.
{ intros x Hx Hne. apply in_map_replace. right. split; [exact Hx|].
  unfold has_id. apply Nat.eqb_neq. exact Hne. }
assert (key_eqb e' m = true) as Hkey' by exact (same_key_both p e' m Hke Hk).
assert (survivor existing sub domain ({[rec_id m]} ∪ keep) e' = true) as Hse'.
{ apply survivor_spec. split.
  - rewrite (in_scope_of_key _ _ _ _ Hkey'). apply existing_in_scope, HmE.
  - left. rewrite Hid. set_solver. }
assert (forall x, In x recs' ->
          survivor existing sub domain ({[rec_id m]} ∪ keep) x = true ->
          x = e' \/ (In x recs /\ rec_id x <> rec_id m
                     /\ survivor existing sub domain keep x = true)) as Hcases.
{ intros x [[-> _]|[Hx Hne]]%in_map_replace Hs; [left; reflexivity|right].
  unfold has_id in Hne. apply Nat.eqb_neq in Hne.
  split; [exact Hx|]. split; [exact Hne|].
  apply survivor_spec in Hs as [Hs Hc]. apply survivor_spec. split; [exact Hs|].
  destruct Hc as [Hin|Hu]; [left|right; exact Hu].
  apply elem_of_union in Hin as [Hin|Hin]; [|exact Hin].
  apply elem_of_singleton in Hin. contradiction. }
assert (survivor existing sub domain keep m = false) as Hmdead.
{ apply not_true_iff_false. intros [_ [Hin|Hu]]%survivor_spec; [exact (Hnk Hin)|].
  rewrite (untouched_by_member m HmE) in Hu. discriminate. }
repeat split.
- unfold recs'. rewrite (map_replace_ids (rec_id m) e' recs Hid). exact J1.
- intros e He Hn. apply Hold; [apply J2; [exact He|set_solver]|].
  intros E. apply Hn. rewrite E. set_solver.
- intros e He. destruct (J3 e He) as (x & Hx & Hxid & Hxkey).
  destruct (Nat.eq_dec (rec_id x) (rec_id m)) as [E|Hne].
  + assert (x = m) as -> by exact (same_id_same_record recs x m J1 Hx Hmr E).
    exists e'. split; [exact He'|]. split; [congruence|].
    apply key_eqb_spec. apply key_eqb_spec in Hkey', Hxkey.
    destruct Hkey', Hxkey. split; congruence.
  + exists x. auto.
- intros x Hx Hs. destruct (Hcases x Hx Hs) as [->|(Hxr & _ & Hxs)].
  + exists p. split; [left; reflexivity|auto].
  + destruct (J4 x Hxr Hxs) as (q & Hq & H). exists q. split; [right; exact Hq|exact H].
- intros q [<-|Hq].
  + exists e'. auto.
  + destruct (J5 q Hq) as (e & He & Hs & H).
    assert (rec_id e <> rec_id m) as Hne.
    { intros E. rewrite (same_id_same_record recs e m J1 He Hmr E) in Hs. congruence. }
    exists e. split; [apply Hold; assumption|]. split; [|exact H].
    apply survivor_spec in Hs as [Hs Hc]. apply survivor_spec. split; [exact Hs|].
    destruct Hc; [left; apply elem_of_union; auto|right; assumption].
- intros e1 e2 H1 H2 S1 S2 Hkey.
  destruct (Hcases e1 H1 S1) as [->|(R1 & _ & O1)], (Hcases e2 H2 S2) as [->|(R2 & _ & O2)].
  + reflexivity.
  + exfalso. apply (fresh_key_no_survivor done keep recs p e2 Hinv Hfresh R2 O2).
    exact (same_key_transfer p e' e2 Hke Hkey).
  + exfalso. apply (fresh_key_no_survivor done keep recs p e1 Hinv Hfresh R1 O1).
    apply (same_key_transfer p e' e1 Hke). rewrite key_eqb_sym. exact Hkey.
  + exact (J6 e1 e2 R1 R2 O1 O2 Hkey).
- intros id [Hin|Hin]%elem_of_union; [|auto].
  apply elem_of_singleton in Hin as ->. apply existsb_has_id, HmE.
Qed.

Lemma settling_create done keep recs p e' :
  settling existing sub domain done keep recs ->
  (forall q, In q done -> pkey_eqb p q = false) ->
  (forall x, In x recs -> rec_id x <> rec_id e') ->
  in_scope_of sub domain e' = true ->
  same_key p e' = true -> sameRecord e' p = true ->
  settling existing sub domain (p :: done) keep (recs ++ [e']).
Proof.
intros Hinv Hfresh Hnew Hscope Hke Hse.
pose proof Hinv as (J1 & J2 & J3 & J4 & J5 & J6 & J7).
assert (untouched_by existing e' = true) as Hu.
{ unfold untouched_by. apply negb_true_iff, not_true_iff_false.
  intros (e & He & Hid)%existsb_exists. unfold has_id in Hid. apply Nat.eqb_eq in Hid.
  destruct (J3 e He) as (x & Hx & Hxid & _). apply (Hnew x Hx). congruence. }
assert (survivor existing sub domain keep e' = true) as Hs'
  by (apply survivor_spec; auto).
repeat split.
- rewrite map_app. cbn [map]. apply List.NoDup_app; [exact J1| |].
  + constructor; [intros []|constructor].
  + intros id (x & Hid & Hx)%in_map_iff [E|[]]. apply (Hnew x Hx). congruence.
- intros e He Hn. apply in_or_app. left. auto.
- intros e He. destruct (J3 e He) as (x & Hx & H). exists x.
  split; [apply in_or_app; left; exact Hx|exact H].
- intros x [Hx|[<-|[]]]%in_app_or Hs.
  + destruct (J4 x Hx Hs) as (q & Hq & H). exists q. split; [right; exact Hq|exact H].
  + exists p. split; [left; reflexivity|auto].
- intros q [<-|Hq].
  + exists e'. split; [apply in_or_app; right; left; reflexivity|auto].
  + destruct (J5 q Hq) as (e & He & H). exists e.
    split; [apply in_or_app; left; exact He|exact H].
- intros e1 e2 [H1|[<-|[]]]%in_app_or [H2|[<-|[]]]%in_app_or S1 S2 Hkey.
  + exact (J6 e1 e2 H1 H2 S1 S2 Hkey).
  + exfalso. apply (fresh_key_no_survivor done keep recs p e1 Hinv Hfresh H1 S1).
    apply (same_key_transfer p e' e1 Hke). rewrite key_eqb_sym. exact Hkey.
  + exfalso. apply (fresh_key_no_survivor done keep recs p e2 Hinv Hfresh H2 S2).
    exact (same_key_transfer p e' e2 Hke Hkey).
  + reflexivity.
- exact J7.
Qed.

Lemma filter_none_of {A : Type} (f : A -> bool) l :
  (forall x, In x l -> f x = false) -> List.filter f l = [].
Proof.
induction l as [|x l IH]; intros H; [reflexivity|]. cbn [List.filter].
rewrite (H x (or_introl eq_refl)). apply IH. intros y Hy. apply H. right. exact Hy.
Qed.

Lemma distinct_head p ps :
  distinct_payloads (p :: ps) = true ->
  (forall q, In q ps -> pkey_eqb q p = false) /\ distinct_payloads ps = true.
Proof.
cbn [distinct_payloads]. intros [Hp Hps]%andb_true_iff. split; [|exact Hps].
intros q Hq. rewrite pkey_eqb_sym. apply negb_true_iff in Hp.
destruct (pkey_eqb p q) eqn:E; [|reflexivity].
assert (existsb (pkey_eqb p) ps = true) by (apply existsb_exists; eauto). congruence.
Qed.

Lemma cf_update_record_run id payload e' w :
  record_of_payload id payload = Some e' ->
  existsb (has_id id) (zone_records (remote w)) = true ->
  cf_update_record id payload w
  = Done tt {| remote := {| zone_records :=
                              map (fun e => if has_id id e then e' else e)
                                (zone_records (remote w));
                            zone_rulesets := zone_rulesets (remote w) |};
               trace := trace w ++ [UpdateRecord id payload] |}.
Proof.
intros He Hex. unfold cf_update_record, mbind, M_bind, log, get_zone. cbn [remote trace].
rewrite He, Hex. reflexivity.
Qed.

Lemma cf_create_record_run payload e' w :
  record_of_payload (fresh_record_id (remote w)) payload = Some e' ->
  cf_create_record payload w
  = Done tt {| remote := {| zone_records := zone_records (remote w) ++ [e'];
                            zone_rulesets := zone_rulesets (remote w) |};
               trace := trace w ++ [CreateRecord payload] |}.
Proof.
intros He. unfold cf_create_record, mbind, M_bind, log, get_zone. cbn [remote trace].
rewrite He. reflexivity.
Qed.

(** The record loop on storable bodies with names in the scope and
    pairwise different keys: it gets to its end, and keeps the state of
    the zone settling. *)
Lemma sync_records_settles rs : forall ps done keep w,
  payloads_of rs = Some ps ->
  forallb storable ps = true ->
  forallb (named_in_scope sub domain) ps = true ->
  distinct_payloads ps = true ->
  (forall p q, In p ps -> In q done -> pkey_eqb p q = false) ->
  settling existing sub domain done keep (zone_records (remote w)) ->
  exists keep' w',
    sync_records existing rs keep w = Done keep' w'
    /\ settling existing sub domain (List.rev ps ++ done) keep' (zone_records (remote w'))
    /\ zone_rulesets (remote w') = zone_rulesets (remote w).
Proof.
induction rs as [|r rs IH]; intros ps done keep w Hps Hst Hsc Hdist Hfresh Hinv.
- injection Hps as <-. exists keep, w. auto.
- cbn [payloads_of] in Hps. destruct (buildPayload r) as [p|] eqn:Ep; [|discriminate].
  cbn [mbind option_bind] in Hps.
  destruct (payloads_of rs) as [ps'|] eqn:Eps; [|discriminate].
  injection Hps as <-. cbn [forallb] in Hst, Hsc.
  apply andb_true_iff in Hst as [Hp Hst]. apply andb_true_iff in Hsc as [Hpn Hsc].
  apply distinct_head in Hdist as [Hhead Hdist].
  assert (forall q, In q done -> pkey_eqb p q = false) as Hfp
    by (intros q Hq; apply Hfresh; [left; reflexivity|exact Hq]).
  assert (forall p' q, In p' ps' -> In q (p :: done) -> pkey_eqb p' q = false) as Hfresh'.
  { intros p' q Hp' [<-|Hq]; [apply Hhead, Hp'|]. apply Hfresh; [right; exact Hp'|exact Hq]. }
  assert (List.rev (p :: ps') ++ done = List.rev ps' ++ p :: done) as ->
    by (cbn [List.rev]; rewrite <- List.app_assoc; reflexivity).
  cbn [sync_records]. rewrite Ep.
  destruct (find_match existing p) as [m|] eqn:Em.
  + destruct (sameRecord m p) eqn:Esame; cbn [negb].
    * rewrite bind_run. cbn [mret M_ret].
      apply (IH ps' (p :: done) _ _ eq_refl Hst Hsc Hdist Hfresh').
      exact (settling_keep done keep _ p m Hinv Hfp Em Esame).
    * destruct (stored_same (rec_id m) p Hp) as (e' & He' & Hid & _ & _ & Hke & Hse).
      destruct (fresh_key_match done keep _ p m Hinv Hfp Em) as (_ & _ & _ & Hmr).
      rewrite bind_run, (cf_update_record_run _ _ e' w He' (existsb_has_id _ _ Hmr)).
      match goal with |- context [sync_records _ _ _ ?w1] =>
        destruct (IH ps' (p :: done) ({[rec_id m]} ∪ keep) w1 eq_refl Hst Hsc Hdist Hfresh')
          as (keep' & w' & Hrun & Hinv' & Hsets)
      end.
      { cbn [remote zone_records].
        exact (settling_update done keep _ p m e' Hinv Hfp Em Hid Hke Hse). }
      exists keep', w'. auto.
  + destruct (stored_same (fresh_record_id (remote w)) p Hp)
      as (e' & He' & Hid & _ & Hname & Hke & Hse).
    rewrite bind_run, (cf_create_record_run _ e' w He').
    match goal with |- context [sync_records _ _ _ ?w1] =>
      destruct (IH ps' (p :: done) keep w1 eq_refl Hst Hsc Hdist Hfresh')
        as (keep' & w' & Hrun & Hinv' & Hsets)
    end.
    { cbn [remote zone_records]. apply settling_create; try assumption.
      - intros x Hx. rewrite Hid. apply fresh_record_id_unused, Hx.
      - unfold named_in_scope in Hpn. rewrite Hname in Hpn. exact Hpn. }
    exists keep', w'. auto.
Qed.

End Settle.

Lemma payloads_of_spec rs : forall ps,
  payloads_of rs = Some ps ->
  (forall r, In r rs -> exists p, In p ps /\ buildPayload r = Some p)
  /\ (forall p, In p ps -> exists r, In r rs /\ buildPayload r = Some p).
Proof.
induction rs as [|r rs IH]; intros ps H.
- injection H as <-. split; intros ? [].
- cbn [payloads_of] in H. destruct (buildPayload r) as [p|] eqn:Ep; [|discriminate].
  cbn [mbind option_bind] in H. destruct (payloads_of rs) as [ps'|]; [|discriminate].
  injection H as <-. destruct (IH ps' eq_refl) as [H1 H2]. split.
  + intros r' [<-|Hr']; [exists p; split; [left; reflexivity|exact Ep]|].
    destruct (H1 r' Hr') as (q & Hq & E). exists q. split; [right; exact Hq|exact E].
  + intros q [<-|Hq]; [exists r; split; [left; reflexivity|exact Ep]|].
    destruct (H2 q Hq) as (r' & Hr' & E). exists r'. split; [right; exact Hr'|exact E].
Qed.

Lemma cleanup_delete_all existing keep : forall w,
  cleanup existing keep w
  = delete_all (List.filter (fun e => negb (bool_decide (rec_id e ∈ keep))) existing) w.
Proof.
induction existing as [|e existing IH]; intros w; [reflexivity|].
cbn [cleanup List.filter]. destruct (bool_decide (rec_id e ∈ keep)); cbn [negb].
- rewrite bind_run. cbn [mret M_ret]. apply IH.
- cbn [delete_all]. rewrite !bind_run.
  destruct (cf_delete_record (rec_id e) w); [apply IH|reflexivity..].
Qed.

Lemma untouched_by_unkept existing (keep : gset nat) x :
  untouched_by (List.filter (fun e => negb (bool_decide (rec_id e ∈ keep))) existing) x
  = bool_decide (rec_id x ∈ keep) || untouched_by existing x.
Proof.
unfold untouched_by. apply eq_true_iff_eq.
rewrite orb_true_iff, !negb_true_iff, bool_decide_eq_true. split.
- intros H. destruct (decide (rec_id x ∈ keep)) as [Hin|Hout]; [left; exact Hin|right].
  apply not_true_iff_false. intros (e & He & Hid)%existsb_exists.
  apply not_true_iff_false in H. apply H. apply existsb_exists. exists e.
  split; [|exact Hid]. apply filter_In. split; [exact He|].
  apply negb_true_iff, bool_decide_eq_false.
  unfold has_id in Hid. apply Nat.eqb_eq in Hid. rewrite Hid. exact Hout.
- intros H. apply not_true_iff_false. intros (e & He & Hid)%existsb_exists.
  apply filter_In in He as [He Hk]. apply negb_true_iff, bool_decide_eq_false in Hk.
  unfold has_id in Hid. apply Nat.eqb_eq in Hid.
  destruct H as [Hin|Hu]; [apply Hk; rewrite Hid; exact Hin|].
  apply not_true_iff_false in Hu. apply Hu. apply existsb_exists. exists e.
  split; [exact He|]. unfold has_id. apply Nat.eqb_eq, Hid.
Qed.

Lemma unique_keys_intro l :
  List.NoDup l ->
  (forall a b, In a l -> In b l -> key_eqb a b = true -> a = b) ->
  unique_keys l = true.
Proof.
induction l as [|e l IH]; [reflexivity|]. intros [Hfresh Hnd]%List.NoDup_cons_iff Hinj.
cbn [unique_keys]. apply andb_true_iff. split.
- apply negb_true_iff, not_true_iff_false. intros (x & Hx & Hk)%existsb_exists.
  apply Hfresh. rewrite (Hinj e x (or_introl eq_refl) (or_intror Hx) Hk). exact Hx.
- apply IH; [exact Hnd|]. intros a b Ha Hb. apply Hinj; right; assumption.
Qed.

Lemma settling_start sub domain recs :
  List.NoDup (map rec_id recs) ->
  settling (List.filter (in_scope_of sub domain) recs) sub domain [] ∅ recs.
Proof.
intros Hnd.
assert (forall x, In x recs ->
          survivor (List.filter (in_scope_of sub domain) recs) sub domain ∅ x = false) as Hnone.
{ intros x Hx. unfold survivor. destruct (in_scope_of sub domain x) eqn:E; [|reflexivity].
  rewrite bool_decide_eq_false_2 by set_solver.
  rewrite untouched_by_member by (apply filter_In; auto). reflexivity. }
repeat split.
- exact Hnd.
- intros e [He _]%filter_In _. exact He.
- intros e [He _]%filter_In. exists e. split; [exact He|]. split; [reflexivity|].
  apply key_eqb_spec. auto.
- intros e He Hs. rewrite (Hnone e He) in Hs. discriminate.
- intros p [].
- intros e1 e2 H1 _ S1. rewrite (Hnone e1 H1) in S1. discriminate.
- intros id Hin. set_solver.
Qed.

(** A run of [applyFile] on a zone with pairwise different ids, for
    storable bodies with names in the scope and pairwise different keys. *)
Lemma applyData_settles data domain w ps :
  List.NoDup (map rec_id (zone_records (remote w))) ->
  payloads_of (records data) = Some ps ->
  forallb storable ps = true ->
  forallb (named_in_scope (subdomain data) domain) ps = true ->
  distinct_payloads ps = true ->
  exists w',
    applyData data domain w = Done tt w'
    /\ dns_converged data domain (remote w') = true
    /\ List.NoDup (map rec_id (zone_records (remote w')))
    /\ (List.filter is_url (records data) = [] ->
        zone_rulesets (remote w') = zone_rulesets (remote w))
    /\ (List.filter is_url (records data) <> [] ->
        redirects_converged data domain (remote w')).
Proof.
intros Hnd Hps Hst Hsc Hdist.
set (sub := subdomain data).
set (existing := List.filter (in_scope_of sub domain) (zone_records (remote w))).
assert (forall e, In e existing -> in_scope_of sub domain e = true) as HE
  by (intros e [_ He]%filter_In; exact He).
unfold applyData. destruct (listAllRecords_run w) as [pages Hlist].
rewrite (bind_done _ _ _ _ _ Hlist).
change (recordsForSubdomain (subdomain data) (zone_records (remote w)) domain) with existing.
destruct (sync_records_settles existing sub domain HE (records data) ps [] ∅
            (logged w (map ListRecords pages)) Hps Hst Hsc Hdist)
  as (keep & w2 & Hsync & Hinv & Hsets2).
{ intros p q _ []. }
{ cbn [logged remote]. apply settling_start, Hnd. }
rewrite List.app_nil_r in Hinv. cbn [logged remote] in Hsets2.
rewrite (bind_done _ _ _ _ _ Hsync).
set (urls := List.filter is_url (records data)) in *.
assert (exists w3,
          (if (0 <? length urls)%nat then syncRedirects sub urls domain else mret tt) w2
          = Done tt w3
          /\ zone_records (remote w3) = zone_records (remote w2)
          /\ (urls = [] -> zone_rulesets (remote w3) = zone_rulesets (remote w2))
          /\ (urls <> [] -> redirects_converged data domain (remote w3)))
  as (w3 & Hred & Hrecs3 & Hsets3 & Hconv3).
{ destruct urls as [|u us] eqn:Eu.
  - exists w2. cbn [length Nat.ltb Nat.leb mret M_ret]. repeat split; congruence.
  - change (0 <? length (u :: us))%nat with true. cbv iota.
    destruct (syncRedirects_settles sub (u :: us) domain w2) as (w3 & s & Hrun & Hfind & Hst' & Hrecs).
    exists w3. split; [exact Hrun|]. split; [exact Hrecs|]. split; [discriminate|].
    intros _. unfold redirects_converged. cbv zeta. fold sub. fold urls.
    rewrite Hfind, Eu. exact Hst'. }
rewrite (bind_done _ _ _ _ _ Hred).
pose proof Hinv as (J1 & J2 & J3 & J4 & J5 & J6 & J7).
rewrite cleanup_delete_all, delete_all_run.
2:{ apply NoDup_map_filter. unfold existing. apply NoDup_map_filter, Hnd. }
2:{ intros m [Hm _]%filter_In. rewrite Hrecs3.
    destruct (J3 m Hm) as (x & Hx & Hid & _). rewrite <- Hid. apply existsb_has_id, Hx. }
eexists. split; [reflexivity|]. cbn [remote zone_records zone_rulesets]. rewrite Hrecs3.
set (recs2 := zone_records (remote w2)) in *.
assert (List.NoDup recs2) as Hnd2 by (apply (List.NoDup_map_inv rec_id), J1).
assert (List.filter (in_scope_of sub domain)
          (List.filter
             (untouched_by
                (List.filter (fun e => negb (bool_decide (rec_id e ∈ keep))) existing)) recs2)
        = List.filter (survivor existing sub domain keep) recs2) as Hscope.
{ rewrite filter_filter. apply filter_ext. intros x.
  rewrite untouched_by_unkept. unfold survivor. apply andb_comm. }
split; [|split; [|split]].
- unfold dns_converged. cbv zeta. cbn [zone_records]. fold sub.
  change (recordsForSubdomain sub ?l domain) with (List.filter (in_scope_of sub domain) l).
  rewrite Hscope. destruct (payloads_of_spec _ _ Hps) as [Hfwd Hbwd].
  apply andb_true_iff. split; [apply andb_true_iff; split|].
  + apply forallb_forall. intros r Hr. destruct (Hfwd r Hr) as (p & Hp & Ep).
    unfold realised_by. rewrite Ep. destruct (J5 p (proj1 (in_rev _ _) Hp)) as (e & He & Hs & Hk & Hsame).
    apply existsb_exists. exists e. split; [apply filter_In; auto|].
    rewrite Hk, Hsame. reflexivity.
  + apply forallb_forall. intros e [He Hs]%filter_In.
    destruct (J4 e He Hs) as (p & Hp & Hk & _).
    destruct (Hbwd p (proj2 (in_rev _ _) Hp)) as (r & Hr & Ep).
    unfold wanted_by. apply existsb_exists. exists r. split; [exact Hr|]. rewrite Ep. exact Hk.
  + apply unique_keys_intro; [apply List.NoDup_filter, Hnd2|].
    intros a b [Ha Sa]%filter_In [Hb Sb]%filter_In. exact (J6 a b Ha Hb Sa Sb).
- apply NoDup_map_filter, J1.
- intros Hu. rewrite (Hsets3 Hu). exact Hsets2.
- intros Hu. specialize (Hconv3 Hu). unfold redirects_converged in *. exact Hconv3.
Qed.


(** X28: one run of [applyFile] converges the DNS records. On a zone
    whose record ids are pairwise different, for desired records whose
    request bodies are storable, named inside the hostname's scope and
    pairwise different in [(type, name)], the run ends normally and leaves
    the records of the scope, one for one, equal to the desired records;
    with a URL record, the redirect rules of the hostname are converged
    too. *)
Theorem applyData_converges (data : definition) (domain : string) (w : world)
    (ps : list obj) :
  List.NoDup (map rec_id (zone_records (remote w))) ->
  payloads_of (records data) = Some ps ->
  forallb storable ps = true ->
  forallb (named_in_scope (subdomain data) domain) ps = true ->
  distinct_payloads ps = true ->
  exists w',
    applyData data domain w = Done tt w'
    /\ dns_converged data domain (remote w') = true
    /\ (List.filter is_url (records data) <> [] ->
        redirects_converged data domain (remote w')).
Proof.
intros Hnd Hps Hst Hsc Hdist.
destruct (applyData_settles data domain w ps Hnd Hps Hst Hsc Hdist)
  as (w' & Hrun & Hdns & _ & _ & Hred).
exists w'. auto.
Qed.

Lemma applyData_converges_witness :
  exists w',
    applyData dev_mixed "is-an-ai.dev" {| remote := dev_old_zone; trace := [] |} = Done tt w'
    /\ dns_converged dev_mixed "is-an-ai.dev" (remote w') = true
    /\ (List.filter is_url (records dev_mixed) <> [] ->
        redirects_converged dev_mixed "is-an-ai.dev" (remote w')).
Proof.
eapply (applyData_converges dev_mixed "is-an-ai.dev" {| remote := dev_old_zone; trace := [] |}).
- apply NoDup_ListNoDup, (bool_decide_unpack _). vm_compute. exact I.
- reflexivity.
- reflexivity.
- reflexivity.
- reflexivity.
Defined.

(** On a zone whose records are converged, a run issues no DNS write,
    whatever the rulesets hold. *)
Lemma applyData_dns_quiet data domain w :
  dns_converged data domain (remote w) = true ->
  List.filter is_dns_write (added_calls (applyData data domain) w) = [].
Proof.
intros Hdns. unfold dns_converged in Hdns. cbv zeta in Hdns.
apply andb_true_iff in Hdns as [[Hall Hcover]%andb_true_iff Huniq].
destruct (listAllRecords_run w) as [pages Hlist].
set (w1 := logged w (map ListRecords pages)) in *.
set (existing := recordsForSubdomain (subdomain data) (zone_records (remote w)) domain) in *.
destruct (sync_records_noop existing (records data) ∅ w1 Huniq Hall)
  as (keep & Hsync & _ & Hkeep).
assert (forall w', cleanup existing keep w' = Done tt w') as Hclean.
{ intros w'. apply cleanup_noop. intros e He. apply Hkeep; [exact He|].
  rewrite forallb_forall in Hcover. apply Hcover, He. }
unfold added_calls, applyData.
rewrite (bind_done _ _ _ _ _ Hlist). fold existing.
rewrite (bind_done _ _ _ _ _ Hsync). rewrite bind_run.
assert (emits is_ruleset_call
          (if (0 <? length (List.filter is_url (records data)))%nat
           then syncRedirects (subdomain data) (List.filter is_url (records data)) domain
           else mret tt)) as Hred
  by (destruct (0 <? _)%nat; [apply emits_syncRedirects|apply emits_ret]).
destruct (Hred w1) as (cs & Hcs & Pcs).
assert (trace (final_world
                 (match (if (0 <? length (List.filter is_url (records data)))%nat
                         then syncRedirects (subdomain data)
                                (List.filter is_url (records data)) domain
                         else mret tt) w1 with
                  | Done _ w' => cleanup existing keep w'
                  | Thrown w' => Thrown w'
                  | Stuck w' => Stuck w'
                  end))
        = trace w ++ map ListRecords pages ++ cs) as ->.
{ destruct ((if (0 <? length (List.filter is_url (records data)))%nat
             then syncRedirects (subdomain data) (List.filter is_url (records data)) domain
             else mret tt) w1) as [[] w3|w3|w3]; cbn [final_world] in *;
    rewrite ?Hclean; cbn [final_world]; rewrite Hcs; unfold w1; cbn [logged trace];
    rewrite <- List.app_assoc; reflexivity. }
rewrite drop_app_length, List.filter_app, filter_list_records by reflexivity.
cbn [app]. apply filter_none_of. clear -Pcs. rewrite forallb_forall in Pcs.
intros c Hc. specialize (Pcs c Hc). destruct c; try discriminate; reflexivity.
Qed.

(** X29: after one run of [applyFile] (the zone's record ids pairwise
    different, the request bodies storable, named inside the scope and
    pairwise different in [(type, name)]), a second run issues no DNS
    update, create or delete call. *)
Theorem second_run_quiet (data : definition) (domain : string) (w : world)
    (ps : list obj) :
  List.NoDup (map rec_id (zone_records (remote w))) ->
  payloads_of (records data) = Some ps ->
  forallb storable ps = true ->
  forallb (named_in_scope (subdomain data) domain) ps = true ->
  distinct_payloads ps = true ->
  List.filter is_dns_write
    (added_calls (applyData data domain) (final_world (applyData data domain w))) = [].
Proof.
intros Hnd Hps Hst Hsc Hdist.
destruct (applyData_settles data domain w ps Hnd Hps Hst Hsc Hdist)
  as (w' & Hrun & Hdns & _).
rewrite Hrun. cbn [final_world]. apply applyData_dns_quiet, Hdns.
Qed.

Lemma second_run_quiet_witness :
  List.filter is_dns_write
    (added_calls (applyData dev_mixed "is-an-ai.dev")
       (final_world (applyData dev_mixed "is-an-ai.dev"
                       {| remote := dev_old_zone; trace := [] |}))) = [].
Proof.
eapply (second_run_quiet dev_mixed "is-an-ai.dev" {| remote := dev_old_zone; trace := [] |}).
- apply NoDup_ListNoDup, (bool_decide_unpack _). vm_compute. exact I.
- reflexivity.
- reflexivity.
- reflexivity.
- reflexivity.
Defined.

End ConvergenceFacts.
